(** * Cardiac monitor / defibrillator simulator: waveform synthesis,
      playback clock and therapy outcome model (src/App.tsx)

    Conventions of the embedding.

    - A JavaScript [number] is an exact rational ([Q]); rounding of IEEE
      doubles and of the [Float32Array] cells is not modelled.  A value the
      code obtains through [Math.floor], [Math.ceil] or [Math.round] is an
      integer ([Z]) and is injected back into [Q] where the code mixes it
      with fractions.
    - [Math.exp], [Math.sin], [Math.sqrt] and [Math.PI] are the platform's
      approximations; they are the fields of the class [MathLib].
    - [Math.random()] reads the next element of a stream of draws; the
      stream is threaded through the code by a state monad.
    - A [while]/[for] loop whose trip count depends on data runs on fuel and
      returns [None] when the fuel is exhausted. *)

From Stdlib Require Import String QArith Qround Qabs ZArith List Sorted FinFun Lia Lqa Bool.
Import ListNotations.
Open Scope Q_scope.

(** ** Numbers *)

Definition Math_max (a b : Q) : Q := if Qle_bool a b then b else a.
Definition Math_min (a b : Q) : Q := if Qle_bool a b then a else b.
Definition Qlt_bool (a b : Q) : bool := negb (Qle_bool b a).

Definition Math_floor (x : Q) : Z := Qfloor x.
Definition Math_ceil (x : Q) : Z := Qceiling x.
(** [Math.round] rounds half-way cases up. *)
Definition Math_round (x : Q) : Z := Qfloor (x + 0.5).

Definition SAMPLE_RATE : Q := 500.
Definition BUFFER_SECONDS : Q := 180.

(** [const clamp = (v, lo, hi) => Math.max(lo, Math.min(hi, v))] *)
Definition clamp (v lo hi : Q) : Q := Math_max lo (Math_min hi v).

(** The platform's transcendental functions.  [Math.exp] returns a positive
    number: its arguments here are far from the range where it underflows. *)
Class MathLib : Type := {
  Math_exp : Q -> Q;
  Math_sin : Q -> Q;
  Math_sqrt : Q -> Q;
  Math_PI : Q;
  Math_exp_pos : forall x, 0 < Math_exp x
}.

(** ** The random source *)

Definition Rng : Type := nat -> Q.

(** A stream of draws is an outcome of [Math.random] when every draw lies
    in [0,1). *)
Definition valid_rng (g : Rng) : Prop := forall n, 0 <= g n /\ g n < 1.

Definition M (A : Type) : Type := Rng -> A * Rng.

Definition ret {A} (a : A) : M A := fun g => (a, g).
Definition bind {A B} (m : M A) (k : A -> M B) : M B :=
  fun g => let (a, g') := m g in k a g'.

Notation "x <- m ;; k" := (bind m (fun x => k))
  (at level 61, m at next level, right associativity).

Definition Math_random : M Q := fun g => (g O, fun n => g (S n)).

(** [function randRange(a, b) { return a + Math.random() * (b - a); }] *)
Definition randRange (a b : Q) : M Q :=
  u <- Math_random ;; ret (a + u * (b - a)).

(** [function jitter(base, frac) { return base * (1 + randRange(-frac, frac)); }] *)
Definition jitter (base frac : Q) : M Q :=
  r <- randRange (- frac) frac ;; ret (base * (1 + r)).

(** ** Rhythm identifiers *)

Inductive RhythmId : Type :=
| SINUS | SVT | AFIB_RVR | VT_PULSE | PVT | VF | ASYSTOLE | PEA_NARROW.

(** ** Therapy outcome model: [handleShock] *)

(** A template literal is a list of text pieces and interpolated numbers. *)
Inductive MsgPart : Type :=
| Txt (s : string)
| Num (q : Q).

Definition Message : Type := list MsgPart.

Record ShockResult : Type := {
  appropriate : bool;
  converted : bool;
  message : Message;
  nextRhythm : RhythmId
}.

Module Msg.
Definition defib_ok (e : Q) : Message :=
  [Txt "Defibrillation at "; Num e; Txt "J converted the rhythm → Normal Sinus."].
Definition defib_fail (e : Q) : Message :=
  [Txt "Shock at "; Num e;
   Txt "J unsuccessful. Continue high-quality CPR and escalate energy."].
Definition svt_ok (e : Q) : Message :=
  [Txt "Synchronized cardioversion at "; Num e; Txt "J successful → Normal Sinus."].
Definition svt_fail (e : Q) : Message :=
  [Txt "Cardioversion at "; Num e;
   Txt "J failed. Consider higher energy or alternative maneuvers."].
Definition svt_vf : Message :=
  [Txt "Unsynchronized shock delivered in SVT → degenerated to VF. Begin defibrillation."].
Definition svt_unsync : Message :=
  [Txt "Unsynchronized shock in SVT is inappropriate. No conversion."].
Definition af_ok (e : Q) : Message :=
  [Txt "Synchronized cardioversion at "; Num e; Txt "J → Normal Sinus."].
Definition af_fail (e : Q) : Message :=
  [Txt "Cardioversion at "; Num e; Txt "J failed. Consider higher energy or repeat."].
Definition af_vf : Message :=
  [Txt "Unsynchronized shock in AF with RVR → degenerated to VF."].
Definition af_unsync : Message :=
  [Txt "Unsynchronized shock in AF is inappropriate."].
Definition vt_ok (e : Q) : Message :=
  [Txt "Synchronized cardioversion at "; Num e; Txt "J → Normal Sinus."].
Definition vt_fail (e : Q) : Message :=
  [Txt "Cardioversion at "; Num e; Txt "J failed. Increase energy or reattempt."].
Definition vt_vf : Message :=
  [Txt "Unsynchronized shock in VT with a pulse → degenerated to VF."].
Definition vt_unsync : Message :=
  [Txt "Unsynchronized shock in VT with pulse is inappropriate."].
Definition not_shockable : Message :=
  [Txt "Not a shockable rhythm. Focus on high-quality CPR/epinephrine & reversible causes."].
End Msg.

(** The source keeps [appropriate], [converted], [nextRhythm] and [message]
    in mutable locals initialised to [false], [false], [rhythm] and the empty
    string; every branch below lists the four values it leaves in them.  The
    chain of [rhythm === ...] tests is a match on the closed enumeration. *)
Definition handleShock (rhythm : RhythmId) (energyJ : Q) (syncMode : bool)
    : M ShockResult :=
  let e := Math_max 0 (Math_min 360 energyJ) in
  match rhythm with
  | VF | PVT =>
      let appr := negb syncMode || true in
      let p := Math_max 0.15 (Math_min 0.88 ((e - 80) / 160)) in
      u <- Math_random ;;
      let conv := Qlt_bool u p in
      ret {| appropriate := appr;
             converted := conv;
             message := if conv then Msg.defib_ok e else Msg.defib_fail e;
             nextRhythm := if conv then SINUS else rhythm |}
  | SVT =>
      if syncMode then
        let p := Math_max 0.4 (Math_min 0.95 ((e - 40) / 120)) in
        u <- Math_random ;;
        let conv := Qlt_bool u p in
        ret {| appropriate := true;
               converted := conv;
               message := if conv then Msg.svt_ok e else Msg.svt_fail e;
               nextRhythm := if conv then SINUS else SVT |}
      else
        u <- Math_random ;;
        if Qlt_bool u 0.08 then
          ret {| appropriate := false; converted := false;
                 message := Msg.svt_vf; nextRhythm := VF |}
        else
          ret {| appropriate := false; converted := false;
                 message := Msg.svt_unsync; nextRhythm := SVT |}
  | AFIB_RVR =>
      if syncMode then
        let p := Math_max 0.35 (Math_min 0.85 ((e - 90) / 160)) in
        u <- Math_random ;;
        let conv := Qlt_bool u p in
        ret {| appropriate := true;
               converted := conv;
               message := if conv then Msg.af_ok e else Msg.af_fail e;
               nextRhythm := if conv then SINUS else AFIB_RVR |}
      else
        u <- Math_random ;;
        if Qlt_bool u 0.06 then
          ret {| appropriate := false; converted := false;
                 message := Msg.af_vf; nextRhythm := VF |}
        else
          ret {| appropriate := false; converted := false;
                 message := Msg.af_unsync; nextRhythm := AFIB_RVR |}
  | VT_PULSE =>
      if syncMode then
        let p := Math_max 0.35 (Math_min 0.9 ((e - 80) / 160)) in
        u <- Math_random ;;
        let conv := Qlt_bool u p in
        ret {| appropriate := true;
               converted := conv;
               message := if conv then Msg.vt_ok e else Msg.vt_fail e;
               nextRhythm := if conv then SINUS else VT_PULSE |}
      else
        u <- Math_random ;;
        if Qlt_bool u 0.12 then
          ret {| appropriate := false; converted := false;
                 message := Msg.vt_vf; nextRhythm := VF |}
        else
          ret {| appropriate := false; converted := false;
                 message := Msg.vt_unsync; nextRhythm := VT_PULSE |}
  | ASYSTOLE | PEA_NARROW | SINUS =>
      ret {| appropriate := false; converted := false;
             message := Msg.not_shockable; nextRhythm := rhythm |}
  end.

(** The energy after [Math.max(0, Math.min(360, energyJ))]. *)
Definition clampEnergy (energyJ : Q) : Q := clamp energyJ 0 360.

(** ** Sample arrays *)

(** A [Float32Array] is a list of samples of fixed length.  An indexed
    update outside the array's range leaves a typed array as it is. *)
Fixpoint list_upd (f : Q -> Q) (n : nat) (l : list Q) : list Q :=
  match l, n with
  | [], _ => []
  | x :: l', O => f x :: l'
  | x :: l', S n' => x :: list_upd f n' l'
  end.

Definition arr_upd (f : Q -> Q) (arr : list Q) (i : Z) : list Q :=
  if (i <? 0)%Z then arr else list_upd f (Z.to_nat i) arr.

(** [arr[i] += v] *)
Definition arr_add (arr : list Q) (i : Z) (v : Q) : list Q :=
  arr_upd (fun x => x + v) arr i.

(** [arr[i] = v] *)
Definition arr_set (arr : list Q) (i : Z) (v : Q) : list Q :=
  arr_upd (fun _ => v) arr i.

Definition arr_get (arr : list Q) (i : Z) : Q :=
  if (i <? 0)%Z then 0 else nth (Z.to_nat i) arr 0.

Definition arr_length (arr : list Q) : Z := Z.of_nat (length arr).

(** [new Float32Array(samples)] *)
Definition Float32Array (samples : Z) : list Q := repeat 0 (Z.to_nat samples).

(** The indices [lo, lo+1, ..., hi] visited by
    [for (let i = lo; i <= hi; i++)]; empty when [hi < lo]. *)
Definition Zrange (lo hi : Z) : list Z :=
  map (fun k => (lo + Z.of_nat k)%Z) (seq 0 (Z.to_nat (hi - lo + 1))).

(** ** Gaussian adder *)

Section Synthesis.
Context {ML : MathLib}.

Definition gauss_start (centerIdx sigmaSamples : Q) : Z :=
  Z.max 0 (Math_floor (centerIdx - 4 * sigmaSamples)).

Definition gauss_end (arr : list Q) (centerIdx sigmaSamples : Q) : Z :=
  Z.min (arr_length arr - 1) (Math_ceil (centerIdx + 4 * sigmaSamples)).

(** The value added to sample [i]. *)
Definition gauss_term (centerIdx amplitude sigmaSamples : Q) (i : Z) : Q :=
  let x := (inject_Z i - centerIdx) / sigmaSamples in
  amplitude * Math_exp (- 0.5 * x * x).

(** The indices the loop of [addGaussian] reads and writes. *)
Definition gauss_indices (arr : list Q) (centerIdx sigmaSamples : Q) : list Z :=
  Zrange (gauss_start centerIdx sigmaSamples) (gauss_end arr centerIdx sigmaSamples).

Definition addGaussian (arr : list Q) (centerIdx amplitude sigmaSamples : Q)
    : list Q :=
  fold_left
    (fun a i => arr_add a i (gauss_term centerIdx amplitude sigmaSamples i))
    (gauss_indices arr centerIdx sigmaSamples)
    arr.

End Synthesis.

(** The window of [addGaussian] before it is cut to the array. *)
Definition in_gauss_window (centerIdx sigmaSamples : Q) (i : Z) : bool :=
  (Math_floor (centerIdx - 4 * sigmaSamples) <=? i)%Z &&
  (i <=? Math_ceil (centerIdx + 4 * sigmaSamples))%Z.

(** ** Playback clock: the position update and the window loop of [draw] *)

(** Truncation toward zero, and the JavaScript remainder [x % y] built on
    it (the result takes the sign of the dividend). *)
Definition Qtrunc (x : Q) : Z := if Qle_bool 0 x then Qfloor x else Qceiling x.
Definition js_rem (x y : Q) : Q := x - inject_Z (Qtrunc (x / y)) * y.

Inductive Speed : Type := Speed25 | Speed50.

(** [const visibleSec = speed === 25 ? 6 : 3;] *)
Definition visibleSec (speed : Speed) : Q :=
  match speed with Speed25 => 6 | Speed50 => 3 end.

(** [scroll.current = (scroll.current + dt * SAMPLE_RATE) % buffer.length] *)
Definition advance_scroll (scroll dt : Q) (len : Z) : Q :=
  js_rem (scroll + dt * SAMPLE_RATE) (inject_Z len).

Definition visSamples (speed : Speed) : Z :=
  Math_floor (visibleSec speed * SAMPLE_RATE).

Definition startIdx (scroll : Q) (len : Z) : Z :=
  Z.rem (Math_floor scroll) len.

(** The index read for canvas column [px] of a canvas [w] columns wide. *)
Definition sample_index (scroll : Q) (len : Z) (speed : Speed) (w px : Z) : Z :=
  let frac := inject_Z px / inject_Z w in
  let sampleOffset := Math_floor (frac * inject_Z (visSamples speed)) in
  Z.rem (startIdx scroll len + sampleOffset) len.

(** All indices read by [for (let px = 0; px < w; px++)]. *)
Definition window_indices (scroll : Q) (len : Z) (speed : Speed) (w : Z)
    : list Z :=
  map (sample_index scroll len speed w) (Zrange 0 (w - 1)).

(** ** Rhythm synthesizers *)

Record GeneratedBuffer : Type := {
  buffer : list Q;
  rPeaks : list Z
}.

(** [for (const x of l) body], threading the loop-carried state. *)
Fixpoint forM {A S : Type} (l : list A) (body : A -> S -> M S) (s : S) : M S :=
  match l with
  | [] => ret s
  | x :: l' => s' <- body x s ;; forM l' body s'
  end.

(** [while (cond) body] and [for (init; cond; step) body] on fuel: [None]
    when the fuel runs out before the condition fails. *)
Fixpoint while_loop {S : Type} (fuel : nat) (cond : S -> bool)
    (body : S -> M S) (s : S) : M (option S) :=
  if cond s then
    match fuel with
    | O => ret None
    | Datatypes.S fuel' => s' <- body s ;; while_loop fuel' cond body s'
    end
  else ret (Some s).

(** The optional argument of [generateRegularECG]; an absent field is [None]. *)
Record Opts : Type := {
  pWave : option bool;
  tWave : option bool;
  amp : option Q;
  prMsMin : option Q;
  prMsMax : option Q
}.

(** [opts?.f !== false] and [opts?.f ?? d] *)
Definition not_false (o : option bool) : bool :=
  match o with Some false => false | _ => true end.
Definition or_default (o : option Q) (d : Q) : Q :=
  match o with Some v => v | None => d end.

Section Generators.
Context {ML : MathLib}.

(** *** Regular P-QRS-T cycles *)

(** The variables the [while] loop of [generateRegularECG] carries. *)
Record RegState : Type := {
  reg_tSec : Q;
  reg_arr : list Q;
  reg_rPeaks : list Z
}.

(** One pass through the body of the [while] loop. *)
Definition regular_beat (baseHr qrsWidthMs : Q) (showP showT : bool)
    (baseAmp prMin prMax : Q) (st : RegState) : M RegState :=
  let arr := reg_arr st in
  j <- jitter baseHr 0.03 ;;
  let beatHr := clamp j 45 190 in
  let cycleSec := 60 / beatHr in
  let base := Math_floor (reg_tSec st * SAMPLE_RATE) in
  (* Intervals (ms) *)
  r <- randRange prMin prMax ;;
  let prMs := clamp r 80 260 in
  jq <- jitter qrsWidthMs 0.08 ;;
  let qrsMs := clamp jq 50 160 in
  let qtMs := clamp (400 * Math_sqrt (60 / beatHr)) 280 460 in
  (* Amplitudes *)
  amp <- jitter baseAmp 0.06 ;;
  let pAmp := 0.14 * amp in
  let rAmp := 1.05 * amp in
  let sAmp := - 0.25 * amp in
  let qAmp := - 0.12 * amp in
  let tAmp := 0.32 * amp in
  (* Convert ms to samples *)
  let prS := Math_floor ((prMs / 1000) * SAMPLE_RATE) in
  let qrsS := Math_floor ((qrsMs / 1000) * SAMPLE_RATE) in
  let qtS := Math_floor ((qtMs / 1000) * SAMPLE_RATE) in
  (* Centers *)
  let pCenter := (base + Z.max 6 (Math_floor (inject_Z prS * 0.55)))%Z in
  let qrsCenter := (base + prS)%Z in
  let tCenter := (base + prS + Math_floor (inject_Z qtS * 0.65))%Z in
  (* P wave *)
  let arr :=
    if showP then
      addGaussian arr (inject_Z pCenter) pAmp
        (inject_Z (Z.max 3 (Math_floor (inject_Z qrsS * 0.35))))
    else arr in
  (* QRS complex *)
  let arr :=
    addGaussian arr (inject_Z (qrsCenter - Math_floor (inject_Z qrsS * 0.35))) qAmp
      (inject_Z (Z.max 2 (Math_floor (inject_Z qrsS * 0.28)))) in
  let arr :=
    addGaussian arr (inject_Z qrsCenter) rAmp
      (inject_Z (Z.max 3 (Math_floor (inject_Z qrsS * 0.55)))) in
  let arr :=
    addGaussian arr (inject_Z (qrsCenter + Math_floor (inject_Z qrsS * 0.35))) sAmp
      (inject_Z (Z.max 2 (Math_floor (inject_Z qrsS * 0.32)))) in
  (* T wave *)
  let arr :=
    if showT then
      addGaussian arr (inject_Z tCenter) tAmp
        (inject_Z (Z.max 6 (Math_floor (inject_Z qtS * 0.22))))
    else arr in
  ret {| reg_tSec := reg_tSec st + cycleSec;
         reg_arr := arr;
         reg_rPeaks := reg_rPeaks st ++ [qrsCenter] |}.

(** [while (tSec * SAMPLE_RATE < samples) { ... }] *)
Definition regular_cond (samples : Z) (st : RegState) : bool :=
  Qlt_bool (reg_tSec st * SAMPLE_RATE) (inject_Z samples).

Definition regular_loop (fuel : nat) (samples : Z) (baseHr qrsWidthMs : Q)
    (showP showT : bool) (baseAmp prMin prMax : Q) (st : RegState)
    : M (option RegState) :=
  while_loop fuel (regular_cond samples)
    (regular_beat baseHr qrsWidthMs showP showT baseAmp prMin prMax) st.

(** Baseline noise and drift: the body of the second loop, carrying
    [drift] and the array. *)
Definition regular_noise (i : Z) (s : Q * list Q) : M (Q * list Q) :=
  let (drift, arr) := s in
  drift <- (if (Z.rem i 800 =? 0)%Z then
              j <- jitter drift 0.2 ;;
              r <- randRange (- 0.02) 0.02 ;;
              ret (clamp (j + r) (- 0.2) 0.2)
            else ret drift) ;;
  n <- randRange (- 0.02) 0.02 ;;
  ret (drift, arr_add arr i (drift * 0.002 + n)).

Definition generateRegularECG (fuel : nat) (seconds hr qrsWidthMs : Q)
    (opts : Opts) : M (option GeneratedBuffer) :=
  let samples := Math_floor (seconds * SAMPLE_RATE) in
  let arr := Float32Array samples in
  let showP := not_false (pWave opts) in
  let showT := not_false (tWave opts) in
  let baseAmp := or_default (amp opts) 1.0 in
  let prMin := or_default (prMsMin opts) 120 in
  let prMax := or_default (prMsMax opts) 200 in
  let baseHr := hr in
  o <- regular_loop fuel samples baseHr qrsWidthMs showP showT baseAmp prMin prMax
         {| reg_tSec := 0; reg_arr := arr; reg_rPeaks := [] |} ;;
  match o with
  | None => ret None
  | Some st =>
      da <- forM (Zrange 0 (samples - 1)) regular_noise (0, reg_arr st) ;;
      ret (Some {| buffer := snd da; rPeaks := reg_rPeaks st |})
  end.

(** *** Atrial fibrillation with rapid ventricular response *)

Record AfState : Type := {
  af_t : Q;
  af_arr : list Q;
  af_rPeaks : list Z
}.

Definition afib_beat (meanRR : Q) (st : AfState) : M AfState :=
  let arr := af_arr st in
  u <- randRange (meanRR - 0.22) (meanRR + 0.22) ;;
  let rr := clamp u 0.28 1.1 in
  let rIndex := Math_floor (af_t st * SAMPLE_RATE) in
  w <- randRange 70 100 ;;
  let qrsS := Math_floor ((w / 1000) * SAMPLE_RATE) in
  let arr :=
    addGaussian arr (inject_Z (rIndex - Math_floor (inject_Z qrsS * 0.35))) (- 0.12)
      (inject_Z (Z.max 2 (Math_floor (inject_Z qrsS * 0.3)))) in
  a <- randRange 0.8 1.0 ;;
  let arr :=
    addGaussian arr (inject_Z rIndex) a
      (inject_Z (Z.max 3 (Math_floor (inject_Z qrsS * 0.55)))) in
  let arr :=
    addGaussian arr (inject_Z (rIndex + Math_floor (inject_Z qrsS * 0.35))) (- 0.2)
      (inject_Z (Z.max 2 (Math_floor (inject_Z qrsS * 0.32)))) in
  (* Modest T *)
  let arr :=
    addGaussian arr (inject_Z (rIndex + Math_floor (0.22 * SAMPLE_RATE))) 0.25 20 in
  ret {| af_t := af_t st + rr;
         af_arr := arr;
         af_rPeaks := af_rPeaks st ++ [rIndex] |}.

(** [while (t * SAMPLE_RATE < samples) { ... }] *)
Definition afib_cond (samples : Z) (st : AfState) : bool :=
  Qlt_bool (af_t st * SAMPLE_RATE) (inject_Z samples).

Definition afib_loop (fuel : nat) (samples : Z) (meanRR : Q) (st : AfState)
    : M (option AfState) :=
  while_loop fuel (afib_cond samples) (afib_beat meanRR) st.

(** Fibrillatory baseline: the body of the first loop. *)
Definition afib_baseline (fHz : Q) (i : Z) (arr : list Q) : M (list Q) :=
  let t := inject_Z i / SAMPLE_RATE in
  n <- randRange (- 0.03) 0.03 ;;
  ret (arr_add arr i (0.08 * Math_sin (2 * Math_PI * fHz * t) + n)).

Definition generateAfibRvr (fuel : nat) (seconds meanHr : Q)
    : M (option GeneratedBuffer) :=
  let samples := Math_floor (seconds * SAMPLE_RATE) in
  let arr := Float32Array samples in
  fHz <- randRange 5 8 ;;
  arr <- forM (Zrange 0 (samples - 1)) (afib_baseline fHz) arr ;;
  let meanRR := 60 / meanHr in
  o <- afib_loop fuel samples meanRR {| af_t := 0; af_arr := arr; af_rPeaks := [] |} ;;
  match o with
  | None => ret None
  | Some st => ret (Some {| buffer := af_arr st; rPeaks := af_rPeaks st |})
  end.

(** *** Ventricular fibrillation *)

Record VfState : Type := {
  vf_f1 : Q; vf_f2 : Q; vf_f3 : Q;
  vf_a1 : Q; vf_a2 : Q; vf_a3 : Q;
  vf_arr : list Q
}.

Definition vf_sample (phi1 phi2 phi3 : Q) (i : Z) (st : VfState) : M VfState :=
  let t := inject_Z i / SAMPLE_RATE in
  (* slowly wander frequencies & amplitudes *)
  st <- (if (Z.rem i 500 =? 0)%Z then
           f1 <- jitter (vf_f1 st) 0.05 ;;
           f2 <- jitter (vf_f2 st) 0.05 ;;
           f3 <- jitter (vf_f3 st) 0.05 ;;
           j1 <- jitter (vf_a1 st) 0.08 ;;
           let a1 := Math_max 0.3 (Math_min 1.1 j1) in
           j2 <- jitter (vf_a2 st) 0.1 ;;
           let a2 := Math_max 0.1 (Math_min 0.8 j2) in
           j3 <- jitter (vf_a3 st) 0.12 ;;
           let a3 := Math_max 0.05 (Math_min 0.6 j3) in
           ret {| vf_f1 := f1; vf_f2 := f2; vf_f3 := f3;
                  vf_a1 := a1; vf_a2 := a2; vf_a3 := a3;
                  vf_arr := vf_arr st |}
         else ret st) ;;
  n <- randRange (- 0.05) 0.05 ;;
  let val :=
    vf_a1 st * Math_sin (2 * Math_PI * vf_f1 st * t + phi1) +
    vf_a2 st * Math_sin (2 * Math_PI * vf_f2 st * t + phi2) +
    vf_a3 st * Math_sin (2 * Math_PI * vf_f3 st * t + phi3) +
    n in
  ret {| vf_f1 := vf_f1 st; vf_f2 := vf_f2 st; vf_f3 := vf_f3 st;
         vf_a1 := vf_a1 st; vf_a2 := vf_a2 st; vf_a3 := vf_a3 st;
         vf_arr := arr_set (vf_arr st) i val |}.

Definition generateVF (seconds : Q) : M GeneratedBuffer :=
  let samples := Math_floor (seconds * SAMPLE_RATE) in
  let arr := Float32Array samples in
  let rPeaks : list Z := [] in
  f1 <- randRange 3 6 ;;
  f2 <- randRange 6 9 ;;
  f3 <- randRange 9 12 ;;
  a1 <- randRange 0.5 1.0 ;;
  a2 <- randRange 0.2 0.6 ;;
  a3 <- randRange 0.1 0.4 ;;
  u1 <- Math_random ;;
  let phi1 := u1 * Math_PI * 2 in
  u2 <- Math_random ;;
  let phi2 := u2 * Math_PI * 2 in
  u3 <- Math_random ;;
  let phi3 := u3 * Math_PI * 2 in
  st <- forM (Zrange 0 (samples - 1)) (vf_sample phi1 phi2 phi3)
          {| vf_f1 := f1; vf_f2 := f2; vf_f3 := f3;
             vf_a1 := a1; vf_a2 := a2; vf_a3 := a3; vf_arr := arr |} ;;
  ret {| buffer := vf_arr st; rPeaks := rPeaks |}.

(** *** Monomorphic ventricular tachycardia *)

Record VtState : Type := {
  vt_k : Z;
  vt_arr : list Q;
  vt_rPeaks : list Z
}.

Definition vt_beat (cycleSamples captureEvery : Z) (st : VtState) : M VtState :=
  let k := vt_k st in
  let arr := vt_arr st in
  let base := (k * cycleSamples)%Z in
  let center := inject_Z base + 0.32 * inject_Z cycleSamples in
  (* [k % captureEvery === 0 && Math.random() < 0.5]: the draw is made only
     when the first test holds *)
  isCapture <- (if (Z.rem k captureEvery =? 0)%Z then
                  u <- Math_random ;; ret (Qlt_bool u 0.5)
                else ret false) ;;
  let wideScale := if isCapture then 0.5 else 1.0 in
  rHeight <- (if isCapture then ret 0.85 else randRange 0.9 1.2) ;;
  let arr :=
    addGaussian arr (center - 12 * wideScale) (- 0.18)
      (inject_Z (Z.max 4 (Math_floor (6 * wideScale)))) in
  let arr :=
    addGaussian arr center rHeight (inject_Z (Math_floor (18 * wideScale))) in
  let arr :=
    addGaussian arr (center + 12 * wideScale) (- 0.28)
      (inject_Z (Z.max 4 (Math_floor (7 * wideScale)))) in
  let peaks := vt_rPeaks st ++ [Math_round center] in
  let arr :=
    if isCapture then
      (* overlay narrow spike suggesting capture/fusion *)
      addGaussian arr (center - 2) 0.6 4
    else arr in
  let arr :=
    addGaussian arr (inject_Z base + 0.62 * inject_Z cycleSamples) 0.15 22 in
  ret {| vt_k := (k + 1)%Z; vt_arr := arr; vt_rPeaks := peaks |}.

(** [for (let k = 0; k * cycleSamples < samples; k++) { ... }] *)
Definition vt_cond (samples cycleSamples : Z) (st : VtState) : bool :=
  (vt_k st * cycleSamples <? samples)%Z.

Definition vt_loop (fuel : nat) (samples cycleSamples captureEvery : Z)
    (st : VtState) : M (option VtState) :=
  while_loop fuel (vt_cond samples cycleSamples)
    (vt_beat cycleSamples captureEvery) st.

Definition vt_noise (i : Z) (arr : list Q) : M (list Q) :=
  n <- randRange (- 0.02) 0.02 ;;
  ret (arr_add arr i n).

(** [const cycleSec = 60 / hr;
     const cycleSamples = Math.max(20, Math.floor(cycleSec * SAMPLE_RATE));] *)
Definition vt_cycleSamples (hr : Q) : Z :=
  let cycleSec := 60 / hr in
  Z.max 20 (Math_floor (cycleSec * SAMPLE_RATE)).

Definition generateVT (fuel : nat) (seconds hr : Q) : M (option GeneratedBuffer) :=
  let samples := Math_floor (seconds * SAMPLE_RATE) in
  let arr := Float32Array samples in
  let cycleSamples := vt_cycleSamples hr in
  (* Occasionally insert capture/fusion beats *)
  c <- randRange 8 16 ;;
  let captureEvery := Z.max 6 (Math_floor c) in
  o <- vt_loop fuel samples cycleSamples captureEvery
         {| vt_k := 0; vt_arr := arr; vt_rPeaks := [] |} ;;
  match o with
  | None => ret None
  | Some st =>
      arr <- forM (Zrange 0 (samples - 1)) vt_noise (vt_arr st) ;;
      ret (Some {| buffer := arr; rPeaks := vt_rPeaks st |})
  end.

(** *** Asystole, PEA, SVT *)

Definition asystole_sample (i : Z) (arr : list Q) : M (list Q) :=
  n <- randRange (- 0.015) 0.015 ;;
  ret (arr_set arr i n).

Definition generateAsystole (seconds : Q) : M GeneratedBuffer :=
  let samples := Math_floor (seconds * SAMPLE_RATE) in
  let arr := Float32Array samples in
  arr <- forM (Zrange 0 (samples - 1)) asystole_sample arr ;;
  ret {| buffer := arr; rPeaks := [] |}.

Definition generatePEA_narrow (fuel : nat) (seconds hr : Q)
    : M (option GeneratedBuffer) :=
  generateRegularECG fuel seconds hr 85
    {| pWave := None; tWave := None; amp := Some 0.85;
       prMsMin := Some 140; prMsMax := Some 220 |}.

(** Retrograde P just after the QRS, on 30% of the beats. *)
Definition svt_retrograde (rp : Z) (arr : list Q) : M (list Q) :=
  u <- Math_random ;;
  if Qlt_bool u 0.3 then
    ret (addGaussian arr (inject_Z (rp + Math_floor (0.06 * SAMPLE_RATE))) (- 0.07) 8)
  else ret arr.

(** [generateSVT] updates the array of [base] in place and returns [base]:
    the result carries the updated array and the marks of [base]. *)
Definition generateSVT (fuel : nat) (seconds hr : Q) : M (option GeneratedBuffer) :=
  o <- generateRegularECG fuel seconds hr 80
         {| pWave := Some false; tWave := None; amp := Some 0.95;
            prMsMin := Some 60; prMsMax := Some 120 |} ;;
  match o with
  | None => ret None
  | Some base =>
      arr <- forM (rPeaks base) svt_retrograde (buffer base) ;;
      ret (Some {| buffer := arr; rPeaks := rPeaks base |})
  end.

(** *** The scenario library *)

Record Scenario : Type := {
  label : string;
  desc : string;
  generator : M (option GeneratedBuffer);
  shockable : bool;
  syncRecommended : bool;
  syncable : bool
}.

(** The heart rates the scenario table draws for its generators:
    [70 + Math.floor(randRange(-8, 8))], [Math.floor(randRange(160, 210))],
    [140 + Math.floor(randRange(-20, 20))], [Math.floor(randRange(150, 185))]. *)
Definition sinus_hr : M Q :=
  d <- randRange (- 8) 8 ;; ret (70 + inject_Z (Math_floor d)).
Definition svt_hr : M Q :=
  d <- randRange 160 210 ;; ret (inject_Z (Math_floor d)).
Definition afib_meanHr : M Q :=
  d <- randRange (- 20) 20 ;; ret (140 + inject_Z (Math_floor d)).
Definition vt_pulse_hr : M Q :=
  d <- randRange 150 185 ;; ret (inject_Z (Math_floor d)).

Definition SCENARIOS (fuel : nat) (r : RhythmId) : Scenario :=
  match r with
  | SINUS =>
      {| label := "Normal Sinus (75 bpm)";
         desc := "Baseline for comparison.";
         generator :=
           (hr <- sinus_hr ;;
            generateRegularECG fuel BUFFER_SECONDS hr 85
              {| pWave := None; tWave := None; amp := Some 1.0;
                 prMsMin := Some 120; prMsMax := Some 200 |});
         shockable := false; syncRecommended := false; syncable := true |}
  | SVT =>
      {| label := "SVT ~180";
         desc := "Regular narrow-complex tachycardia.";
         generator :=
           (hr <- svt_hr ;; generateSVT fuel BUFFER_SECONDS hr);
         shockable := false; syncRecommended := true; syncable := true |}
  | AFIB_RVR =>
      {| label := "Atrial Fibrillation (RVR)";
         desc := "Irregularly irregular narrow-complex.";
         generator :=
           (meanHr <- afib_meanHr ;; generateAfibRvr fuel BUFFER_SECONDS meanHr);
         shockable := false; syncRecommended := true; syncable := true |}
  | VT_PULSE =>
      {| label := "Monomorphic VT (with pulse)";
         desc := "Wide-complex tachycardia, unstable → synchronized cardioversion.";
         generator :=
           (hr <- vt_pulse_hr ;; generateVT fuel BUFFER_SECONDS hr);
         shockable := false; syncRecommended := true; syncable := true |}
  | PVT =>
      {| label := "Pulseless VT";
         desc := "Shockable rhythm (unsynchronized defib).";
         generator := generateVT fuel BUFFER_SECONDS 170;
         shockable := true; syncRecommended := false; syncable := true |}
  | VF =>
      {| label := "Ventricular Fibrillation";
         desc := "Coarse → fine VF; shockable.";
         generator := (b <- generateVF BUFFER_SECONDS ;; ret (Some b));
         shockable := true; syncRecommended := false; syncable := false |}
  | ASYSTOLE =>
      {| label := "Asystole";
         desc := "Flatline (confirm in 2 leads). Not shockable.";
         generator := (b <- generateAsystole BUFFER_SECONDS ;; ret (Some b));
         shockable := false; syncRecommended := false; syncable := false |}
  | PEA_NARROW =>
      {| label := "PEA (narrow)";
         desc := "Electrical activity, no pulse. Not shockable.";
         generator := generatePEA_narrow fuel BUFFER_SECONDS 50;
         shockable := false; syncRecommended := false; syncable := true |}
  end.

(** Fuel for the beat loops: one more than the number of samples of a
    buffer.  Every pass of a beat loop advances its position by at least one
    sample, so this is never exhausted (see [synthesize_terminates]). *)
Definition default_fuel : nat :=
  S (Z.to_nat (Math_floor (BUFFER_SECONDS * SAMPLE_RATE))).

(** [SCENARIOS[scenario].generator()] *)
Definition synthesize_fuel (fuel : nat) (r : RhythmId) : M (option GeneratedBuffer) :=
  generator (SCENARIOS fuel r).

Definition synthesize (r : RhythmId) : M (option GeneratedBuffer) :=
  synthesize_fuel default_fuel r.

End Generators.

(** The number of samples of every scenario buffer. *)
Definition buffer_samples : Z := Math_floor (BUFFER_SECONDS * SAMPLE_RATE).

(** The scenarios built on a beat loop. *)
Definition has_beats (r : RhythmId) : bool :=
  match r with VF | ASYSTOLE => false | _ => true end.

(** The mark of cycle [k]: [Math.round(k * cycleSamples + 0.32 * cycleSamples)]. *)
Definition vt_mark (cycleSamples k : Z) : Z :=
  Math_round (inject_Z (k * cycleSamples) + 0.32 * inject_Z cycleSamples).

(** ** Statements about marks, and the invariants of the beat loops *)

(** What every beat loop keeps of the marks of a finished buffer of [len]
    samples: strictly increasing, non-negative, and all but the last below
    [len]. *)
Definition marks_ok (len : Z) (l : list Z) : Prop :=
  StronglySorted Z.lt l /\
  Forall (fun x => (0 <= x)%Z) l /\
  Forall (fun x => (0 <= x < len)%Z) (removelast l).

(** The invariant of a beat loop: the marks recorded so far are strictly
    increasing, lie in [0, next) where [next] is the sample at which the next
    beat starts, and all but the last lie below [samples]. *)
Definition marks_inv (samples next : Z) (l : list Z) : Prop :=
  (0 <= next)%Z /\
  StronglySorted Z.lt l /\
  Forall (fun x => (0 <= x < next)%Z) l /\
  Forall (fun x => (x < samples)%Z) (removelast l).

(** What every generator built on a beat loop delivers. *)
Definition generated_ok (samples : Z) (o : option GeneratedBuffer * Rng) : Prop :=
  exists buf g',
    o = (Some buf, g') /\
    length (buffer buf) = Z.to_nat samples /\
    marks_ok samples (rPeaks buf) /\
    ((0 < samples)%Z -> rPeaks buf <> []).

(** The loop of [generateRegularECG]: the invariant its body keeps, with [n]
    the length of the array, and the number of samples still to cover. *)
Definition reg_inv (samples : Z) (n : nat) (st : RegState) : Prop :=
  0 <= reg_tSec st /\
  marks_inv samples (Math_floor (reg_tSec st * SAMPLE_RATE)) (reg_rPeaks st) /\
  length (reg_arr st) = n /\
  (reg_rPeaks st = [] -> reg_tSec st == 0).

Definition reg_measure (samples : Z) (st : RegState) : Z :=
  (samples - Math_floor (reg_tSec st * SAMPLE_RATE))%Z.

(** The loop of [generateAfibRvr]. *)
Definition af_inv (samples : Z) (n : nat) (st : AfState) : Prop :=
  0 <= af_t st /\
  marks_inv samples (Math_floor (af_t st * SAMPLE_RATE)) (af_rPeaks st) /\
  length (af_arr st) = n /\
  (af_rPeaks st = [] -> af_t st == 0).

Definition af_measure (samples : Z) (st : AfState) : Z :=
  (samples - Math_floor (af_t st * SAMPLE_RATE))%Z.

(** The loop of [generateVT]; it also records that the mark of every cycle
    passed so far is in the list. *)
Definition vt_inv (samples : Z) (n : nat) (cycleSamples : Z) (st : VtState) : Prop :=
  (0 <= vt_k st)%Z /\
  marks_inv samples (vt_k st * cycleSamples) (vt_rPeaks st) /\
  length (vt_arr st) = n /\
  (vt_rPeaks st = [] -> vt_k st = 0%Z) /\
  (forall j, (0 <= j < vt_k st)%Z -> In (vt_mark cycleSamples j) (vt_rPeaks st)).

Definition vt_measure (samples cycleSamples : Z) (st : VtState) : Z :=
  (samples - vt_k st * cycleSamples)%Z.

(** ** The simulator session: state and handlers of
       [CardiacMonitorDefibSimulator] *)

(** [a === b] on rhythm identifiers. *)
Definition RhythmId_eqb (a b : RhythmId) : bool :=
  match a, b with
  | SINUS, SINUS | SVT, SVT | AFIB_RVR, AFIB_RVR | VT_PULSE, VT_PULSE
  | PVT, PVT | VF, VF | ASYSTOLE, ASYSTOLE | PEA_NARROW, PEA_NARROW => true
  | _, _ => false
  end.

Module Session.

Inductive Mode : Type := practice | quiz.
Inductive Gain : Type := Gain5 | Gain10 | Gain20.

Record Score : Type := {
  dxCorrect : Z;
  dxTotal : Z;
  txCorrect : Z;
  txTotal : Z
}.

(** The [useState] cells.  [timers] is not a cell: it lists the charge timers
    [onCharge] has started and that have not fired yet, oldest first, each
    with the energy its callback captured. *)
Record State : Type := {
  powerOn : bool;
  padsOn : bool;
  speed : Speed;
  gain : Gain;
  syncMode : bool;
  energy : Q;
  charged : bool;
  charging : bool;
  scenario : RhythmId;
  status : Message;
  shockFlashTs : Q;
  mode : Mode;
  diagChoice : option RhythmId;
  score : Score;
  timers : list Q
}.

Definition initial : State := {|
  powerOn := true;
  padsOn := true;
  speed := Speed25;
  gain := Gain10;
  syncMode := false;
  energy := 200;
  charged := false;
  charging := false;
  scenario := VF;
  status := [Txt "Press CHARGE, then SHOCK. Use SYNC for cardioversion."];
  shockFlashTs := 0;
  mode := practice;
  diagChoice := None;
  score := {| dxCorrect := 0; dxTotal := 0; txCorrect := 0; txTotal := 0 |};
  timers := []
|}.

Definition setStatus (m : Message) (s : State) : State :=
  {| powerOn := powerOn s; padsOn := padsOn s; speed := speed s; gain := gain s;
     syncMode := syncMode s; energy := energy s; charged := charged s;
     charging := charging s; scenario := scenario s; status := m;
     shockFlashTs := shockFlashTs s; mode := mode s; diagChoice := diagChoice s;
     score := score s; timers := timers s |}.

Definition setCharge (isCharging isCharged : bool) (s : State) : State :=
  {| powerOn := powerOn s; padsOn := padsOn s; speed := speed s; gain := gain s;
     syncMode := syncMode s; energy := energy s; charged := isCharged;
     charging := isCharging; scenario := scenario s; status := status s;
     shockFlashTs := shockFlashTs s; mode := mode s; diagChoice := diagChoice s;
     score := score s; timers := timers s |}.

Definition setScenario (r : RhythmId) (s : State) : State :=
  {| powerOn := powerOn s; padsOn := padsOn s; speed := speed s; gain := gain s;
     syncMode := syncMode s; energy := energy s; charged := charged s;
     charging := charging s; scenario := r; status := status s;
     shockFlashTs := shockFlashTs s; mode := mode s; diagChoice := diagChoice s;
     score := score s; timers := timers s |}.

Definition setScore (f : Score -> Score) (s : State) : State :=
  {| powerOn := powerOn s; padsOn := padsOn s; speed := speed s; gain := gain s;
     syncMode := syncMode s; energy := energy s; charged := charged s;
     charging := charging s; scenario := scenario s; status := status s;
     shockFlashTs := shockFlashTs s; mode := mode s; diagChoice := diagChoice s;
     score := f (score s); timers := timers s |}.

Definition setTimers (l : list Q) (s : State) : State :=
  {| powerOn := powerOn s; padsOn := padsOn s; speed := speed s; gain := gain s;
     syncMode := syncMode s; energy := energy s; charged := charged s;
     charging := charging s; scenario := scenario s; status := status s;
     shockFlashTs := shockFlashTs s; mode := mode s; diagChoice := diagChoice s;
     score := score s; timers := l |}.

Definition setDisplay (power pads : bool) (sp : Speed) (gn : Gain) (sync : bool)
    (e : Q) (s : State) : State :=
  {| powerOn := power; padsOn := pads; speed := sp; gain := gn;
     syncMode := sync; energy := e; charged := charged s;
     charging := charging s; scenario := scenario s; status := status s;
     shockFlashTs := shockFlashTs s; mode := mode s; diagChoice := diagChoice s;
     score := score s; timers := timers s |}.

Definition setQuiz (m : Mode) (d : option RhythmId) (s : State) : State :=
  {| powerOn := powerOn s; padsOn := padsOn s; speed := speed s; gain := gain s;
     syncMode := syncMode s; energy := energy s; charged := charged s;
     charging := charging s; scenario := scenario s; status := status s;
     shockFlashTs := shockFlashTs s; mode := m; diagChoice := d;
     score := score s; timers := timers s |}.

Definition setShockFlashTs (t : Q) (s : State) : State :=
  {| powerOn := powerOn s; padsOn := padsOn s; speed := speed s; gain := gain s;
     syncMode := syncMode s; energy := energy s; charged := charged s;
     charging := charging s; scenario := scenario s; status := status s;
     shockFlashTs := t; mode := mode s; diagChoice := diagChoice s;
     score := score s; timers := timers s |}.

(** [function formatEnergy(e) { return `${Math.round(e)} J`; }] *)
Definition formatEnergy (e : Q) : Message :=
  [Num (inject_Z (Math_round e)); Txt " J"].

Section Handlers.
Context {ML : MathLib}.

Definition scenario_label (r : RhythmId) : string := label (SCENARIOS default_fuel r).
Definition scenario_desc (r : RhythmId) : string := desc (SCENARIOS default_fuel r).

(** [`Loaded: ${SCENARIOS[v].label}. ${SCENARIOS[v].desc}`] *)
Definition loaded_status (prefix : string) (r : RhythmId) : Message :=
  [Txt prefix; Txt (scenario_label r); Txt ". "; Txt (scenario_desc r)].

(** [onCharge], up to the moment it returns: the timer it starts is
    appended to [timers].  Its second timer, which clears the first one 200 ms
    after the first one has fired, does nothing. *)
Definition onCharge (s : State) : State :=
  if negb (powerOn s) then setStatus [Txt "Power is OFF."] s
  else if negb (padsOn s) then setStatus [Txt "Attach pads first."] s
  else if charging s then s
  else
    setTimers (timers s ++ [energy s])
      (setStatus ([Txt "Charging to "] ++ formatEnergy (energy s) ++ [Txt "..."])
         (setCharge true false s)).

(** The callback of the oldest pending charge timer, 1800 ms after
    [onCharge]. *)
Definition chargeTimer (s : State) : State :=
  match timers s with
  | [] => s
  | e :: rest =>
      setTimers rest
        (setStatus ([Txt "Charged: "] ++ formatEnergy e ++ [Txt ". Ready to shock."])
           (setCharge false true s))
  end.

(** [onShock]; [now] is [performance.now()]. *)
Definition onShock (now : Q) (s : State) : M State :=
  if negb (powerOn s) then ret (setStatus [Txt "Power is OFF."] s)
  else if negb (padsOn s) then ret (setStatus [Txt "Attach pads to patient first."] s)
  else if negb (charged s) then ret (setStatus [Txt "Not charged."] s)
  else
    res <- handleShock (scenario s) (energy s) (syncMode s) ;;
    let s1 := setCharge (charging s) false (setShockFlashTs now s) in
    let s2 :=
      setStatus
        ([Txt (if syncMode s then "SYNCHRONIZED " else "UNSYNCHRONIZED "); Txt "SHOCK "]
         ++ formatEnergy (energy s) ++ [Txt " → "] ++ message res
         ++ [Txt " "; Txt (if appropriate res then "[Appropriate]" else "[Inappropriate]")])
        s1 in
    let s3 := setScenario (nextRhythm res) s2 in
    (* Quiz mode treatment scoring *)
    ret (match mode s with
         | quiz =>
             setScore (fun sc =>
               {| dxCorrect := dxCorrect sc; dxTotal := dxTotal sc;
                  txCorrect := (txCorrect sc + (if appropriate res then 1 else 0))%Z;
                  txTotal := (txTotal sc + 1)%Z |}) s3
         | practice => s3
         end).

Definition pool : list RhythmId :=
  [VF; PVT; SVT; AFIB_RVR; VT_PULSE; ASYSTOLE; PEA_NARROW].

(** [pool[Math.floor(Math.random() * pool.length)]]; [None] is
    [undefined]. *)
Definition pool_pick (u : Q) : option RhythmId :=
  let i := Math_floor (u * inject_Z (Z.of_nat (length pool))) in
  if (i <? 0)%Z then None else nth_error pool (Z.to_nat i).

(** [randomCase]; when the pick is [undefined] the state is left as it is
    (the source would then read [SCENARIOS[undefined]]). *)
Definition randomCase (s : State) : M State :=
  u <- Math_random ;;
  match pool_pick u with
  | None => ret s
  | Some pick =>
      let s1 := setScenario pick s in
      let s2 :=
        match mode s with
        | quiz =>
            setQuiz (mode s) None
              (setStatus
                 [Txt "New case loaded. Identify the rhythm, then treat appropriately."] s1)
        | practice => setStatus (loaded_status "Case loaded: " pick) s1
        end in
      ret (setCharge false false s2)
  end.

Definition submitDiagnosis (s : State) : State :=
  match diagChoice s with
  | None => s
  | Some choice =>
      let correct := RhythmId_eqb choice (scenario s) in
      setStatus
        (if correct
         then [Txt "Diagnosis correct. Choose appropriate energy and treat."]
         else [Txt "Diagnosis incorrect. It was: "; Txt (scenario_label (scenario s));
               Txt ". Consider appropriate management."])
        (setScore (fun sc =>
           {| dxCorrect := (dxCorrect sc + (if correct then 1 else 0))%Z;
              dxTotal := (dxTotal sc + 1)%Z;
              txCorrect := txCorrect sc; txTotal := txTotal sc |}) s)
  end.

(** The inline handlers of the control panel. *)
Definition togglePower (s : State) : State :=
  setDisplay (negb (powerOn s)) (padsOn s) (speed s) (gain s) (syncMode s) (energy s) s.
Definition togglePads (s : State) : State :=
  setDisplay (powerOn s) (negb (padsOn s)) (speed s) (gain s) (syncMode s) (energy s) s.
Definition chooseSpeed (sp : Speed) (s : State) : State :=
  setDisplay (powerOn s) (padsOn s) sp (gain s) (syncMode s) (energy s) s.
Definition chooseGain (gn : Gain) (s : State) : State :=
  setDisplay (powerOn s) (padsOn s) (speed s) gn (syncMode s) (energy s) s.
Definition chooseSync (b : bool) (s : State) : State :=
  setDisplay (powerOn s) (padsOn s) (speed s) (gain s) b (energy s) s.
Definition chooseEnergy (e : Q) (s : State) : State :=
  setDisplay (powerOn s) (padsOn s) (speed s) (gain s) (syncMode s) e s.

Definition chooseMode (m : Mode) (s : State) : State :=
  setStatus
    (match m with
     | practice => loaded_status "Loaded: " (scenario s)
     | quiz => [Txt "Quiz mode: Identify the rhythm and treat."]
     end)
    (setQuiz m (diagChoice s) s).

Definition loadRhythm (v : RhythmId) (s : State) : State :=
  setCharge false false (setStatus (loaded_status "Loaded: " v) (setScenario v s)).

Definition chooseDiagnosis (d : option RhythmId) (s : State) : State :=
  setQuiz (mode s) d s.

(** What can happen to a session. *)
Inductive Event : Type :=
| Charge
| ChargeTimer
| Shock (now : Q)
| RandomCase
| SubmitDiagnosis
| TogglePower
| TogglePads
| ChooseSpeed (sp : Speed)
| ChooseGain (gn : Gain)
| ChooseSync (b : bool)
| ChooseEnergy (e : Q)
| ChooseMode (m : Mode)
| LoadRhythm (v : RhythmId)
| ChooseDiagnosis (d : option RhythmId).

Definition step (ev : Event) (s : State) : M State :=
  match ev with
  | Charge => ret (onCharge s)
  | ChargeTimer => ret (chargeTimer s)
  | Shock now => onShock now s
  | RandomCase => randomCase s
  | SubmitDiagnosis => ret (submitDiagnosis s)
  | TogglePower => ret (togglePower s)
  | TogglePads => ret (togglePads s)
  | ChooseSpeed sp => ret (chooseSpeed sp s)
  | ChooseGain gn => ret (chooseGain gn s)
  | ChooseSync b => ret (chooseSync b s)
  | ChooseEnergy e => ret (chooseEnergy e s)
  | ChooseMode m => ret (chooseMode m s)
  | LoadRhythm v => ret (loadRhythm v s)
  | ChooseDiagnosis d => ret (chooseDiagnosis d s)
  end.

(** A session: the events in order, on one stream of draws. *)
Definition run (evs : list Event) (s : State) : M State := forM evs step s.

(** [onShock] goes through to [handleShock], and [onCharge] starts a
    timer, exactly in these states. *)
Definition shock_ready (s : State) : bool := powerOn s && padsOn s && charged s.
Definition charge_ready (s : State) : bool :=
  powerOn s && padsOn s && negb (charging s).

(** The number of shocks delivered, and of charges started, along a run. *)
Fixpoint shocks_delivered (evs : list Event) (s : State) (g : Rng) : nat :=
  match evs with
  | [] => O
  | ev :: rest =>
      ((match ev with Shock _ => if shock_ready s then 1 else 0 | _ => 0 end)
       + shocks_delivered rest (fst (step ev s g)) (snd (step ev s g)))%nat
  end.

Fixpoint charges_started (evs : list Event) (s : State) (g : Rng) : nat :=
  match evs with
  | [] => O
  | ev :: rest =>
      ((match ev with Charge => if charge_ready s then 1 else 0 | _ => 0 end)
       + charges_started rest (fst (step ev s g)) (snd (step ev s g)))%nat
  end.

(** A consistent score: correct answers between zero and the attempts. *)
Definition score_ok (sc : Score) : Prop :=
  (0 <= dxCorrect sc <= dxTotal sc)%Z /\ (0 <= txCorrect sc <= txTotal sc)%Z.

(** What a pending or completed charge is worth: one shock each. *)
Definition charge_credit (s : State) : nat :=
  ((if charged s then 1 else 0) + length (timers s))%nat.

(** The rhythms a session that started in [r0] can show as long as no case
    is loaded. *)
Definition reachable_from (r0 r : RhythmId) : Prop :=
  match r0 with
  | SINUS | ASYSTOLE | PEA_NARROW => r = r0
  | VF => r = VF \/ r = SINUS
  | _ => r = r0 \/ r = SINUS \/ r = VF
  end.

(** An event that loads a case. *)
Definition loads_case (ev : Event) : bool :=
  match ev with RandomCase | LoadRhythm _ => true | _ => false end.

End Handlers.

End Session.

(** ** The sync markers of [draw] *)

(** [const visEnd = (startIdx + visSamples) % buffer.length;] *)
Definition marker_visEnd (visStart vis len : Z) : Z := Z.rem (visStart + vis) len.

(** [let delta = idx - visStart; if (delta < 0) delta += buffer.length;] *)
Definition marker_delta (visStart len idx : Z) : Z :=
  let delta := (idx - visStart)%Z in
  if (delta <? 0)%Z then (delta + len)%Z else delta.

(** [const x = (delta / visSamples) * w;] *)
Definition marker_x (visStart vis len w idx : Z) : Q :=
  inject_Z (marker_delta visStart len idx) / inject_Z vis * inject_Z w.

(** The test a mark passes to be drawn: within [visStart, visEnd] when the
    window does not wrap, at or after [visStart] or at or before [visEnd]
    when it does. *)
Definition marker_drawn (visStart visEnd rp : Z) : bool :=
  if (visStart <? visEnd)%Z then (visStart <=? rp)%Z && (rp <=? visEnd)%Z
  else (visStart <=? rp)%Z || (rp <=? visEnd)%Z.

(** The horizontal positions of the markers of one frame. *)
Definition sync_markers (syncMode syncable : bool) (scroll : Q) (len : Z)
    (speed : Speed) (w : Z) (rPeaks : list Z) : list Q :=
  if syncMode && syncable then
    let visStart := startIdx scroll len in
    let visEnd := marker_visEnd visStart (visSamples speed) len in
    map (marker_x visStart (visSamples speed) len w)
      (filter (marker_drawn visStart visEnd) rPeaks)
  else [].

(** ** Statements about the synthesizers *)

(** The number of cycles of [generateVT] that start inside a buffer of
    [samples] samples: the least [k] with [k * cycleSamples >= samples]. *)
Definition vt_count (samples cycleSamples : Z) : Z :=
  ((samples + cycleSamples - 1) / cycleSamples)%Z.

(** The loop of [generateVT] again: after [k] passes the marks are those of
    the cycles [0 .. k-1], and the last of them started inside the buffer. *)
Definition vt_marks_inv (samples cycleSamples : Z) (st : VtState) : Prop :=
  (0 <= vt_k st)%Z /\
  vt_rPeaks st = map (vt_mark cycleSamples) (Zrange 0 (vt_k st - 1)) /\
  ((0 < vt_k st)%Z -> ((vt_k st - 1) * cycleSamples < samples)%Z).

(** A sample of the asystole trace. *)
Definition flat_sample (x : Q) : Prop := - 0.015 <= x /\ x < 0.015.

(** The time line of a beat loop after [n] beats, each of which lasts
    between [cmin] and [cmax] seconds: the clock lies between [n * cmin] and
    [n * cmax], and the last beat started inside the buffer. *)
Definition timeline_inv (samples : Z) (cmin cmax : Q) (n : nat) (t : Q) : Prop :=
  inject_Z (Z.of_nat n) * cmin <= t /\
  t <= inject_Z (Z.of_nat n) * cmax /\
  ((0 < n)%nat -> t * SAMPLE_RATE < inject_Z samples + cmax * SAMPLE_RATE).

(** A stream of draws in [0, 1], the upper end included.  [Math.random]
    stays below 1, but the binary64 sum of [randRange] can round up to the
    upper end of its range ([randRange(150, 185)] returns 185 on the largest
    draw), which is the exact result on the draw 1. *)
Definition closed_rng (g : Rng) : Prop := forall n, 0 <= g n /\ g n <= 1.

(** The range of the number of marks of a 180-second buffer, per rhythm,
    over the draws of [closed_rng]. *)
Definition beat_range (r : RhythmId) : Z * Z :=
  match r with
  | SINUS => (181, 242)
  | SVT => (466, 571)
  | AFIB_RVR => (250, 645)
  | VT_PULSE => (450, 556)
  | PVT => (512, 512)
  | PEA_NARROW => (146, 155)
  | VF | ASYSTOLE => (0, 0)
  end%Z.

(** ** A concrete platform

    Rational stand-ins for the platform functions, used where a statement is
    instantiated at concrete inputs. *)

Definition exp_series (y : Q) : Q := 1 + y + y * y / 2 + y * y * y / 6.

Definition approx_exp (x : Q) : Q :=
  if Qle_bool 0 x then exp_series x else / exp_series (- x).

Definition approx_sin (x : Q) : Q := x - x * x * x / 6.

Definition approx_sqrt (x : Q) : Q :=
  inject_Z (Z.sqrt (Qfloor (x * 1000000))) / 1000.

Lemma exp_series_pos (y : Q) : 0 <= y -> 0 < exp_series y.
Proof.
  intros Hy. unfold exp_series.
  assert (H2 : 0 <= y * y) by nra.
  assert (H3 : 0 <= y * y * y) by (apply Qmult_le_0_compat; assumption).
  unfold Qdiv.
  setoid_replace (/ 2) with 0.5 by reflexivity.
  setoid_replace (/ 6) with (1 # 6) by reflexivity.
  generalize dependent (y * y * y). generalize dependent (y * y).
  intros y2 H2 y3 H3. lra.
Qed.

Lemma approx_exp_pos (x : Q) : 0 < approx_exp x.
Proof.
  unfold approx_exp. destruct (Qle_bool 0 x) eqn:E.
  - apply Qle_bool_iff in E. now apply exp_series_pos.
  - apply Qinv_lt_0_compat. apply exp_series_pos.
    destruct (Qlt_le_dec x 0) as [Hx | Hx]; [lra | ].
    apply Qle_bool_iff in Hx. congruence.
Qed.

Definition approxMath : MathLib := {|
  Math_exp := approx_exp;
  Math_sin := approx_sin;
  Math_sqrt := approx_sqrt;
  Math_PI := 3.141592653589793;
  Math_exp_pos := approx_exp_pos
|}.

(** The stream whose every draw is 0.3. *)
Definition draws_03 : Rng := fun _ => 0.3.

(** * Properties *)

(** ** The model on concrete inputs *)

Example handleShock_vf_200 :
  fst (handleShock VF 200 false draws_03)
  = {| appropriate := true; converted := true;
       message := Msg.defib_ok 200; nextRhythm := SINUS |}.
Proof. vm_compute. reflexivity. Qed.

Example handleShock_svt_unsync_degrades :
  fst (handleShock SVT 200 false (fun _ => 0.05))
  = {| appropriate := false; converted := false;
       message := Msg.svt_vf; nextRhythm := VF |}.
Proof. vm_compute. reflexivity. Qed.

Example handleShock_vt_1000 :
  fst (handleShock VT_PULSE 1000 true (fun _ => 0.9))
  = {| appropriate := true; converted := false;
       message := Msg.vt_fail 360; nextRhythm := VT_PULSE |}.
Proof. vm_compute. reflexivity. Qed.

Example gauss_window_fractional_center :
  gauss_start 44.32 6 = 20%Z /\ gauss_end (Float32Array 100) 44.32 6 = 69%Z.
Proof. split; vm_compute; reflexivity. Qed.

Example gauss_window_outside_array :
  gauss_indices (Float32Array 10) (- 3) 1 = [0; 1]%Z /\
  gauss_indices (Float32Array 10) 12 1 = [8; 9]%Z /\
  gauss_indices (Float32Array 10) 40 2 = [].
Proof. repeat split; vm_compute; reflexivity. Qed.

Example vt_cycle_160 :
  vt_cycleSamples 160 = 187%Z /\ vt_mark 187 481 = 90007%Z.
Proof. split; vm_compute; reflexivity. Qed.

Example vt_cycle_170 :
  vt_cycleSamples 170 = 176%Z /\ vt_mark 176 511 = 89992%Z.
Proof. split; vm_compute; reflexivity. Qed.

Example scenario_rates_03 :
  fst (sinus_hr draws_03) = 66 /\ fst (svt_hr draws_03) = 175 /\
  fst (afib_meanHr draws_03) = 132 /\ fst (vt_pulse_hr draws_03) = 160.
Proof. repeat split; vm_compute; reflexivity. Qed.

Example advance_scroll_stalled :
  advance_scroll 89000 400.5 90000 == 19250 /\
  sample_index 89999 90000 Speed25 800 799 = 2995%Z.
Proof. split; vm_compute; reflexivity. Qed.

(** ** Arithmetic helpers *)

Lemma Qle_bool_false_lt (a b : Q) : Qle_bool a b = false -> b < a.
Proof.
  intros H. apply Qnot_le_lt. intros Hle.
  apply Qle_bool_iff in Hle. congruence.
Qed.

Lemma Qlt_bool_iff (a b : Q) : Qlt_bool a b = true <-> a < b.
Proof.
  unfold Qlt_bool. split.
  - intros H. apply negb_true_iff in H. now apply Qle_bool_false_lt.
  - intros H. apply negb_true_iff. destruct (Qle_bool b a) eqn:E; trivial.
    apply Qle_bool_iff in E. lra.
Qed.

Lemma Qlt_bool_false_iff (a b : Q) : Qlt_bool a b = false <-> b <= a.
Proof.
  unfold Qlt_bool. rewrite negb_false_iff. apply Qle_bool_iff.
Qed.

(** Comparisons between constants. *)
Ltac qconst := vm_compute; first [reflexivity | discriminate].

(** Turns every boolean comparison among the hypotheses into its
    proposition. *)
Ltac qprop :=
  repeat match goal with
  | H : Qle_bool _ _ = true |- _ => apply Qle_bool_iff in H
  | H : Qle_bool _ _ = false |- _ => apply Qle_bool_false_lt in H
  | H : Qlt_bool _ _ = true |- _ => apply Qlt_bool_iff in H
  | H : Qlt_bool _ _ = false |- _ => apply Qlt_bool_false_iff in H
  end.

Lemma Math_min_cases (a b : Q) :
  (a <= b /\ Math_min a b = a) \/ (b < a /\ Math_min a b = b).
Proof.
  unfold Math_min. destruct (Qle_bool a b) eqn:E; qprop; auto.
Qed.

Lemma Math_max_cases (a b : Q) :
  (a <= b /\ Math_max a b = b) \/ (b < a /\ Math_max a b = a).
Proof.
  unfold Math_max. destruct (Qle_bool a b) eqn:E; qprop; auto.
Qed.

(** Case analysis on every comparison made by [Math_max] and [Math_min]. *)
Ltac minmax_step a b lem :=
  let H := fresh "Hc" in
  let E := fresh "Ec" in
  destruct (lem a b) as [[H E] | [H E]]; rewrite E in *; clear E.

Ltac minmax :=
  unfold clamp in *;
  repeat match goal with
  | |- context [Math_min ?a ?b] => minmax_step a b Math_min_cases
  | |- context [Math_max ?a ?b] => minmax_step a b Math_max_cases
  | _ : context [Math_min ?a ?b] |- _ => minmax_step a b Math_min_cases
  | _ : context [Math_max ?a ?b] |- _ => minmax_step a b Math_max_cases
  end.

Lemma clamp_bounds (v lo hi : Q) : lo <= hi -> lo <= clamp v lo hi /\ clamp v lo hi <= hi.
Proof. intros H. minmax; lra. Qed.

Lemma clamp_idem (v lo hi : Q) : lo < hi -> clamp (clamp v lo hi) lo hi = clamp v lo hi.
Proof. intros H. minmax; try reflexivity; lra. Qed.

(** ** Therapy outcome model *)

(** C2. On VF and on PVT, whatever the energy and the sync flag, the shock is
    appropriate; with [E] the clamped energy and
    [p = clamp((E - 80)/160, 0.15, 0.88)], which lies in [0.15, 0.88], the
    rhythm converts exactly when the uniform draw falls below [p] (an event
    of probability [p]); the next rhythm is SINUS on conversion and the
    input rhythm otherwise. *)
Theorem handleShock_defib (r : RhythmId) (energyJ : Q) (syncMode : bool) (g : Rng) :
  r = VF \/ r = PVT ->
  let res := fst (handleShock r energyJ syncMode g) in
  let p := clamp ((clampEnergy energyJ - 80) / 160) 0.15 0.88 in
  appropriate res = true /\
  (0.15 <= p /\ p <= 0.88) /\
  (converted res = true <-> g O < p) /\
  nextRhythm res = (if converted res then SINUS else r).
Proof.
  intros Hr res p.
  assert (Hp : 0.15 <= p /\ p <= 0.88) by (apply clamp_bounds; lra).
  destruct Hr as [-> | ->]; subst res; cbn;
    (split; [apply orb_true_r | split; [exact Hp | split; [apply Qlt_bool_iff | reflexivity]]]).
Qed.

Lemma handleShock_defib_witness :
  let res := fst (handleShock VF 200 false (fun _ => 0.5)) in
  let p := clamp ((clampEnergy 200 - 80) / 160) 0.15 0.88 in
  appropriate res = true /\
  (0.15 <= p /\ p <= 0.88) /\
  (converted res = true <-> 0.5 < p) /\
  nextRhythm res = (if converted res then SINUS else VF).
Proof. apply (handleShock_defib VF 200 false (fun _ => 0.5)). left. reflexivity. Defined.

(** C3. On SINUS, ASYSTOLE and PEA_NARROW, whatever the energy and the sync
    flag, the shock is not appropriate, nothing converts and the rhythm is
    unchanged; no draw is consumed. *)
Theorem handleShock_not_shockable (r : RhythmId) (energyJ : Q) (syncMode : bool) (g : Rng) :
  r = SINUS \/ r = ASYSTOLE \/ r = PEA_NARROW ->
  let res := fst (handleShock r energyJ syncMode g) in
  appropriate res = false /\ converted res = false /\ nextRhythm res = r /\
  snd (handleShock r energyJ syncMode g) = g.
Proof.
  intros [-> | [-> | ->]]; cbn; auto.
Qed.

Lemma handleShock_not_shockable_witness :
  let res := fst (handleShock ASYSTOLE 360 true draws_03) in
  appropriate res = false /\ converted res = false /\ nextRhythm res = ASYSTOLE /\
  snd (handleShock ASYSTOLE 360 true draws_03) = draws_03.
Proof.
  apply (handleShock_not_shockable ASYSTOLE 360 true draws_03).
  right. left. reflexivity.
Defined.

(** C4. For every rhythm, sync flag, energy and stream of draws, delivering
    the energy and delivering the energy clamped to [0,360] give the same
    result (all four fields) and leave the same draws; in particular 1000 J
    on VF behaves as 360 J on VF. *)
Theorem handleShock_energy_clamped :
  (forall (r : RhythmId) (energyJ : Q) (syncMode : bool) (g : Rng),
     handleShock r energyJ syncMode g = handleShock r (clampEnergy energyJ) syncMode g) /\
  (forall g : Rng, handleShock VF 1000 false g = handleShock VF 360 false g).
Proof.
  assert (H : forall r energyJ syncMode g,
             handleShock r energyJ syncMode g
             = handleShock r (clampEnergy energyJ) syncMode g).
  { intros r energyJ syncMode g. unfold handleShock, clampEnergy.
    change (Math_max 0 (Math_min 360 (clamp energyJ 0 360)))
      with (clamp (clamp energyJ 0 360) 0 360).
    rewrite clamp_idem by lra. reflexivity. }
  split; [exact H | ].
  intros g. rewrite (H VF 1000). reflexivity.
Qed.

(** C5. On SVT without synchronization, whatever the energy, the shock is
    not appropriate, nothing converts, and the next rhythm is VF exactly
    when the uniform draw falls below 0.08 (an event of probability 0.08)
    and SVT otherwise. *)
Theorem handleShock_svt_unsync (energyJ : Q) (g : Rng) :
  let res := fst (handleShock SVT energyJ false g) in
  appropriate res = false /\
  converted res = false /\
  nextRhythm res = (if Qlt_bool (g O) 0.08 then VF else SVT) /\
  (nextRhythm res = VF <-> g O < 0.08).
Proof.
  cbn. destruct (Qlt_bool (g O) 0.08) eqn:E; cbn; repeat split; trivial.
  - intros _. now apply Qlt_bool_iff.
  - discriminate.
  - intros H. apply Qlt_bool_iff in H. congruence.
Qed.

(** C10. For every rhythm, energy, sync flag and stream of draws: a
    converted result is appropriate and leads to SINUS, and the next rhythm
    is the input rhythm, SINUS or VF. *)
Theorem handleShock_result_invariant (r : RhythmId) (energyJ : Q) (syncMode : bool) (g : Rng) :
  let res := fst (handleShock r energyJ syncMode g) in
  (converted res = true -> appropriate res = true /\ nextRhythm res = SINUS) /\
  (nextRhythm res = r \/ nextRhythm res = SINUS \/ nextRhythm res = VF).
Proof.
  unfold handleShock.
  destruct r, syncMode; cbn;
    repeat match goal with
    | |- context [Qlt_bool ?a ?b] => destruct (Qlt_bool a b); cbn
    end;
    split; auto; discriminate.
Qed.

Lemma handleShock_result_invariant_witness :
  let res := fst (handleShock SVT 100 true (fun _ => 0)) in
  converted res = true /\
  (converted res = true -> appropriate res = true /\ nextRhythm res = SINUS) /\
  (nextRhythm res = SVT \/ nextRhythm res = SINUS \/ nextRhythm res = VF).
Proof.
  split; [reflexivity | apply (handleShock_result_invariant SVT 100 true (fun _ => 0))].
Defined.

(** ** Index ranges and arrays *)

Lemma In_Zrange (lo hi x : Z) : In x (Zrange lo hi) <-> (lo <= x <= hi)%Z.
Proof.
  unfold Zrange. rewrite in_map_iff. split.
  - intros [k [<- Hk]]. apply in_seq in Hk. lia.
  - intros H. exists (Z.to_nat (x - lo)). split; [lia | apply in_seq; lia].
Qed.

Lemma NoDup_Zrange (lo hi : Z) : NoDup (Zrange lo hi).
Proof.
  unfold Zrange. apply Injective_map_NoDup; [ | apply seq_NoDup].
  intros a b H. lia.
Qed.

Lemma list_upd_length (f : Q -> Q) (n : nat) (l : list Q) :
  length (list_upd f n l) = length l.
Proof.
  revert n. induction l as [ | x l IH]; intros [ | n]; simpl; auto.
Qed.

Lemma list_upd_nth (f : Q -> Q) (n m : nat) (l : list Q) :
  (m < length l)%nat ->
  nth m (list_upd f n l) 0 = if Nat.eqb m n then f (nth m l 0) else nth m l 0.
Proof.
  revert n m. induction l as [ | x l IH]; intros n m Hm; simpl in Hm; [lia | ].
  destruct n as [ | n], m as [ | m]; simpl; trivial.
  apply IH. lia.
Qed.

Lemma arr_upd_length (f : Q -> Q) (arr : list Q) (i : Z) :
  length (arr_upd f arr i) = length arr.
Proof.
  unfold arr_upd. destruct (i <? 0)%Z; [reflexivity | apply list_upd_length].
Qed.

Lemma arr_add_length (arr : list Q) (i : Z) (v : Q) :
  length (arr_add arr i v) = length arr.
Proof. apply arr_upd_length. Qed.

Lemma arr_set_length (arr : list Q) (i : Z) (v : Q) :
  length (arr_set arr i v) = length arr.
Proof. apply arr_upd_length. Qed.

Lemma arr_add_get (arr : list Q) (i j : Z) (v : Q) :
  (0 <= i < arr_length arr)%Z ->
  arr_get (arr_add arr j v) i
  = if (i =? j)%Z then arr_get arr i + v else arr_get arr i.
Proof.
  unfold arr_length, arr_get, arr_add, arr_upd. intros Hi.
  destruct (i <? 0)%Z eqn:Ei; [lia | ].
  destruct (j <? 0)%Z eqn:Ej.
  - destruct (i =? j)%Z eqn:E; [lia | reflexivity].
  - rewrite list_upd_nth by lia.
    destruct (i =? j)%Z eqn:E.
    + replace (Nat.eqb (Z.to_nat i) (Z.to_nat j)) with true; trivial.
      symmetry. apply Nat.eqb_eq. lia.
    + replace (Nat.eqb (Z.to_nat i) (Z.to_nat j)) with false; trivial.
      symmetry. apply Nat.eqb_neq. lia.
Qed.

Section FoldAdd.
Variable term : Z -> Q.

Let step (a : list Q) (j : Z) : list Q := arr_add a j (term j).

Lemma fold_add_length (l : list Z) (arr : list Q) :
  length (fold_left step l arr) = length arr.
Proof.
  revert arr. induction l as [ | j l IH]; intros arr; simpl; trivial.
  rewrite IH. apply arr_add_length.
Qed.

Lemma fold_add_get_out (l : list Z) (arr : list Q) (i : Z) :
  (0 <= i < arr_length arr)%Z -> ~ In i l ->
  arr_get (fold_left step l arr) i = arr_get arr i.
Proof.
  revert arr. induction l as [ | j l IH]; intros arr Hi Hn; simpl; trivial.
  rewrite IH.
  - unfold step. rewrite arr_add_get by assumption.
    destruct (i =? j)%Z eqn:E; trivial.
    exfalso. apply Hn. left. lia.
  - unfold step, arr_length. rewrite arr_add_length. exact Hi.
  - intros H. apply Hn. now right.
Qed.

Lemma fold_add_get_in (l : list Z) (arr : list Q) (i : Z) :
  (0 <= i < arr_length arr)%Z -> NoDup l -> In i l ->
  arr_get (fold_left step l arr) i = arr_get arr i + term i.
Proof.
  revert arr. induction l as [ | j l IH]; intros arr Hi Hd Hin; simpl.
  - destruct Hin.
  - inversion Hd as [ | ? ? Hnj Hd']; subst.
    assert (Hi' : (0 <= i < arr_length (step arr j))%Z).
    { unfold step, arr_length. rewrite arr_add_length. exact Hi. }
    destruct Hin as [-> | Hin].
    + rewrite fold_add_get_out by assumption.
      unfold step. rewrite arr_add_get by assumption.
      now rewrite Z.eqb_refl.
    + rewrite IH by assumption.
      unfold step. rewrite arr_add_get by assumption.
      destruct (i =? j)%Z eqn:E; trivial.
      exfalso. apply Hnj. replace j with i by lia. exact Hin.
Qed.
End FoldAdd.

(** ** Playback clock *)

Lemma js_rem_bounds (x y : Q) : 0 <= x -> 0 < y -> 0 <= js_rem x y /\ js_rem x y < y.
Proof.
  intros Hx Hy. unfold js_rem, Qtrunc.
  assert (Hz : 0 <= x / y).
  { apply Qle_shift_div_l; lra. }
  destruct (Qle_bool 0 (x / y)) eqn:E; [ | qprop; lra].
  pose proof (Qfloor_le (x / y)) as H1.
  pose proof (Qlt_floor (x / y)) as H2.
  assert (Hxy : x == (x / y) * y) by (field; lra).
  set (z := x / y) in *. set (q := Qfloor z) in *.
  rewrite inject_Z_plus in H2.
  change (inject_Z 1) with 1 in H2.
  split; nra.
Qed.

Lemma Qfloor_nonneg (x : Q) : 0 <= x -> (0 <= Qfloor x)%Z.
Proof. intros H. apply (Qfloor_resp_le 0 x) in H. exact H. Qed.

Lemma Qfloor_lt_Z (x : Q) (n : Z) : x < inject_Z n -> (Qfloor x < n)%Z.
Proof.
  intros H. pose proof (Qfloor_le x) as H1.
  apply Z.lt_nge. intros Hn. rewrite Zle_Qle in Hn. lra.
Qed.

Lemma visSamples_nonneg (speed : Speed) : (0 <= visSamples speed)%Z.
Proof. destruct speed; vm_compute; discriminate. Qed.

Lemma sample_index_bounds (scroll : Q) (len : Z) (speed : Speed) (w px : Z) :
  (0 < len)%Z -> 0 <= scroll -> (0 <= px < w)%Z ->
  (0 <= sample_index scroll len speed w px < len)%Z.
Proof.
  intros Hlen Hs Hpx. unfold sample_index, startIdx.
  assert (H0 : (0 <= Math_floor scroll)%Z) by now apply Qfloor_nonneg.
  assert (H1 : (0 <= Z.rem (Math_floor scroll) len)%Z) by (apply Z.rem_nonneg; lia).
  assert (H2 : (0 <= Math_floor (inject_Z px / inject_Z w * inject_Z (visSamples speed)))%Z).
  { apply Qfloor_nonneg. apply Qmult_le_0_compat.
    - apply Qle_shift_div_l.
      + change 0 with (inject_Z 0). rewrite <- Zlt_Qlt. lia.
      + rewrite Qmult_0_l. change 0 with (inject_Z 0). rewrite <- Zle_Qle. lia.
    - change 0 with (inject_Z 0). rewrite <- Zle_Qle. apply visSamples_nonneg. }
  apply Z.rem_bound_pos; lia.
Qed.

(** C9. For a non-empty buffer, a playback position in [0, buffer.length)
    and a non-negative elapsed time [dt] of any size, the advanced position
    [(position + dt * SAMPLE_RATE) % buffer.length] is again in
    [0, buffer.length), and so are the start index and every index
    [(startIdx + sampleOffset) % buffer.length] the window loop reads. *)
Theorem playback_stays_in_bounds (len : Z) (scroll dt : Q) (speed : Speed) (w : Z) :
  (0 < len)%Z -> 0 <= scroll -> scroll < inject_Z len -> 0 <= dt ->
  let scroll' := advance_scroll scroll dt len in
  (0 <= scroll' /\ scroll' < inject_Z len) /\
  (0 <= startIdx scroll' len < len)%Z /\
  Forall (fun idx => (0 <= idx < len)%Z) (window_indices scroll' len speed w).
Proof.
  intros Hlen Hs0 Hs1 Hdt scroll'.
  assert (Hb : 0 <= scroll' /\ scroll' < inject_Z len).
  { apply js_rem_bounds.
    - unfold SAMPLE_RATE. nra.
    - change 0 with (inject_Z 0). rewrite <- Zlt_Qlt. exact Hlen. }
  split; [exact Hb | split].
  - unfold startIdx. apply Z.rem_bound_pos; [ | lia].
    apply Qfloor_nonneg. apply Hb.
  - unfold window_indices. apply Forall_forall. intros idx Hin.
    apply in_map_iff in Hin. destruct Hin as [px [<- Hpx]].
    apply In_Zrange in Hpx.
    apply sample_index_bounds; [assumption | apply Hb | lia].
Qed.

Lemma playback_stays_in_bounds_witness :
  let scroll' := advance_scroll 89000 400.5 90000 in
  (0 <= scroll' /\ scroll' < inject_Z 90000) /\
  (0 <= startIdx scroll' 90000 < 90000)%Z /\
  Forall (fun idx => (0 <= idx < 90000)%Z) (window_indices scroll' 90000 Speed25 800).
Proof.
  apply (playback_stays_in_bounds 90000 89000 400.5 Speed25 800); [lia | lra | | lra].
  vm_compute. reflexivity.
Defined.

(** ** Gaussian adder *)

Section GaussianProps.
Context {ML : MathLib}.

Lemma addGaussian_length (arr : list Q) (c a s : Q) :
  length (addGaussian arr c a s) = length arr.
Proof. unfold addGaussian. apply fold_add_length. Qed.

Lemma gauss_indices_spec (arr : list Q) (c s : Q) (i : Z) :
  (0 <= i < arr_length arr)%Z ->
  (In i (gauss_indices arr c s) <-> in_gauss_window c s i = true).
Proof.
  intros Hi. unfold gauss_indices, gauss_start, gauss_end, in_gauss_window.
  rewrite In_Zrange, andb_true_iff, !Z.leb_le. lia.
Qed.

Lemma gauss_indices_in_bounds (arr : list Q) (c s : Q) :
  Forall (fun j => (0 <= j < arr_length arr)%Z) (gauss_indices arr c s).
Proof.
  apply Forall_forall. intros j Hj. unfold gauss_indices in Hj.
  apply In_Zrange in Hj. unfold gauss_start, gauss_end in Hj. lia.
Qed.

Lemma addGaussian_get (arr : list Q) (c a s : Q) (i : Z) :
  (0 <= i < arr_length arr)%Z ->
  arr_get (addGaussian arr c a s) i
  = if in_gauss_window c s i then arr_get arr i + gauss_term c a s i
    else arr_get arr i.
Proof.
  intros Hi. unfold addGaussian.
  destruct (in_gauss_window c s i) eqn:E.
  - apply (fold_add_get_in (gauss_term c a s)); trivial.
    + apply NoDup_Zrange.
    + now apply gauss_indices_spec.
  - apply (fold_add_get_out (gauss_term c a s)); trivial.
    intros Hin. apply gauss_indices_spec in Hin; congruence.
Qed.

Lemma within_4sigma_in_window (c s : Q) (i : Z) :
  Qabs (inject_Z i - c) <= 4 * s -> in_gauss_window c s i = true.
Proof.
  intros H. apply Qabs_Qle_condition in H. destruct H as [H1 H2].
  unfold in_gauss_window, Math_floor, Math_ceil.
  apply andb_true_iff. rewrite !Z.leb_le. split.
  - pose proof (Qfloor_le (c - 4 * s)) as Hf.
    apply Z.lt_succ_r. apply Qfloor_lt_Z.
    unfold Z.succ. rewrite inject_Z_plus. change (inject_Z 1) with 1. lra.
  - pose proof (Qle_ceiling (c + 4 * s)) as Hc.
    rewrite <- (Qceiling_Z i). apply Qceiling_resp_le. lra.
Qed.

(** C8, as the code has it.  [addGaussian] keeps the array's length and adds
    exactly [amplitude * exp(-0.5 * ((i - center)/sigma)^2)] to every valid
    index [i] with [floor(center - 4 sigma) <= i <= ceil(center + 4 sigma)];
    every valid index within 4 sigma of the center is one of them; every
    other sample is unchanged; and every index the loop touches is a valid
    index of the array, wherever the center lies. *)
Theorem addGaussian_window (arr : list Q) (c a s : Q) (i : Z) :
  (0 <= i < arr_length arr)%Z ->
  length (addGaussian arr c a s) = length arr /\
  Forall (fun j => (0 <= j < arr_length arr)%Z) (gauss_indices arr c s) /\
  (Qabs (inject_Z i - c) <= 4 * s -> in_gauss_window c s i = true) /\
  arr_get (addGaussian arr c a s) i
  = (if in_gauss_window c s i
     then arr_get arr i
          + a * Math_exp (- 0.5 * ((inject_Z i - c) / s) * ((inject_Z i - c) / s))
     else arr_get arr i).
Proof.
  intros Hi.
  split; [apply addGaussian_length | split; [apply gauss_indices_in_bounds | ]].
  split; [apply within_4sigma_in_window | now apply addGaussian_get].
Qed.

End GaussianProps.

(** C8 as stated fails: in a 100-sample array of zeros, with the center at
    44.32 and sigma = 6 (the first Q pulse of a 170 bpm ventricular
    tachycardia), sample 20 lies 24.32 > 4 sigma = 24 away from the center
    and yet is changed, on every platform. *)
Lemma addGaussian_window_counterexample :
  (0 <= 20 < arr_length (Float32Array 100))%Z /\
  4 * 6 < Qabs (inject_Z 20 - 44.32) /\
  forall ML : MathLib,
    arr_get (@addGaussian ML (Float32Array 100) 44.32 (- 0.18) 6) 20
    < arr_get (Float32Array 100) 20.
Proof.
  split; [vm_compute; split; [discriminate | reflexivity] | ].
  split; [vm_compute; reflexivity | ].
  intros ML. rewrite addGaussian_get by (vm_compute; split; [discriminate | reflexivity]).
  replace (in_gauss_window 44.32 6 20) with true by (vm_compute; reflexivity).
  unfold gauss_term.
  change (arr_get (Float32Array 100) 20) with 0.
  pose proof (Math_exp_pos
    (- 0.5 * ((inject_Z 20 - 44.32) / 6) * ((inject_Z 20 - 44.32) / 6))) as Hp.
  cbv zeta. lra.
Qed.

Lemma addGaussian_window_witness :
  let arr := Float32Array 100 in
  length (@addGaussian approxMath arr 44.32 (- 0.18) 6) = length arr /\
  Forall (fun j => (0 <= j < arr_length arr)%Z) (gauss_indices arr 44.32 6) /\
  (Qabs (inject_Z 20 - 44.32) <= 4 * 6 -> in_gauss_window 44.32 6 20 = true) /\
  arr_get (@addGaussian approxMath arr 44.32 (- 0.18) 6) 20
  = (if in_gauss_window 44.32 6 20
     then arr_get arr 20
          + - 0.18 * @Math_exp approxMath
                       (- 0.5 * ((inject_Z 20 - 44.32) / 6) * ((inject_Z 20 - 44.32) / 6))
     else arr_get arr 20).
Proof.
  apply (@addGaussian_window approxMath (Float32Array 100) 44.32 (- 0.18) 6 20).
  vm_compute. split; [discriminate | reflexivity].
Defined.

(** ** Loops on fuel *)

Section WhileLoop.
Context {S : Type} (cond : S -> bool) (body : S -> M S).

Lemma while_loop_unfold (fuel : nat) (s : S) (g : Rng) :
  while_loop (Datatypes.S fuel) cond body s g
  = if cond s then while_loop fuel cond body (fst (body s g)) (snd (body s g))
    else (Some s, g).
Proof.
  simpl. destruct (cond s); [ | reflexivity].
  unfold bind. destruct (body s g). reflexivity.
Qed.

Lemma while_loop_more_fuel (fuel fuel' : nat) (s r : S) (g g' : Rng) :
  while_loop fuel cond body s g = (Some r, g') ->
  (fuel <= fuel')%nat ->
  while_loop fuel' cond body s g = (Some r, g').
Proof.
  revert fuel' s g. induction fuel as [ | fuel IH]; intros fuel' s g H Hle.
  - simpl in H. destruct (cond s) eqn:E; [discriminate | ].
    destruct fuel'; simpl; rewrite E; exact H.
  - destruct fuel' as [ | fuel']; [lia | ].
    rewrite while_loop_unfold in *.
    destruct (cond s); [ | exact H].
    apply IH; [exact H | lia].
Qed.

Variable Inv : S -> Prop.
Variable measure : S -> Z.
Hypothesis body_inv :
  forall s g, Inv s -> cond s = true -> Inv (fst (body s g)).
Hypothesis body_dec :
  forall s g, Inv s -> cond s = true -> (measure (fst (body s g)) < measure s)%Z.
Hypothesis measure_pos :
  forall s, Inv s -> cond s = true -> (0 < measure s)%Z.

(** A loop whose body keeps [Inv] and decreases [measure] ends within
    [measure] passes, in a state where [Inv] holds and the condition fails. *)
Lemma while_loop_total (fuel : nat) (s : S) (g : Rng) :
  Inv s -> (measure s <= Z.of_nat fuel)%Z ->
  exists s' g',
    while_loop fuel cond body s g = (Some s', g') /\ Inv s' /\ cond s' = false.
Proof.
  revert s g. induction fuel as [ | fuel IH]; intros s g Hi Hm.
  - destruct (cond s) eqn:E.
    + specialize (measure_pos s Hi E). lia.
    + exists s, g. simpl. rewrite E. auto.
  - rewrite while_loop_unfold. destruct (cond s) eqn:E.
    + apply IH; [now apply body_inv | ].
      specialize (body_dec s g Hi E). lia.
    + exists s, g. auto.
Qed.

(** With enough fuel the result does not depend on the fuel. *)
Lemma while_loop_fuel_indep (fuel fuel' : nat) (s : S) (g : Rng) :
  Inv s -> (measure s <= Z.of_nat fuel)%Z -> (measure s <= Z.of_nat fuel')%Z ->
  while_loop fuel cond body s g = while_loop fuel' cond body s g.
Proof.
  intros Hi H1 H2.
  destruct (while_loop_total fuel s g Hi H1) as (r1 & g1 & E1 & _).
  destruct (while_loop_total fuel' s g Hi H2) as (r2 & g2 & E2 & _).
  rewrite E1, E2.
  pose proof (while_loop_more_fuel fuel (Nat.max fuel fuel') s r1 g g1 E1
                (Nat.le_max_l _ _)) as A.
  pose proof (while_loop_more_fuel fuel' (Nat.max fuel fuel') s r2 g g2 E2
                (Nat.le_max_r _ _)) as B.
  congruence.
Qed.
End WhileLoop.

Lemma forM_inv {A S : Type} (P : S -> Prop) (body : A -> S -> M S) :
  (forall x s g, P s -> P (fst (body x s g))) ->
  forall l s g, P s -> P (fst (forM l body s g)).
Proof.
  intros Hb l. induction l as [ | x l IH]; intros s g Hs; simpl; trivial.
  unfold bind. specialize (Hb x s g Hs).
  destruct (body x s g) as [s' g']. now apply IH.
Qed.

(** ** Marks *)

Lemma Qfloor_ge_Z (x : Q) (n : Z) : inject_Z n <= x -> (n <= Qfloor x)%Z.
Proof. intros H. rewrite <- (Qfloor_Z n). now apply Qfloor_resp_le. Qed.

Lemma StronglySorted_snoc (l : list Z) (x : Z) :
  StronglySorted Z.lt l -> Forall (fun y => (y < x)%Z) l ->
  StronglySorted Z.lt (l ++ [x]).
Proof.
  induction 1 as [ | y l Hs IH Hy]; intros Hx; simpl.
  - repeat constructor.
  - inversion Hx; subst. constructor; [now apply IH | ].
    apply Forall_app. split; [exact Hy | repeat constructor; assumption].
Qed.

Lemma marks_inv_nil (samples : Z) : marks_inv samples 0 [].
Proof. repeat split; try constructor; lia. Qed.

Lemma marks_inv_snoc (samples base next x : Z) (l : list Z) :
  marks_inv samples base l ->
  (base < samples)%Z -> (base <= x < next)%Z ->
  marks_inv samples next (l ++ [x]).
Proof.
  intros (H0 & Hs & Hb & Hl) Hbase Hx. repeat split.
  - lia.
  - apply StronglySorted_snoc; [exact Hs | ].
    eapply Forall_impl; [ | exact Hb]. simpl. intros; lia.
  - apply Forall_app. split.
    + eapply Forall_impl; [ | exact Hb]. simpl. intros; lia.
    + repeat constructor; lia.
  - rewrite removelast_last.
    eapply Forall_impl; [ | exact Hb]. simpl. intros; lia.
Qed.

Lemma marks_inv_ok (samples next : Z) (l : list Z) :
  marks_inv samples next l -> marks_ok samples l.
Proof.
  intros (H0 & Hs & Hb & Hl). repeat split; trivial.
  - eapply Forall_impl; [ | exact Hb]. simpl. intros; lia.
  - apply Forall_forall. intros x Hx. split.
    + rewrite Forall_forall in Hb. 
      assert (In x l) as Hin.
      { destruct l as [ | y l']; [destruct Hx | ].
        rewrite (app_removelast_last 0%Z (l := y :: l')) by discriminate.
        apply in_or_app. now left. }
      apply Hb in Hin. lia.
    + rewrite Forall_forall in Hl. now apply Hl.
Qed.

Section RegularProps.
Context {ML : MathLib}.

Lemma ms_to_samples_bounds (x lo hi : Q) :
  lo <= x -> x <= hi ->
  (Qfloor (lo * 0.5) <= Math_floor (x / 1000 * SAMPLE_RATE) <= Qfloor (hi * 0.5))%Z.
Proof.
  intros H1 H2. unfold Math_floor.
  assert (E : x / 1000 * SAMPLE_RATE == x * 0.5) by (unfold SAMPLE_RATE; field).
  split; apply Qfloor_resp_le; rewrite E; lra.
Qed.

Lemma cycle_lower (b : Q) : 45 <= b -> b <= 190 -> (6 # 19) <= 60 / b.
Proof.
  intros H1 H2. apply Qle_shift_div_l; lra.
Qed.

Lemma floor_advance (t d : Q) (n : Z) :
  inject_Z n <= d * SAMPLE_RATE ->
  (Math_floor (t * SAMPLE_RATE) + n <= Math_floor ((t + d) * SAMPLE_RATE))%Z.
Proof.
  intros H. unfold Math_floor. apply Qfloor_ge_Z.
  rewrite inject_Z_plus. pose proof (Qfloor_le (t * SAMPLE_RATE)). 
  unfold SAMPLE_RATE in *. lra.
Qed.

Lemma regular_beat_spec (baseHr qrsWidthMs : Q) (showP showT : bool)
    (baseAmp prMin prMax : Q) (st : RegState) (g : Rng) :
  let st' := fst (regular_beat baseHr qrsWidthMs showP showT baseAmp prMin prMax st g) in
  exists (beatHr : Q) (prS : Z),
    45 <= beatHr /\ beatHr <= 190 /\ (40 <= prS <= 130)%Z /\
    reg_tSec st' = reg_tSec st + 60 / beatHr /\
    reg_rPeaks st' = reg_rPeaks st ++ [(Math_floor (reg_tSec st * SAMPLE_RATE) + prS)%Z] /\
    length (reg_arr st') = length (reg_arr st).
Proof.
  cbv [regular_beat bind ret jitter randRange Math_random].
  cbn [fst snd reg_tSec reg_rPeaks reg_arr].
  eexists _, _. repeat apply conj.
  5: reflexivity.
  5: reflexivity.
  - apply clamp_bounds; lra.
  - apply clamp_bounds; lra.
  - apply (ms_to_samples_bounds _ 80 260); apply clamp_bounds; lra.
  - apply (ms_to_samples_bounds _ 80 260); apply clamp_bounds; lra.
  - destruct showP, showT; now rewrite ?addGaussian_length.
Qed.

Section RegularLoop.
Variables (samples : Z) (n : nat).
Variables (baseHr qrsWidthMs : Q) (showP showT : bool) (baseAmp prMin prMax : Q).

Lemma regular_cond_true (st : RegState) :
  regular_cond samples st = true ->
  (Math_floor (reg_tSec st * SAMPLE_RATE) < samples)%Z.
Proof.
  unfold regular_cond. intros H. qprop. now apply Qfloor_lt_Z.
Qed.

Lemma regular_beat_step (st : RegState) (g : Rng) :
  reg_inv samples n st -> regular_cond samples st = true ->
  let st' := fst (regular_beat baseHr qrsWidthMs showP showT baseAmp prMin prMax st g) in
  reg_inv samples n st' /\ (reg_measure samples st' < reg_measure samples st)%Z.
Proof.
  intros (Ht & Hm & Hl & Hn) Hc st'.
  apply regular_cond_true in Hc.
  destruct (regular_beat_spec baseHr qrsWidthMs showP showT baseAmp prMin prMax st g)
    as (b & prS & Hb1 & Hb2 & HprS & Et & Ep & El).
  fold st' in Et, Ep, El.
  pose proof (cycle_lower b Hb1 Hb2) as Hcy.
  assert (Hadv : (Math_floor (reg_tSec st * SAMPLE_RATE) + 157
                  <= Math_floor (reg_tSec st' * SAMPLE_RATE))%Z).
  { rewrite Et. apply floor_advance.
    generalize dependent (60 / b). intros d _ Hd. unfold SAMPLE_RATE.
    change (inject_Z 157) with 157. lra. }
  unfold reg_inv, reg_measure.
  split; [split; [ | split; [ | split]] | ].
  - rewrite Et. generalize dependent (60 / b). intros; lra.
  - rewrite Ep.
    apply (marks_inv_snoc samples (Math_floor (reg_tSec st * SAMPLE_RATE))); trivial.
    lia.
  - congruence.
  - rewrite Ep. intros H. symmetry in H. now apply app_cons_not_nil in H.
  - lia.
Qed.

Lemma regular_loop_total (fuel : nat) (st : RegState) (g : Rng) :
  reg_inv samples n st -> (reg_measure samples st <= Z.of_nat fuel)%Z ->
  exists st' g',
    regular_loop fuel samples baseHr qrsWidthMs showP showT baseAmp prMin prMax st g
    = (Some st', g') /\
    reg_inv samples n st' /\ regular_cond samples st' = false.
Proof.
  unfold regular_loop.
  apply (while_loop_total _ _ (reg_inv samples n) (reg_measure samples)).
  - intros s g0 Hi Hc. now apply regular_beat_step.
  - intros s g0 Hi Hc. now apply regular_beat_step.
  - intros s Hi Hc. apply regular_cond_true in Hc. unfold reg_measure. lia.
Qed.
End RegularLoop.

Lemma Float32Array_length (samples : Z) :
  length (Float32Array samples) = Z.to_nat samples.
Proof. apply repeat_length. Qed.

Lemma regular_noise_length (i : Z) (s : Q * list Q) (g : Rng) :
  length (snd (fst (regular_noise i s g))) = length (snd s).
Proof.
  destruct s as [drift arr].
  cbv [regular_noise bind ret jitter randRange Math_random].
  destruct (Z.rem i 800 =? 0)%Z; cbn [fst snd]; apply arr_add_length.
Qed.

Lemma generateRegularECG_ok (fuel : nat) (seconds hr qrsWidthMs : Q)
    (opts : Opts) (g : Rng) :
  (Math_floor (seconds * SAMPLE_RATE) <= Z.of_nat fuel)%Z ->
  generated_ok (Math_floor (seconds * SAMPLE_RATE))
    (generateRegularECG fuel seconds hr qrsWidthMs opts g).
Proof.
  intros Hf. unfold generateRegularECG. cbv zeta.
  set (samples := Math_floor (seconds * SAMPLE_RATE)) in *.
  unfold bind at 1.
  match goal with
  | |- context [regular_loop fuel samples ?a ?b ?c ?d ?e ?f ?h ?st g] =>
      destruct (regular_loop_total samples (Z.to_nat samples) a b c d e f h fuel st g)
        as (st' & g' & E & (Ht & Hm & Hl & Hn) & Hc)
  end.
  - unfold reg_inv. cbn [reg_tSec reg_arr reg_rPeaks].
    split; [ | split; [ | split]].
    + lra.
    + replace (Math_floor (0 * SAMPLE_RATE)) with 0%Z by reflexivity.
      apply marks_inv_nil.
    + apply Float32Array_length.
    + reflexivity.
  - unfold reg_measure. cbn [reg_tSec].
    replace (Math_floor (0 * SAMPLE_RATE)) with 0%Z by reflexivity. lia.
  - rewrite E. unfold bind, ret.
    destruct (forM (Zrange 0 (samples - 1)) regular_noise (0, reg_arr st') g')
      as [da g''] eqn:Ef.
    exists {| buffer := snd da; rPeaks := reg_rPeaks st' |}, g''.
    cbn [buffer rPeaks].
    split; [reflexivity | split; [ | split]].
    + replace da with (fst (forM (Zrange 0 (samples - 1)) regular_noise (0, reg_arr st') g'))
        by now rewrite Ef.
      apply (forM_inv (fun s => length (snd s) = Z.to_nat samples)).
      * intros x s g0 Hs. now rewrite regular_noise_length.
      * exact Hl.
    + apply (marks_inv_ok _ _ _ Hm).
    + intros Hpos Hnil. apply Hn in Hnil.
      unfold regular_cond in Hc. qprop. rewrite Hnil in Hc.
      assert (0 < inject_Z samples) by (change 0 with (inject_Z 0); rewrite <- Zlt_Qlt; lia).
      unfold SAMPLE_RATE in Hc. lra.
Qed.

End RegularProps.

Section AfibProps.
Context {ML : MathLib}.

Lemma afib_beat_spec (meanRR : Q) (st : AfState) (g : Rng) :
  let st' := fst (afib_beat meanRR st g) in
  exists rr : Q,
    0.28 <= rr /\ rr <= 1.1 /\
    af_t st' = af_t st + rr /\
    af_rPeaks st' = af_rPeaks st ++ [Math_floor (af_t st * SAMPLE_RATE)] /\
    length (af_arr st') = length (af_arr st).
Proof.
  cbv [afib_beat bind ret jitter randRange Math_random].
  cbn [fst snd af_t af_rPeaks af_arr].
  eexists. repeat apply conj.
  3: reflexivity.
  3: reflexivity.
  - apply clamp_bounds; lra.
  - apply clamp_bounds; lra.
  - now rewrite !addGaussian_length.
Qed.

Section AfibLoop.
Variables (samples : Z) (n : nat) (meanRR : Q).

Lemma afib_cond_true (st : AfState) :
  afib_cond samples st = true ->
  (Math_floor (af_t st * SAMPLE_RATE) < samples)%Z.
Proof.
  unfold afib_cond. intros H. qprop. now apply Qfloor_lt_Z.
Qed.

Lemma afib_beat_step (st : AfState) (g : Rng) :
  af_inv samples n st -> afib_cond samples st = true ->
  let st' := fst (afib_beat meanRR st g) in
  af_inv samples n st' /\ (af_measure samples st' < af_measure samples st)%Z.
Proof.
  intros (Ht & Hm & Hl & Hn) Hc st'.
  apply afib_cond_true in Hc.
  destruct (afib_beat_spec meanRR st g) as (rr & Hr1 & Hr2 & Et & Ep & El).
  fold st' in Et, Ep, El.
  assert (Hadv : (Math_floor (af_t st * SAMPLE_RATE) + 140
                  <= Math_floor (af_t st' * SAMPLE_RATE))%Z).
  { rewrite Et. apply floor_advance. unfold SAMPLE_RATE.
    change (inject_Z 140) with 140. lra. }
  unfold af_inv, af_measure.
  split; [split; [ | split; [ | split]] | ].
  - rewrite Et. lra.
  - rewrite Ep.
    apply (marks_inv_snoc samples (Math_floor (af_t st * SAMPLE_RATE))); trivial.
    lia.
  - congruence.
  - rewrite Ep. intros H. symmetry in H. now apply app_cons_not_nil in H.
  - lia.
Qed.

Lemma afib_loop_total (fuel : nat) (st : AfState) (g : Rng) :
  af_inv samples n st -> (af_measure samples st <= Z.of_nat fuel)%Z ->
  exists st' g',
    afib_loop fuel samples meanRR st g = (Some st', g') /\
    af_inv samples n st' /\ afib_cond samples st' = false.
Proof.
  unfold afib_loop.
  apply (while_loop_total _ _ (af_inv samples n) (af_measure samples)).
  - intros s g0 Hi Hc. now apply afib_beat_step.
  - intros s g0 Hi Hc. now apply afib_beat_step.
  - intros s Hi Hc. apply afib_cond_true in Hc. unfold af_measure. lia.
Qed.
End AfibLoop.

Lemma afib_baseline_length (fHz : Q) (i : Z) (arr : list Q) (g : Rng) :
  length (fst (afib_baseline fHz i arr g)) = length arr.
Proof.
  cbv [afib_baseline bind ret randRange Math_random]. cbn [fst].
  apply arr_add_length.
Qed.

Lemma generateAfibRvr_ok (fuel : nat) (seconds meanHr : Q) (g : Rng) :
  (Math_floor (seconds * SAMPLE_RATE) <= Z.of_nat fuel)%Z ->
  generated_ok (Math_floor (seconds * SAMPLE_RATE))
    (generateAfibRvr fuel seconds meanHr g).
Proof.
  intros Hf. unfold generateAfibRvr. cbv zeta.
  set (samples := Math_floor (seconds * SAMPLE_RATE)) in *.
  unfold bind at 1. destruct (randRange 5 8 g) as [fHz g1].
  unfold bind at 1.
  destruct (forM (Zrange 0 (samples - 1)) (afib_baseline fHz) (Float32Array samples) g1)
    as [arr g2] eqn:Ef.
  assert (Hlen : length arr = Z.to_nat samples).
  { replace arr with (fst (forM (Zrange 0 (samples - 1)) (afib_baseline fHz)
                             (Float32Array samples) g1)) by now rewrite Ef.
    apply (forM_inv (fun a => length a = Z.to_nat samples)).
    - intros x s g0 Hs. now rewrite afib_baseline_length.
    - apply Float32Array_length. }
  unfold bind at 1.
  destruct (afib_loop_total samples (Z.to_nat samples) (60 / meanHr) fuel
              {| af_t := 0; af_arr := arr; af_rPeaks := [] |} g2)
    as (st' & g' & E & (Ht & Hm & Hl & Hn) & Hc).
  - unfold af_inv. cbn [af_t af_arr af_rPeaks].
    split; [ | split; [ | split]].
    + lra.
    + replace (Math_floor (0 * SAMPLE_RATE)) with 0%Z by reflexivity.
      apply marks_inv_nil.
    + exact Hlen.
    + reflexivity.
  - unfold af_measure. cbn [af_t].
    replace (Math_floor (0 * SAMPLE_RATE)) with 0%Z by reflexivity. lia.
  - rewrite E. unfold ret.
    exists {| buffer := af_arr st'; rPeaks := af_rPeaks st' |}, g'.
    cbn [buffer rPeaks].
    split; [reflexivity | split; [exact Hl | split]].
    + apply (marks_inv_ok _ _ _ Hm).
    + intros Hpos Hnil. apply Hn in Hnil.
      unfold afib_cond in Hc. qprop. rewrite Hnil in Hc.
      assert (0 < inject_Z samples) by (change 0 with (inject_Z 0); rewrite <- Zlt_Qlt; lia).
      unfold SAMPLE_RATE in Hc. lra.
Qed.

End AfibProps.

Section VtProps.
Context {ML : MathLib}.

Lemma vt_beat_spec (cycleSamples captureEvery : Z) (st : VtState) (g : Rng) :
  let st' := fst (vt_beat cycleSamples captureEvery st g) in
  vt_k st' = (vt_k st + 1)%Z /\
  vt_rPeaks st' = vt_rPeaks st ++ [vt_mark cycleSamples (vt_k st)] /\
  length (vt_arr st') = length (vt_arr st).
Proof.
  cbv [vt_beat bind ret randRange Math_random].
  destruct (Z.rem (vt_k st) captureEvery =? 0)%Z;
    [destruct (Qlt_bool (g O) 0.5) | ];
    cbn [fst snd vt_k vt_rPeaks vt_arr];
    (split; [reflexivity | split; [reflexivity | now rewrite !addGaussian_length]]).
Qed.

Lemma vt_mark_bounds (cycleSamples k : Z) :
  (20 <= cycleSamples)%Z ->
  (k * cycleSamples <= vt_mark cycleSamples k < (k + 1) * cycleSamples)%Z.
Proof.
  intros Hcs. unfold vt_mark, Math_round.
  assert (Hq : 20 <= inject_Z cycleSamples).
  { change 20 with (inject_Z 20). now rewrite <- Zle_Qle. }
  split.
  - apply Qfloor_ge_Z. lra.
  - apply Qfloor_lt_Z.
    replace ((k + 1) * cycleSamples)%Z with (k * cycleSamples + cycleSamples)%Z by ring.
    rewrite inject_Z_plus. lra.
Qed.

Section VtLoop.
Variables (samples : Z) (n : nat) (cycleSamples captureEvery : Z).
Hypothesis cycle_min : (20 <= cycleSamples)%Z.

Lemma vt_beat_step (st : VtState) (g : Rng) :
  vt_inv samples n cycleSamples st -> vt_cond samples cycleSamples st = true ->
  let st' := fst (vt_beat cycleSamples captureEvery st g) in
  vt_inv samples n cycleSamples st' /\ (vt_measure samples cycleSamples st' < vt_measure samples cycleSamples st)%Z.
Proof.
  intros (Hk & Hm & Hl & Hn & Hj) Hc st'.
  unfold vt_cond in Hc. apply Z.ltb_lt in Hc.
  destruct (vt_beat_spec cycleSamples captureEvery st g) as (Ek & Ep & El).
  fold st' in Ek, Ep, El.
  pose proof (vt_mark_bounds cycleSamples (vt_k st) cycle_min) as Hb.
  unfold vt_inv, vt_measure. rewrite Ek, Ep.
  split; [split; [ | split; [ | split; [ | split]]] | ].
  - lia.
  - apply (marks_inv_snoc samples (vt_k st * cycleSamples)); trivial.
  - congruence.
  - intros H. symmetry in H. now apply app_cons_not_nil in H.
  - intros j Hjk. apply in_or_app.
    destruct (Z.eq_dec j (vt_k st)) as [-> | Hne].
    + right. now left.
    + left. apply Hj. lia.
  - nia.
Qed.

Lemma vt_loop_total (fuel : nat) (st : VtState) (g : Rng) :
  vt_inv samples n cycleSamples st -> (vt_measure samples cycleSamples st <= Z.of_nat fuel)%Z ->
  exists st' g',
    vt_loop fuel samples cycleSamples captureEvery st g = (Some st', g') /\
    vt_inv samples n cycleSamples st' /\ vt_cond samples cycleSamples st' = false.
Proof.
  unfold vt_loop.
  apply (while_loop_total _ _ (vt_inv samples n cycleSamples)
           (vt_measure samples cycleSamples)).
  - intros s g0 Hi Hc. now apply vt_beat_step.
  - intros s g0 Hi Hc. now apply vt_beat_step.
  - intros s Hi Hc. unfold vt_cond in Hc. apply Z.ltb_lt in Hc.
    unfold vt_measure. lia.
Qed.
End VtLoop.

Lemma vt_cycleSamples_min (hr : Q) : (20 <= vt_cycleSamples hr)%Z.
Proof. unfold vt_cycleSamples. cbv zeta. lia. Qed.

Lemma vt_noise_length (i : Z) (arr : list Q) (g : Rng) :
  length (fst (vt_noise i arr g)) = length arr.
Proof.
  cbv [vt_noise bind ret randRange Math_random]. cbn [fst].
  apply arr_add_length.
Qed.

(** [generateVT] returns a buffer of [samples] samples whose marks are in
    order and hold the mark of every cycle that starts inside the buffer. *)
Lemma generateVT_spec (fuel : nat) (seconds hr : Q) (g : Rng) :
  let samples := Math_floor (seconds * SAMPLE_RATE) in
  (samples <= Z.of_nat fuel)%Z ->
  exists buf g',
    generateVT fuel seconds hr g = (Some buf, g') /\
    length (buffer buf) = Z.to_nat samples /\
    marks_ok samples (rPeaks buf) /\
    ((0 < samples)%Z -> rPeaks buf <> []) /\
    (forall j, (0 <= j)%Z -> (j * vt_cycleSamples hr < samples)%Z ->
               In (vt_mark (vt_cycleSamples hr) j) (rPeaks buf)).
Proof.
  intros samples Hf. unfold generateVT. cbv zeta. fold samples.
  pose proof (vt_cycleSamples_min hr) as Hcs.
  set (cs := vt_cycleSamples hr) in *.
  unfold bind at 1. destruct (randRange 8 16 g) as [c g1].
  unfold bind at 1.
  destruct (vt_loop_total samples (Z.to_nat samples) cs (Z.max 6 (Math_floor c)) Hcs fuel
              {| vt_k := 0; vt_arr := Float32Array samples; vt_rPeaks := [] |} g1)
    as (st' & g' & E & (Hk & Hm & Hl & Hn & Hj) & Hc).
  - unfold vt_inv. cbn [vt_k vt_arr vt_rPeaks].
    split; [ | split; [ | split; [ | split]]].
    + lia.
    + apply marks_inv_nil.
    + apply Float32Array_length.
    + reflexivity.
    + intros j Hjk. lia.
  - unfold vt_measure. cbn [vt_k]. lia.
  - rewrite E. unfold bind, ret.
    destruct (forM (Zrange 0 (samples - 1)) vt_noise (vt_arr st') g') as [arr g''] eqn:Ef.
    exists {| buffer := arr; rPeaks := vt_rPeaks st' |}, g''.
    cbn [buffer rPeaks].
    unfold vt_cond in Hc. apply Z.ltb_ge in Hc.
    split; [reflexivity | split; [ | split; [ | split]]].
    + replace arr with (fst (forM (Zrange 0 (samples - 1)) vt_noise (vt_arr st') g'))
        by now rewrite Ef.
      apply (forM_inv (fun a => length a = Z.to_nat samples)).
      * intros x s g0 Hs. now rewrite vt_noise_length.
      * exact Hl.
    + apply (marks_inv_ok _ _ _ Hm).
    + intros Hpos Hnil. apply Hn in Hnil. rewrite Hnil in Hc. lia.
    + intros j Hj0 Hjs. apply Hj. nia.
Qed.

Lemma generateVT_ok (fuel : nat) (seconds hr : Q) (g : Rng) :
  (Math_floor (seconds * SAMPLE_RATE) <= Z.of_nat fuel)%Z ->
  generated_ok (Math_floor (seconds * SAMPLE_RATE)) (generateVT fuel seconds hr g).
Proof.
  intros Hf.
  destruct (generateVT_spec fuel seconds hr g Hf) as (buf & g' & E & Hl & Hm & Hn & _).
  exists buf, g'. auto.
Qed.

End VtProps.

(** ** More fuel, same buffer *)

Section FuelIndependence.
Context {ML : MathLib}.

Lemma regular_loop_fuel (samples : Z) (n : nat) (baseHr qrsWidthMs : Q)
    (showP showT : bool) (baseAmp prMin prMax : Q)
    (fuel fuel' : nat) (st : RegState) (g : Rng) :
  reg_inv samples n st ->
  (reg_measure samples st <= Z.of_nat fuel)%Z ->
  (reg_measure samples st <= Z.of_nat fuel')%Z ->
  regular_loop fuel samples baseHr qrsWidthMs showP showT baseAmp prMin prMax st g
  = regular_loop fuel' samples baseHr qrsWidthMs showP showT baseAmp prMin prMax st g.
Proof.
  unfold regular_loop.
  apply (while_loop_fuel_indep _ _ (reg_inv samples n) (reg_measure samples)).
  - intros s g0 Hi Hc. now apply (regular_beat_step samples n).
  - intros s g0 Hi Hc. now apply (regular_beat_step samples n).
  - intros s Hi Hc. apply regular_cond_true in Hc. unfold reg_measure. lia.
Qed.

Lemma afib_loop_fuel (samples : Z) (n : nat) (meanRR : Q)
    (fuel fuel' : nat) (st : AfState) (g : Rng) :
  af_inv samples n st ->
  (af_measure samples st <= Z.of_nat fuel)%Z ->
  (af_measure samples st <= Z.of_nat fuel')%Z ->
  afib_loop fuel samples meanRR st g = afib_loop fuel' samples meanRR st g.
Proof.
  unfold afib_loop.
  apply (while_loop_fuel_indep _ _ (af_inv samples n) (af_measure samples)).
  - intros s g0 Hi Hc. now apply (afib_beat_step samples n).
  - intros s g0 Hi Hc. now apply (afib_beat_step samples n).
  - intros s Hi Hc. apply afib_cond_true in Hc. unfold af_measure. lia.
Qed.

Lemma vt_loop_fuel (samples : Z) (n : nat) (cycleSamples captureEvery : Z)
    (fuel fuel' : nat) (st : VtState) (g : Rng) :
  (20 <= cycleSamples)%Z ->
  vt_inv samples n cycleSamples st ->
  (vt_measure samples cycleSamples st <= Z.of_nat fuel)%Z ->
  (vt_measure samples cycleSamples st <= Z.of_nat fuel')%Z ->
  vt_loop fuel samples cycleSamples captureEvery st g
  = vt_loop fuel' samples cycleSamples captureEvery st g.
Proof.
  intros Hcs. unfold vt_loop.
  apply (while_loop_fuel_indep _ _ (vt_inv samples n cycleSamples)
           (vt_measure samples cycleSamples)).
  - intros s g0 Hi Hc. now apply (vt_beat_step samples n).
  - intros s g0 Hi Hc. now apply (vt_beat_step samples n).
  - intros s Hi Hc. unfold vt_cond in Hc. apply Z.ltb_lt in Hc.
    unfold vt_measure. lia.
Qed.

Lemma floor_zero_rate : Math_floor (0 * SAMPLE_RATE) = 0%Z.
Proof. reflexivity. Qed.

Lemma generateRegularECG_fuel (fuel fuel' : nat) (seconds hr qrsWidthMs : Q)
    (opts : Opts) (g : Rng) :
  (Math_floor (seconds * SAMPLE_RATE) <= Z.of_nat fuel)%Z ->
  (Math_floor (seconds * SAMPLE_RATE) <= Z.of_nat fuel')%Z ->
  generateRegularECG fuel seconds hr qrsWidthMs opts g
  = generateRegularECG fuel' seconds hr qrsWidthMs opts g.
Proof.
  intros H1 H2. unfold generateRegularECG. cbv zeta.
  set (samples := Math_floor (seconds * SAMPLE_RATE)) in *.
  unfold bind at 1 3.
  rewrite (regular_loop_fuel samples (Z.to_nat samples) _ _ _ _ _ _ _ fuel fuel');
    trivial.
  - unfold reg_inv. cbn [reg_tSec reg_arr reg_rPeaks]. rewrite floor_zero_rate.
    split; [lra | split; [apply marks_inv_nil | ]].
    split; [apply Float32Array_length | reflexivity].
  - unfold reg_measure. cbn [reg_tSec]. rewrite floor_zero_rate. lia.
  - unfold reg_measure. cbn [reg_tSec]. rewrite floor_zero_rate. lia.
Qed.

Lemma generateSVT_fuel (fuel fuel' : nat) (seconds hr : Q) (g : Rng) :
  (Math_floor (seconds * SAMPLE_RATE) <= Z.of_nat fuel)%Z ->
  (Math_floor (seconds * SAMPLE_RATE) <= Z.of_nat fuel')%Z ->
  generateSVT fuel seconds hr g = generateSVT fuel' seconds hr g.
Proof.
  intros H1 H2. unfold generateSVT. unfold bind at 1 3.
  now rewrite (generateRegularECG_fuel fuel fuel').
Qed.

Lemma generateAfibRvr_fuel (fuel fuel' : nat) (seconds meanHr : Q) (g : Rng) :
  (Math_floor (seconds * SAMPLE_RATE) <= Z.of_nat fuel)%Z ->
  (Math_floor (seconds * SAMPLE_RATE) <= Z.of_nat fuel')%Z ->
  generateAfibRvr fuel seconds meanHr g = generateAfibRvr fuel' seconds meanHr g.
Proof.
  intros H1 H2. unfold generateAfibRvr. cbv zeta.
  set (samples := Math_floor (seconds * SAMPLE_RATE)) in *.
  unfold bind at 1 4. destruct (randRange 5 8 g) as [fHz g1].
  unfold bind at 1 3.
  destruct (forM (Zrange 0 (samples - 1)) (afib_baseline fHz) (Float32Array samples) g1)
    as [arr g2] eqn:Ef.
  assert (Hlen : length arr = Z.to_nat samples).
  { replace arr with (fst (forM (Zrange 0 (samples - 1)) (afib_baseline fHz)
                             (Float32Array samples) g1)) by now rewrite Ef.
    apply (forM_inv (fun a => length a = Z.to_nat samples)).
    - intros x s g0 Hs. now rewrite afib_baseline_length.
    - apply Float32Array_length. }
  unfold bind.
  rewrite (afib_loop_fuel samples (Z.to_nat samples) _ fuel fuel'); trivial.
  - unfold af_inv. cbn [af_t af_arr af_rPeaks]. rewrite floor_zero_rate.
    split; [lra | split; [apply marks_inv_nil | ]].
    split; [exact Hlen | reflexivity].
  - unfold af_measure. cbn [af_t]. rewrite floor_zero_rate. lia.
  - unfold af_measure. cbn [af_t]. rewrite floor_zero_rate. lia.
Qed.

Lemma generateVT_fuel (fuel fuel' : nat) (seconds hr : Q) (g : Rng) :
  (Math_floor (seconds * SAMPLE_RATE) <= Z.of_nat fuel)%Z ->
  (Math_floor (seconds * SAMPLE_RATE) <= Z.of_nat fuel')%Z ->
  generateVT fuel seconds hr g = generateVT fuel' seconds hr g.
Proof.
  intros H1 H2. unfold generateVT. cbv zeta.
  set (samples := Math_floor (seconds * SAMPLE_RATE)) in *.
  unfold bind at 1 4. destruct (randRange 8 16 g) as [c g1].
  unfold bind at 1 3.
  rewrite (vt_loop_fuel samples (Z.to_nat samples) _ _ fuel fuel'); trivial.
  - apply vt_cycleSamples_min.
  - unfold vt_inv. cbn [vt_k vt_arr vt_rPeaks].
    split; [lia | split; [apply marks_inv_nil | ]].
    split; [apply Float32Array_length | split; [reflexivity | intros; lia]].
  - unfold vt_measure. cbn [vt_k]. lia.
  - unfold vt_measure. cbn [vt_k]. lia.
Qed.

End FuelIndependence.

(** ** The scenario generators *)

Section SynthesizeProps.
Context {ML : MathLib}.

Lemma svt_retrograde_length (rp : Z) (arr : list Q) (g : Rng) :
  length (fst (svt_retrograde rp arr g)) = length arr.
Proof.
  cbv [svt_retrograde bind ret Math_random].
  destruct (Qlt_bool (g O) 0.3); cbn [fst]; [apply addGaussian_length | reflexivity].
Qed.

Lemma generateSVT_ok (fuel : nat) (seconds hr : Q) (g : Rng) :
  (Math_floor (seconds * SAMPLE_RATE) <= Z.of_nat fuel)%Z ->
  generated_ok (Math_floor (seconds * SAMPLE_RATE)) (generateSVT fuel seconds hr g).
Proof.
  intros Hf. unfold generateSVT. unfold bind at 1.
  match goal with
  | |- context [generateRegularECG fuel seconds hr ?w ?o g] =>
      destruct (generateRegularECG_ok fuel seconds hr w o g Hf)
        as (base & g1 & E & Hl & Hm & Hn)
  end.
  rewrite E. unfold bind, ret.
  destruct (forM (rPeaks base) svt_retrograde (buffer base) g1) as [arr g2] eqn:Ef.
  exists {| buffer := arr; rPeaks := rPeaks base |}, g2.
  cbn [buffer rPeaks]. split; [reflexivity | split; [ | split; assumption]].
  replace arr with (fst (forM (rPeaks base) svt_retrograde (buffer base) g1))
    by now rewrite Ef.
  apply (forM_inv (fun a => length a = Z.to_nat (Math_floor (seconds * SAMPLE_RATE)))).
  - intros x s g0 Hs. now rewrite svt_retrograde_length.
  - exact Hl.
Qed.

Lemma vf_sample_length (phi1 phi2 phi3 : Q) (i : Z) (st : VfState) (g : Rng) :
  length (vf_arr (fst (vf_sample phi1 phi2 phi3 i st g))) = length (vf_arr st).
Proof.
  cbv [vf_sample bind ret jitter randRange Math_random].
  destruct (Z.rem i 500 =? 0)%Z; cbn [fst vf_arr]; apply arr_set_length.
Qed.

Lemma generateVF_spec (seconds : Q) (g : Rng) :
  rPeaks (fst (generateVF seconds g)) = [] /\
  length (buffer (fst (generateVF seconds g)))
  = Z.to_nat (Math_floor (seconds * SAMPLE_RATE)).
Proof.
  cbv [generateVF bind ret randRange Math_random].
  match goal with
  | |- context [forM ?l ?b ?s ?g0] => destruct (forM l b s g0) as [st g'] eqn:Ef
  end.
  cbn [fst rPeaks buffer]. split; [reflexivity | ].
  match type of Ef with
  | forM ?l ?b ?s ?g0 = _ => replace st with (fst (forM l b s g0)) by now rewrite Ef
  end.
  apply (forM_inv (fun s => length (vf_arr s) = Z.to_nat (Math_floor (seconds * SAMPLE_RATE)))).
  - intros x s g0 Hs. now rewrite vf_sample_length.
  - cbn [vf_arr]. apply Float32Array_length.
Qed.

Lemma asystole_sample_length (i : Z) (arr : list Q) (g : Rng) :
  length (fst (asystole_sample i arr g)) = length arr.
Proof.
  cbv [asystole_sample bind ret randRange Math_random]. cbn [fst].
  apply arr_set_length.
Qed.

Lemma generateAsystole_spec (seconds : Q) (g : Rng) :
  rPeaks (fst (generateAsystole seconds g)) = [] /\
  length (buffer (fst (generateAsystole seconds g)))
  = Z.to_nat (Math_floor (seconds * SAMPLE_RATE)).
Proof.
  cbv [generateAsystole bind ret].
  match goal with
  | |- context [forM ?l ?b ?s ?g0] => destruct (forM l b s g0) as [arr g'] eqn:Ef
  end.
  cbn [fst rPeaks buffer]. split; [reflexivity | ].
  match type of Ef with
  | forM ?l ?b ?s ?g0 = _ => replace arr with (fst (forM l b s g0)) by now rewrite Ef
  end.
  apply (forM_inv (fun a => length a = Z.to_nat (Math_floor (seconds * SAMPLE_RATE)))).
  - intros x s g0 Hs. now rewrite asystole_sample_length.
  - apply Float32Array_length.
Qed.

Lemma buffer_samples_eq : buffer_samples = 90000%Z.
Proof. reflexivity. Qed.

Lemma synthesize_fuel_ok (fuel : nat) (r : RhythmId) (g : Rng) :
  (buffer_samples <= Z.of_nat fuel)%Z ->
  has_beats r = true ->
  generated_ok buffer_samples (synthesize_fuel fuel r g).
Proof.
  intros Hf Hr. unfold synthesize_fuel.
  destruct r; try discriminate Hr; cbn [SCENARIOS generator].
  - unfold bind. destruct (sinus_hr g) as [hr g1]. now apply generateRegularECG_ok.
  - unfold bind. destruct (svt_hr g) as [hr g1]. now apply generateSVT_ok.
  - unfold bind. destruct (afib_meanHr g) as [hr g1]. now apply generateAfibRvr_ok.
  - unfold bind. destruct (vt_pulse_hr g) as [hr g1]. now apply generateVT_ok.
  - now apply generateVT_ok.
  - now apply generateRegularECG_ok.
Qed.

Lemma synthesize_fuel_flat (fuel : nat) (r : RhythmId) (g : Rng) :
  has_beats r = false ->
  exists buf g',
    synthesize_fuel fuel r g = (Some buf, g') /\
    length (buffer buf) = Z.to_nat buffer_samples /\
    rPeaks buf = [].
Proof.
  intros Hr. unfold synthesize_fuel.
  destruct r; try discriminate Hr; cbn [SCENARIOS generator]; unfold bind, ret.
  - pose proof (generateVF_spec BUFFER_SECONDS g) as [H1 H2].
    destruct (generateVF BUFFER_SECONDS g) as [b g']. exists b, g'. auto.
  - pose proof (generateAsystole_spec BUFFER_SECONDS g) as [H1 H2].
    destruct (generateAsystole BUFFER_SECONDS g) as [b g']. exists b, g'. auto.
Qed.

Lemma synthesize_fuel_indep (fuel fuel' : nat) (r : RhythmId) (g : Rng) :
  (buffer_samples <= Z.of_nat fuel)%Z ->
  (buffer_samples <= Z.of_nat fuel')%Z ->
  synthesize_fuel fuel r g = synthesize_fuel fuel' r g.
Proof.
  intros H1 H2. unfold synthesize_fuel.
  destruct r; cbn [SCENARIOS generator]; trivial.
  - unfold bind. destruct (sinus_hr g) as [hr g1]. now apply generateRegularECG_fuel.
  - unfold bind. destruct (svt_hr g) as [hr g1]. now apply generateSVT_fuel.
  - unfold bind. destruct (afib_meanHr g) as [hr g1]. now apply generateAfibRvr_fuel.
  - unfold bind. destruct (vt_pulse_hr g) as [hr g1]. now apply generateVT_fuel.
  - now apply generateVT_fuel.
  - now apply generateRegularECG_fuel.
Qed.

Lemma default_fuel_enough : (buffer_samples <= Z.of_nat default_fuel)%Z.
Proof. unfold default_fuel. fold buffer_samples. rewrite buffer_samples_eq. lia. Qed.

End SynthesizeProps.

(** ** The claims on [synthesize] *)

Section SynthesizeClaims.
Context {ML : MathLib}.

(** X26. For every rhythm class and every stream of draws, [synthesize]
    returns a buffer of 90000 samples whose marks are strictly increasing and
    non-negative, and every mark before the last lies within
    [0, samples.length). *)
Theorem synthesize_marks_ordered (r : RhythmId) (g : Rng) :
  exists buf g',
    synthesize r g = (Some buf, g') /\
    arr_length (buffer buf) = 90000%Z /\
    StronglySorted Z.lt (rPeaks buf) /\
    Forall (fun x => (0 <= x)%Z) (rPeaks buf) /\
    Forall (fun x => (0 <= x < arr_length (buffer buf))%Z) (removelast (rPeaks buf)).
Proof.
  unfold synthesize. destruct (has_beats r) eqn:Hr.
  - destruct (synthesize_fuel_ok default_fuel r g default_fuel_enough Hr)
      as (buf & g' & E & Hl & (Hs & Hp & Hb) & _).
    exists buf, g'. unfold arr_length. rewrite Hl, buffer_samples_eq.
    rewrite buffer_samples_eq in Hb. auto.
  - destruct (synthesize_fuel_flat default_fuel r g Hr) as (buf & g' & E & Hl & Hn).
    exists buf, g'. unfold arr_length. rewrite Hl, Hn, buffer_samples_eq.
    repeat split; trivial; constructor.
Qed.

(** C6. For every stream of draws, [synthesize] returns no marks for VF and
    for ASYSTOLE, and at least one mark for each of SINUS, SVT, AFIB_RVR,
    VT_PULSE, PVT and PEA_NARROW. *)
Theorem synthesize_marks_presence (r : RhythmId) (g : Rng) :
  exists buf g',
    synthesize r g = (Some buf, g') /\
    match r with
    | VF | ASYSTOLE => rPeaks buf = []
    | SINUS | SVT | AFIB_RVR | VT_PULSE | PVT | PEA_NARROW =>
        (0 < length (rPeaks buf))%nat
    end.
Proof.
  unfold synthesize. destruct (has_beats r) eqn:Hr.
  - destruct (synthesize_fuel_ok default_fuel r g default_fuel_enough Hr)
      as (buf & g' & E & _ & _ & Hn).
    exists buf, g'. split; [exact E | ].
    assert (Hpos : (0 < length (rPeaks buf))%nat).
    { destruct (rPeaks buf); [exfalso; now apply Hn | simpl; lia]. }
    clear E. destruct r; try discriminate Hr; exact Hpos.
  - destruct (synthesize_fuel_flat default_fuel r g Hr) as (buf & g' & E & _ & Hn).
    exists buf, g'. split; [exact E | ].
    clear E. destruct r; try discriminate Hr; exact Hn.
Qed.

Lemma scenario_rate_bounds (g : Rng) (lo width : Q) (a b : Z) :
  0 <= g O -> g O < 1 -> 0 < width ->
  inject_Z a <= lo -> lo + width <= inject_Z b + 1 ->
  (a <= Math_floor (fst (randRange lo (lo + width) g)) <= b)%Z.
Proof.
  intros H0 H1 Hw Ha Hb.
  cbv [randRange bind ret Math_random]. cbn [fst].
  assert (Hu : 0 <= g O * (lo + width - lo) /\ g O * (lo + width - lo) < width) by nra.
  unfold Math_floor. split.
  - apply Qfloor_ge_Z. lra.
  - apply Z.lt_succ_r. apply Qfloor_lt_Z.
    unfold Z.succ. rewrite inject_Z_plus. change (inject_Z 1) with 1. lra.
Qed.

(** C7. For every rhythm class and every outcome of the draws, synthesis
    ends: with the default fuel or more, [synthesize_fuel] returns a buffer,
    the same whatever the fuel.  Every pass of a beat loop advances by a
    positive minimum: the per-beat heart rate is clamped to [45, 190], so the
    divisor of [60 / beatHr] is not zero and a cycle lasts at least 60/190 s;
    an AF interval is at least 0.28 s; a VT cycle has at least 20 samples and
    its loop counter advances by one.  The heart rates the scenario table
    draws, which [generateVT] and [generateAfibRvr] divide by, are
    positive. *)
Theorem synthesize_terminates (r : RhythmId) (g : Rng) (fuel : nat) :
  (default_fuel <= fuel)%nat ->
  valid_rng g ->
  (exists buf g', synthesize_fuel fuel r g = (Some buf, g')) /\
  synthesize_fuel fuel r g = synthesize r g /\
  (forall baseHr qrsWidthMs showP showT baseAmp prMin prMax st g0,
     exists beatHr,
       45 <= beatHr /\ beatHr <= 190 /\ (6 # 19) <= 60 / beatHr /\
       reg_tSec (fst (regular_beat baseHr qrsWidthMs showP showT
                        baseAmp prMin prMax st g0))
       = reg_tSec st + 60 / beatHr) /\
  (forall meanRR st g0,
     exists rr, 0.28 <= rr /\ af_t (fst (afib_beat meanRR st g0)) = af_t st + rr) /\
  (forall hr, (20 <= vt_cycleSamples hr)%Z) /\
  (forall cycleSamples captureEvery st g0,
     vt_k (fst (vt_beat cycleSamples captureEvery st g0)) = (vt_k st + 1)%Z) /\
  (62 <= fst (sinus_hr g) /\ 160 <= fst (svt_hr g) /\
   120 <= fst (afib_meanHr g) /\ 150 <= fst (vt_pulse_hr g)).
Proof.
  intros Hf Hg.
  assert (Hfuel : (buffer_samples <= Z.of_nat fuel)%Z).
  { pose proof default_fuel_enough. lia. }
  split; [ | split; [ | split; [ | split; [ | split; [ | split]]]]].
  - destruct (has_beats r) eqn:Hr.
    + destruct (synthesize_fuel_ok fuel r g Hfuel Hr) as (buf & g' & E & _).
      now exists buf, g'.
    + destruct (synthesize_fuel_flat fuel r g Hr) as (buf & g' & E & _).
      now exists buf, g'.
  - unfold synthesize. apply synthesize_fuel_indep; [exact Hfuel | ].
    apply default_fuel_enough.
  - intros.
    destruct (regular_beat_spec baseHr qrsWidthMs showP showT baseAmp prMin prMax st g0)
      as (b & prS & H1 & H2 & _ & Et & _).
    exists b. repeat split; trivial. now apply cycle_lower.
  - intros. destruct (afib_beat_spec meanRR st g0) as (rr & H1 & _ & Et & _).
    now exists rr.
  - apply vt_cycleSamples_min.
  - intros. apply vt_beat_spec.
  - destruct (Hg O) as [H0 H1].
    pose proof (scenario_rate_bounds g (- 8) 16 (- 8) 7 H0 H1) as Hs.
    pose proof (scenario_rate_bounds g 160 50 160 209 H0 H1) as Hv.
    pose proof (scenario_rate_bounds g (- 20) 40 (- 20) 19 H0 H1) as Ha.
    pose proof (scenario_rate_bounds g 150 35 150 184 H0 H1) as Ht.
    cbv [sinus_hr svt_hr afib_meanHr vt_pulse_hr bind ret].
    destruct (randRange (- 8) 8 g) as [d1 g1] eqn:E1.
    destruct (randRange 160 210 g) as [d2 g2] eqn:E2.
    destruct (randRange (- 20) 20 g) as [d3 g3] eqn:E3.
    destruct (randRange 150 185 g) as [d4 g4] eqn:E4.
    cbn [fst] in *.
    change (randRange (- 8) (- 8 + 16) g) with (randRange (- 8) 8 g) in Hs.
    change (randRange 160 (160 + 50) g) with (randRange 160 210 g) in Hv.
    change (randRange (- 20) (- 20 + 40) g) with (randRange (- 20) 20 g) in Ha.
    change (randRange 150 (150 + 35) g) with (randRange 150 185 g) in Ht.
    rewrite E1 in Hs. rewrite E2 in Hv. rewrite E3 in Ha. rewrite E4 in Ht.
    cbn [fst] in *.
    assert (A1 : (-8 <= Math_floor d1)%Z) by (apply Hs; qconst).
    assert (A2 : (160 <= Math_floor d2)%Z) by (apply Hv; qconst).
    assert (A3 : (-20 <= Math_floor d3)%Z) by (apply Ha; qconst).
    assert (A4 : (150 <= Math_floor d4)%Z) by (apply Ht; qconst).
    rewrite Zle_Qle in A1, A2, A3, A4.
    change (inject_Z (-8)) with (-8) in A1.
    change (inject_Z 160) with 160 in A2.
    change (inject_Z (-20)) with (-20) in A3.
    change (inject_Z 150) with 150 in A4.
    repeat split; lra.
Qed.

End SynthesizeClaims.

(** C1.  The code breaks the bound of the marks.  With every draw equal to
    0.3 the VT_PULSE scenario draws [hr = floor(150 + 0.3 * 35) = 160], so a
    cycle has [floor(60/160 * 500) = 187] samples; cycle 481 starts at sample
    [481 * 187 = 89947 < 90000] and records the mark
    [round(89947 + 0.32 * 187) = 90007], which is not an index of the buffer
    of 90000 samples.  The loop tests where the cycle starts, not where its
    mark falls; [generateAfibRvr] records the tested position itself and
    keeps every mark inside. *)
Lemma synthesize_mark_beyond_buffer :
  valid_rng draws_03 /\
  forall ML : MathLib,
    exists buf g',
      @synthesize ML VT_PULSE draws_03 = (Some buf, g') /\
      arr_length (buffer buf) = 90000%Z /\
      In 90007%Z (rPeaks buf).
Proof.
  split.
  - intros n. unfold draws_03. split; lra.
  - intros ML. unfold synthesize, synthesize_fuel. cbn [SCENARIOS generator].
    unfold bind at 1.
    replace (vt_pulse_hr draws_03) with (inject_Z 160, fun n : nat => draws_03 (S n)).
    2:{ vm_compute. reflexivity. }
    destruct (generateVT_spec default_fuel BUFFER_SECONDS (inject_Z 160)
                (fun n : nat => draws_03 (S n)) default_fuel_enough)
      as (buf & g' & E & Hl & _ & _ & Hj).
    exists buf, g'. split; [exact E | split].
    + unfold arr_length. rewrite Hl. reflexivity.
    + replace 90007%Z with (vt_mark (vt_cycleSamples (inject_Z 160)) 481)
        by (vm_compute; reflexivity).
      apply Hj; [lia | vm_compute; reflexivity].
Qed.

Lemma synthesize_terminates_witness :
  (exists buf g', @synthesize_fuel approxMath default_fuel PVT draws_03 = (Some buf, g')) /\
  @synthesize_fuel approxMath default_fuel PVT draws_03 = @synthesize approxMath PVT draws_03.
Proof.
  pose proof (@synthesize_terminates approxMath PVT draws_03 default_fuel
                (Nat.le_refl default_fuel)
                (fun n => conj (Qle_bool_imp_le 0 0.3 eq_refl)
                               (proj1 (Qlt_bool_iff 0.3 1) eq_refl))) as H.
  split; [exact (proj1 H) | exact (proj1 (proj2 H))].
Defined.

(** * Further properties *)

(** ** Therapy outcome model: the remaining branches and how they compose *)

Lemma Math_min_mono (h x y : Q) : x <= y -> Math_min h x <= Math_min h y.
Proof. intros H. minmax; lra. Qed.

Lemma Math_max_mono (l x y : Q) : x <= y -> Math_max l x <= Math_max l y.
Proof. intros H. minmax; lra. Qed.

Lemma Qdiv_mono (x y b : Q) : 0 < b -> x <= y -> x / b <= y / b.
Proof.
  intros Hb H. unfold Qdiv. apply Qmult_le_compat_r; [exact H | ].
  apply Qlt_le_weak. now apply Qinv_lt_0_compat.
Qed.

(** The clamped linear ramp of every branch grows with the energy. *)
Lemma ramp_mono (a b lo hi e1 e2 : Q) :
  0 < b -> e1 <= e2 ->
  Math_max lo (Math_min hi ((Math_max 0 (Math_min 360 e1) - a) / b))
  <= Math_max lo (Math_min hi ((Math_max 0 (Math_min 360 e2) - a) / b)).
Proof.
  intros Hb H. apply Math_max_mono, Math_min_mono, Qdiv_mono; [exact Hb | ].
  assert (Math_max 0 (Math_min 360 e1) <= Math_max 0 (Math_min 360 e2))
    by now apply Math_max_mono, Math_min_mono.
  lra.
Qed.

(** X1. Synchronized delivery on SVT, AFIB_RVR and VT_PULSE is appropriate;
    with [E] the clamped energy, the rhythm converts exactly when the draw is
    below clamp((E-40)/120, 0.4, 0.95), clamp((E-90)/160, 0.35, 0.85) and
    clamp((E-80)/160, 0.35, 0.9) respectively; the next rhythm is SINUS on
    conversion and the input rhythm otherwise. *)
Theorem handleShock_cardioversion (energyJ : Q) (g : Rng) :
  let E := clampEnergy energyJ in
  let out r := fst (handleShock r energyJ true g) in
  (appropriate (out SVT) = true /\
   (converted (out SVT) = true <-> g O < clamp ((E - 40) / 120) 0.4 0.95) /\
   nextRhythm (out SVT) = (if converted (out SVT) then SINUS else SVT)) /\
  (appropriate (out AFIB_RVR) = true /\
   (converted (out AFIB_RVR) = true <-> g O < clamp ((E - 90) / 160) 0.35 0.85) /\
   nextRhythm (out AFIB_RVR) = (if converted (out AFIB_RVR) then SINUS else AFIB_RVR)) /\
  (appropriate (out VT_PULSE) = true /\
   (converted (out VT_PULSE) = true <-> g O < clamp ((E - 80) / 160) 0.35 0.9) /\
   nextRhythm (out VT_PULSE) = (if converted (out VT_PULSE) then SINUS else VT_PULSE)).
Proof.
  cbn. repeat split; try apply Qlt_bool_iff; try (intros H; now apply Qlt_bool_iff).
Qed.

(** X2. Unsynchronized delivery on AFIB_RVR and on VT_PULSE is never
    appropriate and never converts; the next rhythm is VF exactly when the
    draw is below 0.06, respectively 0.12, and the input rhythm otherwise. *)
Theorem handleShock_unsync_degrades (energyJ : Q) (g : Rng) :
  let out r := fst (handleShock r energyJ false g) in
  (appropriate (out AFIB_RVR) = false /\ converted (out AFIB_RVR) = false /\
   nextRhythm (out AFIB_RVR) = (if Qlt_bool (g O) 0.06 then VF else AFIB_RVR) /\
   (nextRhythm (out AFIB_RVR) = VF <-> g O < 0.06)) /\
  (appropriate (out VT_PULSE) = false /\ converted (out VT_PULSE) = false /\
   nextRhythm (out VT_PULSE) = (if Qlt_bool (g O) 0.12 then VF else VT_PULSE) /\
   (nextRhythm (out VT_PULSE) = VF <-> g O < 0.12)).
Proof.
  cbn. split.
  - destruct (Qlt_bool (g O) 0.06) eqn:E; cbn; repeat split; trivial;
      try discriminate; try (intros _; now apply Qlt_bool_iff).
    intros H. apply Qlt_bool_iff in H. congruence.
  - destruct (Qlt_bool (g O) 0.12) eqn:E; cbn; repeat split; trivial;
      try discriminate; try (intros _; now apply Qlt_bool_iff).
    intros H. apply Qlt_bool_iff in H. congruence.
Qed.

(** X3. More energy never loses a conversion: for the same rhythm, sync flag
    and draws, a shock that converts at one energy converts at every higher
    energy. *)
Theorem handleShock_energy_monotone (r : RhythmId) (e1 e2 : Q) (syncMode : bool) (g : Rng) :
  e1 <= e2 ->
  converted (fst (handleShock r e1 syncMode g)) = true ->
  converted (fst (handleShock r e2 syncMode g)) = true.
Proof.
  intros He. unfold handleShock.
  destruct r, syncMode; cbn; trivial; intros H; apply Qlt_bool_iff in H;
    apply Qlt_bool_iff; (eapply Qlt_le_trans; [exact H | apply ramp_mono; [qconst | exact He]]).
Qed.

Lemma handleShock_energy_monotone_witness :
  converted (fst (handleShock VF 360 false draws_03)) = true.
Proof.
  apply (handleShock_energy_monotone VF 200 360 false draws_03).
  - qconst.
  - vm_compute. reflexivity.
Defined.

(** X4. On VF and PVT the sync flag changes nothing: result, message and
    remaining draws are the same with and without it. *)
Theorem handleShock_defib_ignores_sync (r : RhythmId) (energyJ : Q) (g : Rng) :
  r = VF \/ r = PVT ->
  handleShock r energyJ true g = handleShock r energyJ false g.
Proof. intros [-> | ->]; reflexivity. Qed.

Lemma handleShock_defib_ignores_sync_witness :
  handleShock PVT 200 true draws_03 = handleShock PVT 200 false draws_03.
Proof. apply (handleShock_defib_ignores_sync PVT 200 draws_03). right. reflexivity. Defined.

(** X5. A shock turns a rhythm other than VF into VF only when it was
    inappropriate and did not convert. *)
Theorem handleShock_degrade_only_inappropriate
    (r : RhythmId) (energyJ : Q) (syncMode : bool) (g : Rng) :
  let res := fst (handleShock r energyJ syncMode g) in
  RhythmId_eqb r VF = false ->
  nextRhythm res = VF ->
  appropriate res = false /\ converted res = false /\ syncMode = false.
Proof.
  unfold handleShock. destruct r, syncMode; cbn; try discriminate;
    repeat match goal with
    | |- context [Qlt_bool ?a ?b] => destruct (Qlt_bool a b); cbn
    end; intros _ H; try discriminate H; auto.
Qed.

Lemma handleShock_degrade_only_inappropriate_witness :
  let res := fst (handleShock SVT 200 false (fun _ => 0.05)) in
  appropriate res = false /\ converted res = false /\ false = false.
Proof.
  apply (handleShock_degrade_only_inappropriate SVT 200 false (fun _ => 0.05));
    reflexivity.
Defined.

Section TableProps.
Context {ML : MathLib}.

(** X6. The verdict of [handleShock] agrees with the scenario table: a shock
    is appropriate exactly when the rhythm is [shockable], or is
    [syncRecommended] and the shock is synchronized. *)
Theorem handleShock_appropriate_matches_table
    (fuel : nat) (r : RhythmId) (energyJ : Q) (syncMode : bool) (g : Rng) :
  appropriate (fst (handleShock r energyJ syncMode g))
  = shockable (SCENARIOS fuel r) || (syncRecommended (SCENARIOS fuel r) && syncMode).
Proof.
  destruct r, syncMode; cbn;
    repeat match goal with
    | |- context [Qlt_bool ?a ?b] => destruct (Qlt_bool a b); cbn
    end; reflexivity.
Qed.

End TableProps.

(** ** The session *)

Module SessionProps.
Import Session.

Section WithPlatform.
Context {ML : MathLib}.

Lemma onShock_refused_eq (now : Q) (s : State) (g : Rng) :
  shock_ready s = false ->
  exists m, onShock now s g = (setStatus m s, g).
Proof.
  unfold shock_ready, onShock. intros H.
  destruct (powerOn s); cbn; [ | eexists; reflexivity].
  destruct (padsOn s); cbn; [ | eexists; reflexivity].
  destruct (charged s); cbn; [discriminate H | eexists; reflexivity].
Qed.

Lemma onShock_delivered_eq (now : Q) (s : State) (g : Rng) :
  shock_ready s = true ->
  let res := fst (handleShock (scenario s) (energy s) (syncMode s) g) in
  let s' := fst (onShock now s g) in
  snd (onShock now s g) = snd (handleShock (scenario s) (energy s) (syncMode s) g) /\
  scenario s' = nextRhythm res /\
  charged s' = false /\ charging s' = charging s /\ timers s' = timers s /\
  powerOn s' = powerOn s /\ padsOn s' = padsOn s /\ mode s' = mode s /\
  score s' =
    match mode s with
    | quiz => {| dxCorrect := dxCorrect (score s); dxTotal := dxTotal (score s);
                 txCorrect := (txCorrect (score s) + (if appropriate res then 1 else 0))%Z;
                 txTotal := (txTotal (score s) + 1)%Z |}
    | practice => score s
    end.
Proof.
  unfold shock_ready, onShock. intros H.
  apply andb_true_iff in H. destruct H as [H Hc].
  apply andb_true_iff in H. destruct H as [Hp Hd].
  rewrite Hp, Hd, Hc. cbn [negb]. unfold bind, ret.
  destruct (handleShock (scenario s) (energy s) (syncMode s) g) as [res g'].
  cbn [fst snd]. destruct (mode s) eqn:Em; cbn; rewrite ?Em; repeat (split; try reflexivity); assumption.
Qed.

(** X7. Without power, pads and a completed charge, [onShock] delivers
    nothing: it draws no random number and changes nothing but the status
    line. *)
Theorem onShock_refused (now : Q) (s : State) (g : Rng) :
  powerOn s = false \/ padsOn s = false \/ charged s = false ->
  exists m, onShock now s g = (setStatus m s, g).
Proof.
  intros H. apply onShock_refused_eq. unfold shock_ready.
  destruct H as [-> | [-> | ->]]; cbn; rewrite ?andb_false_r; reflexivity.
Qed.

Lemma onShock_refused_witness :
  exists m, onShock 0 initial draws_03 = (setStatus m initial, draws_03).
Proof.
  apply (onShock_refused 0 initial draws_03). right. right. reflexivity.
Defined.

(** X8. One charge, one shock: after any call of [onShock], delivered or
    refused, the device is not ready to shock, so that a second call right
    after it delivers nothing. *)
Theorem onShock_discharges (now now' : Q) (s : State) (g : Rng) :
  let s1 := fst (onShock now s g) in
  let g1 := snd (onShock now s g) in
  shock_ready s1 = false /\
  exists m, onShock now' s1 g1 = (setStatus m s1, g1).
Proof.
  intros s1 g1.
  assert (H : shock_ready s1 = false).
  { subst s1. destruct (shock_ready s) eqn:E.
    - destruct (onShock_delivered_eq now s g E) as (_ & _ & Hc & _).
      unfold shock_ready. rewrite Hc. now rewrite andb_false_r.
    - destruct (onShock_refused_eq now s g E) as [m ->]. exact E. }
  split; [exact H | now apply onShock_refused_eq].
Qed.

Lemma step_score_ok (ev : Event) (s : State) (g : Rng) :
  score_ok (score s) -> score_ok (score (fst (step ev s g))).
Proof.
  intros H. destruct ev; cbn [step]; try exact H.
  - unfold ret, onCharge. cbn [fst].
    destruct (powerOn s), (padsOn s), (charging s); exact H.
  - unfold ret, chargeTimer. cbn [fst]. destruct (timers s) eqn:Et; exact H.
  - destruct (shock_ready s) eqn:E.
    + destruct (onShock_delivered_eq now s g E) as (_ & _ & _ & _ & _ & _ & _ & _ & Hs).
      rewrite Hs. destruct (mode s); [exact H | ].
      unfold score_ok in *. cbn.
      destruct (appropriate _); lia.
    + destruct (onShock_refused_eq now s g E) as [m ->]. exact H.
  - unfold randomCase, bind, ret, Math_random. 
    destruct (pool_pick (g O)); cbn [fst]; [ | exact H].
    destruct (mode s); exact H.
  - unfold ret, submitDiagnosis. cbn [fst].
    destruct (diagChoice s); [ | exact H].
    unfold score_ok in *. cbn.
    destruct (RhythmId_eqb _ _); cbn; lia.
Qed.

Lemma run_cons (ev : Event) (evs : list Event) (s : State) (g : Rng) :
  run (ev :: evs) s g = run evs (fst (step ev s g)) (snd (step ev s g)).
Proof.
  unfold run. cbn [forM]. unfold bind. destruct (step ev s g). reflexivity.
Qed.

(** X9. Whatever the user does, and from the initial state in particular,
    the quiz score stays consistent: correct answers are counted between zero
    and the number of attempts, for diagnoses and for treatments. *)
Theorem score_stays_consistent (evs : list Event) (g : Rng) :
  let sc := score (fst (run evs initial g)) in
  (0 <= dxCorrect sc <= dxTotal sc)%Z /\ (0 <= txCorrect sc <= txTotal sc)%Z.
Proof.
  cbv zeta.
  change (score_ok (score (fst (run evs initial g)))).
  apply (forM_inv (fun s => score_ok (score s))).
  - intros ev s g0 Hs. now apply step_score_ok.
  - unfold score_ok. cbn. lia.
Qed.

Lemma step_credit (ev : Event) (s : State) (g : Rng) :
  ((match ev with Shock _ => if shock_ready s then 1 else 0 | _ => 0 end)
   + charge_credit (fst (step ev s g))
   <= (match ev with Charge => if charge_ready s then 1 else 0 | _ => 0 end)
      + charge_credit s)%nat.
Proof.
  unfold charge_credit.
  destruct ev; cbn [step]; unfold ret; cbn [fst];
    try (cbn; destruct (charged s); lia).
  - unfold onCharge, charge_ready.
    destruct (powerOn s), (padsOn s), (charging s); cbn; rewrite ?length_app; cbn;
      destruct (charged s); lia.
  - unfold chargeTimer. destruct (timers s) eqn:Et; cbn; rewrite ?Et; cbn;
      destruct (charged s); lia.
  - destruct (shock_ready s) eqn:E.
    + destruct (onShock_delivered_eq now s g E) as (_ & _ & Hc & _ & Ht & _).
      rewrite Hc, Ht. unfold shock_ready in E.
      apply andb_true_iff in E. destruct E as [_ ->]. lia.
    + destruct (onShock_refused_eq now s g E) as [m ->]. cbn. lia.
  - unfold randomCase, bind, ret, Math_random.
    destruct (pool_pick (g O)); cbn [fst]; [ | lia].
    destruct (mode s); cbn; destruct (charged s); lia.
  - unfold submitDiagnosis. destruct (diagChoice s); cbn; lia.
Qed.

Lemma shocks_bounded_by_credit (evs : list Event) (s : State) (g : Rng) :
  (shocks_delivered evs s g <= charges_started evs s g + charge_credit s)%nat.
Proof.
  revert s g. induction evs as [ | ev evs IH]; intros s g; cbn [shocks_delivered charges_started].
  - lia.
  - specialize (IH (fst (step ev s g)) (snd (step ev s g))).
    pose proof (step_credit ev s g). lia.
Qed.

(** X10. No shock without a charge: along any run of events from the
    initial state, the number of shocks delivered never exceeds the number of
    charges started. *)
Theorem shocks_need_charges (evs : list Event) (g : Rng) :
  (shocks_delivered evs initial g <= charges_started evs initial g)%nat.
Proof.
  pose proof (shocks_bounded_by_credit evs initial g) as H.
  unfold charge_credit in H. cbn in H. lia.
Qed.

Lemma handleShock_next_cases (r : RhythmId) (e : Q) (sync : bool) (g : Rng) :
  let r' := nextRhythm (fst (handleShock r e sync g)) in
  match r with
  | SINUS | ASYSTOLE | PEA_NARROW => r' = r
  | VF => r' = VF \/ r' = SINUS
  | _ => r' = r \/ r' = SINUS \/ r' = VF
  end.
Proof.
  unfold handleShock. destruct r, sync; cbn;
    repeat match goal with
    | |- context [Qlt_bool ?a ?b] => destruct (Qlt_bool a b); cbn
    end; auto.
Qed.

Lemma step_reachable (r0 : RhythmId) (ev : Event) (s : State) (g : Rng) :
  loads_case ev = false ->
  reachable_from r0 (scenario s) ->
  reachable_from r0 (scenario (fst (step ev s g))).
Proof.
  intros Hev H. destruct ev; try discriminate Hev; cbn [step]; try exact H.
  - unfold ret, onCharge. cbn [fst].
    destruct (powerOn s), (padsOn s), (charging s); exact H.
  - unfold ret, chargeTimer. cbn [fst]. destruct (timers s) eqn:Et; exact H.
  - destruct (shock_ready s) eqn:E.
    + destruct (onShock_delivered_eq now s g E) as (_ & Hs & _).
      rewrite Hs.
      pose proof (handleShock_next_cases (scenario s) (energy s) (syncMode s) g) as Hn.
      cbv zeta in Hn. unfold reachable_from in *.
      destruct r0, (scenario s); intuition congruence.
    + destruct (onShock_refused_eq now s g E) as [m ->]. exact H.
  - unfold ret, submitDiagnosis. cbn [fst]. destruct (diagChoice s); exact H.
Qed.

(** X11. Shocks alone cannot do more than the outcome model allows: in a
    run that loads no case, a session showing SINUS, ASYSTOLE or PEA_NARROW
    keeps that rhythm whatever is delivered, a session showing VF shows VF or
    SINUS, and any other session shows its first rhythm, SINUS or VF. *)
Theorem shocks_keep_rhythm_reachable (evs : list Event) (s : State) (g : Rng) :
  forallb (fun ev => negb (loads_case ev)) evs = true ->
  let r0 := scenario s in
  let r := scenario (fst (run evs s g)) in
  match r0 with
  | SINUS | ASYSTOLE | PEA_NARROW => r = r0
  | VF => r = VF \/ r = SINUS
  | _ => r = r0 \/ r = SINUS \/ r = VF
  end.
Proof.
  intros Hevs r0 r.
  change (reachable_from r0 r). subst r.
  assert (H0 : reachable_from r0 (scenario s)).
  { subst r0. unfold reachable_from. destruct (scenario s); auto. }
  clearbody r0. revert s g H0.
  induction evs as [ | ev evs IH]; intros s g H0; [exact H0 | ].
  cbn [forallb] in Hevs. apply andb_true_iff in Hevs. destruct Hevs as [Hev Hevs].
  rewrite run_cons. apply IH; [exact Hevs | ].
  apply step_reachable; [ | exact H0].
  now destruct (loads_case ev).
Qed.

(** X12. For a draw in [0,1), [randomCase] always finds a case in its pool
    (the pick is never undefined and never SINUS), loads it and cancels the
    charge; in quiz mode it also clears the diagnosis.  Every case of the
    pool is picked by some draw. *)
Theorem randomCase_picks_from_pool (s : State) (g : Rng) :
  0 <= g O -> g O < 1 ->
  (exists pick,
     pool_pick (g O) = Some pick /\ In pick pool /\ RhythmId_eqb pick SINUS = false /\
     let s' := fst (randomCase s g) in
     scenario s' = pick /\ charged s' = false /\ charging s' = false /\
     score s' = score s /\
     diagChoice s' = match mode s with quiz => None | practice => diagChoice s end) /\
  (forall r, In r pool -> exists u, 0 <= u /\ u < 1 /\ pool_pick u = Some r).
Proof.
  intros H0 H1. split.
  - set (k := Math_floor (g O * 7)).
    assert (Hk : (0 <= k <= 6)%Z).
    { subst k. unfold Math_floor. split.
      - apply Qfloor_nonneg. lra.
      - apply Z.lt_succ_r. apply Qfloor_lt_Z.
        change (inject_Z (Z.succ 6)) with 7. lra. }
    assert (Ek : Math_floor (g O * inject_Z (Z.of_nat (length pool))) = k) by reflexivity.
    unfold randomCase, bind, ret, Math_random. unfold pool_pick. rewrite Ek. cbv zeta.
    assert (Hc : (k = 0 \/ k = 1 \/ k = 2 \/ k = 3 \/ k = 4 \/ k = 5 \/ k = 6)%Z) by lia.
    clearbody k.
    destruct Hc as [-> | [-> | [-> | [-> | [-> | [-> | ->]]]]]]; cbn;
      eexists; (split; [reflexivity | ]); (split; [cbn; tauto | ]);
      (split; [reflexivity | ]); destruct (mode s); cbn; repeat split.
  - intros r Hr. cbn in Hr.
    destruct Hr as [<- | [<- | [<- | [<- | [<- | [<- | [<- | []]]]]]]].
    + exists 0. repeat split; try qconst.
    + exists (1 # 7). repeat split; try qconst.
    + exists (2 # 7). repeat split; try qconst.
    + exists (3 # 7). repeat split; try qconst.
    + exists (4 # 7). repeat split; try qconst.
    + exists (5 # 7). repeat split; try qconst.
    + exists (6 # 7). repeat split; try qconst.
Qed.

(** X13. The energy can still be changed after CHARGE: the charge
    announces the energy selected when CHARGE was pressed, the device is then
    ready, and the shock is delivered and reported at the energy selected when
    SHOCK is pressed. *)
Theorem energy_change_after_charge (s : State) (e2 now : Q) (g : Rng) :
  charge_ready s = true -> timers s = [] ->
  let s3 := chargeTimer (chooseEnergy e2 (onCharge s)) in
  let res := fst (handleShock (scenario s) e2 (syncMode s) g) in
  let s4 := fst (onShock now s3 g) in
  status s3 = [Txt "Charged: "] ++ formatEnergy (energy s) ++ [Txt ". Ready to shock."] /\
  shock_ready s3 = true /\
  scenario s4 = nextRhythm res /\
  status s4 =
    [Txt (if syncMode s then "SYNCHRONIZED " else "UNSYNCHRONIZED "); Txt "SHOCK "]
    ++ formatEnergy e2 ++ [Txt " → "] ++ message res
    ++ [Txt " "; Txt (if appropriate res then "[Appropriate]" else "[Inappropriate]")].
Proof.
  unfold charge_ready. intros H Ht.
  apply andb_true_iff in H. destruct H as [H Hc].
  apply andb_true_iff in H. destruct H as [Hp Hd].
  apply negb_true_iff in Hc.
  unfold onCharge. rewrite Hp, Hd, Hc, Ht. cbn [negb app].
  unfold chargeTimer, chooseEnergy. cbn [timers setDisplay setTimers setStatus setCharge].
  cbv zeta. unfold shock_ready, onShock.
  cbn [powerOn padsOn charged status scenario energy syncMode mode
       setTimers setStatus setCharge setDisplay].
  rewrite Hp, Hd. cbn [negb andb]. unfold bind, ret.
  destruct (handleShock (scenario s) e2 (syncMode s) g) as [res g'].
  cbn [fst]. destruct (mode s); cbn; repeat split; reflexivity.
Qed.

(** X14. Loading a case disarms the device but does not cancel a charge in
    progress: after CHARGE and then a new case, chosen or random, the device
    is not ready, and when the pending timer fires it is ready to shock the
    new rhythm. *)
Theorem case_load_keeps_pending_charge (s : State) (v : RhythmId) (g : Rng) :
  charge_ready s = true -> timers s = [] ->
  let s1 := loadRhythm v (onCharge s) in
  let s1' := fst (randomCase (onCharge s) g) in
  (shock_ready s1 = false /\ shock_ready (chargeTimer s1) = true /\
   scenario (chargeTimer s1) = v) /\
  (shock_ready s1' = false /\ shock_ready (chargeTimer s1') = true /\
   scenario (chargeTimer s1') = scenario s1').
Proof.
  unfold charge_ready. intros H Ht.
  apply andb_true_iff in H. destruct H as [H Hc].
  apply andb_true_iff in H. destruct H as [Hp Hd].
  apply negb_true_iff in Hc.
  unfold onCharge. rewrite Hp, Hd, Hc, Ht. cbn [negb app]. cbv zeta. split.
  - unfold loadRhythm, chargeTimer, shock_ready. cbn. rewrite Hp, Hd.
    repeat split; reflexivity.
  - unfold randomCase, bind, ret, Math_random.
    destruct (pool_pick (g O)) as [pick | ].
    + destruct (mode s) eqn:Em; unfold chargeTimer, shock_ready; cbn; rewrite ?Em; cbn;
        rewrite Hp, Hd; repeat split; reflexivity.
    + unfold chargeTimer, shock_ready. cbn. rewrite Hp, Hd.
      repeat split; reflexivity.
Qed.

End WithPlatform.

Lemma shocks_keep_rhythm_reachable_witness :
  let r := scenario (fst (@run approxMath [Charge; ChargeTimer; Shock 0; Shock 1]
                            initial draws_03)) in
  r = VF \/ r = SINUS.
Proof.
  apply (@shocks_keep_rhythm_reachable approxMath
           [Charge; ChargeTimer; Shock 0; Shock 1] initial draws_03).
  reflexivity.
Defined.

Lemma randomCase_picks_from_pool_witness :
  exists pick, pool_pick (draws_03 O) = Some pick /\ In pick pool.
Proof.
  destruct (proj1 (@randomCase_picks_from_pool approxMath initial draws_03
                     (Qle_bool_imp_le 0 0.3 eq_refl)
                     (proj1 (Qlt_bool_iff 0.3 1) eq_refl)))
    as (pick & Hp & Hin & _).
  exists pick. split; assumption.
Defined.

Lemma energy_change_after_charge_witness :
  let s3 := chargeTimer (chooseEnergy 360 (onCharge initial)) in
  status s3 = [Txt "Charged: "; Num 200; Txt " J"; Txt ". Ready to shock."] /\
  energy s3 = 360.
Proof.
  split.
  - exact (proj1 (energy_change_after_charge initial 360 0 draws_03 eq_refl eq_refl)).
  - reflexivity.
Defined.

Lemma case_load_keeps_pending_charge_witness :
  let s2 := chargeTimer (@loadRhythm approxMath SVT (onCharge initial)) in
  shock_ready s2 = true /\ scenario s2 = SVT.
Proof.
  exact (proj2 (proj1 (@case_load_keeps_pending_charge approxMath initial SVT draws_03
                         eq_refl eq_refl))).
Defined.

End SessionProps.

(** ** The sync markers of a frame *)

Lemma marker_drawn_vis (visStart vis len rp : Z) :
  (0 <= visStart < len)%Z -> (0 < vis < len)%Z -> (0 <= rp < len)%Z ->
  let delta := marker_delta visStart len rp in
  (marker_drawn visStart (marker_visEnd visStart vis len) rp = true
   <-> (delta <= vis)%Z) /\
  (0 <= delta < len)%Z /\
  Z.rem (visStart + delta) len = rp.
Proof.
  intros Hs Hv Hr. unfold marker_drawn, marker_visEnd, marker_delta. cbv zeta.
  assert (Hend : (Z.rem (visStart + vis) len
                  = if visStart + vis <? len then visStart + vis
                    else visStart + vis - len)%Z).
  { destruct (visStart + vis <? len)%Z eqn:E.
    - apply Z.ltb_lt in E. apply Z.rem_small. lia.
    - apply Z.ltb_ge in E. rewrite Z.rem_mod_nonneg by lia.
      symmetry. apply Z.mod_unique with (q := 1%Z); lia. }
  rewrite Hend.
  assert (Hrem : forall d, (0 <= d < len)%Z ->
                 (visStart + d = rp \/ visStart + d = rp + len)%Z ->
                 Z.rem (visStart + d) len = rp).
  { intros d Hd [E | E]; rewrite E.
    - apply Z.rem_small. lia.
    - rewrite Z.rem_mod_nonneg by lia.
      symmetry. apply Z.mod_unique with (q := 1%Z); lia. }
  destruct (visStart + vis <? len)%Z eqn:Ew;
    [apply Z.ltb_lt in Ew | apply Z.ltb_ge in Ew];
    destruct (rp - visStart <? 0)%Z eqn:Ed;
    [apply Z.ltb_lt in Ed | apply Z.ltb_ge in Ed | apply Z.ltb_lt in Ed | apply Z.ltb_ge in Ed];
    (split; [ | split; [lia | apply Hrem; lia]]).
  - replace (visStart <? visStart + vis)%Z with true by (symmetry; apply Z.ltb_lt; lia).
    rewrite andb_true_iff, !Z.leb_le. lia.
  - replace (visStart <? visStart + vis)%Z with true by (symmetry; apply Z.ltb_lt; lia).
    rewrite andb_true_iff, !Z.leb_le. lia.
  - replace (visStart <? visStart + vis - len)%Z with false by (symmetry; apply Z.ltb_ge; lia).
    rewrite orb_true_iff, !Z.leb_le. lia.
  - replace (visStart <? visStart + vis - len)%Z with false by (symmetry; apply Z.ltb_ge; lia).
    rewrite orb_true_iff, !Z.leb_le. lia.
Qed.

(** X16. The marker test is exact for marks inside the buffer: when the
    visible span is positive and shorter than the buffer, a mark [rp] in
    [0, len) is drawn exactly when its circular distance from the window's
    start is at most the span; its marker then lies between the left and the
    right edge, at the offset where the buffer holds sample [rp]. *)
Theorem marker_drawn_iff_visible (visStart vis len rp : Z) :
  (0 <= visStart < len)%Z -> (0 < vis < len)%Z -> (0 <= rp < len)%Z ->
  let delta := marker_delta visStart len rp in
  (marker_drawn visStart (marker_visEnd visStart vis len) rp = true
   <-> (delta <= vis)%Z) /\
  (0 <= delta < len)%Z /\
  Z.rem (visStart + delta) len = rp.
Proof. apply marker_drawn_vis. Qed.

Lemma marker_drawn_iff_visible_witness :
  let delta := marker_delta 88000 90000 500 in
  (marker_drawn 88000 (marker_visEnd 88000 3000 90000) 500 = true
   <-> (delta <= 3000)%Z) /\
  (0 <= delta < 90000)%Z /\
  Z.rem (88000 + delta) 90000 = 500%Z.
Proof.
  apply (marker_drawn_iff_visible 88000 3000 90000 500); lia.
Defined.

(** X17. A mark at or beyond the buffer's end, which [generateVT] and
    [generateRegularECG] can record, is never drawn while the window does not
    wrap, and is always drawn while it wraps: its marker then sits where the
    buffer shows another sample, [rp - len] places after the start of the
    buffer. *)
Theorem marker_beyond_buffer (visStart vis len rp : Z) :
  (0 <= visStart < len)%Z -> (0 < vis < len)%Z -> (len <= rp)%Z ->
  marker_drawn visStart (marker_visEnd visStart vis len) rp
  = (len <=? visStart + vis)%Z /\
  marker_delta visStart len rp = (rp - visStart)%Z.
Proof.
  intros Hs Hv Hr. unfold marker_drawn, marker_visEnd, marker_delta. cbv zeta.
  split.
  - destruct (len <=? visStart + vis)%Z eqn:Ew;
      [apply Z.leb_le in Ew | apply Z.leb_gt in Ew].
    + replace (Z.rem (visStart + vis) len) with (visStart + vis - len)%Z.
      2:{ rewrite Z.rem_mod_nonneg by lia.
          apply Z.mod_unique with (q := 1%Z); lia. }
      replace (visStart <? visStart + vis - len)%Z with false
        by (symmetry; apply Z.ltb_ge; lia).
      apply orb_true_iff. left. apply Z.leb_le. lia.
    + rewrite Z.rem_small by lia.
      replace (visStart <? visStart + vis)%Z with true
        by (symmetry; apply Z.ltb_lt; lia).
      apply andb_false_iff. right. apply Z.leb_gt. lia.
  - replace (rp - visStart <? 0)%Z with false; trivial.
    symmetry. apply Z.ltb_ge. lia.
Qed.

Lemma marker_beyond_buffer_witness :
  marker_drawn 88000 (marker_visEnd 88000 3000 90000) 90007
  = (90000 <=? 88000 + 3000)%Z /\
  marker_delta 88000 90000 90007 = (90007 - 88000)%Z.
Proof.
  apply (marker_beyond_buffer 88000 3000 90000 90007); lia.
Defined.

(** ** Synthesizers: the scenario table, ventricular tachycardia, asystole *)

Section SynthesisExtras.
Context {ML : MathLib}.

(** X18. The [syncable] flag of the scenario table tells the truth about
    the generators: for every stream of draws, the buffer of a rhythm has at
    least one mark exactly when the table calls the rhythm syncable. *)
Theorem syncable_iff_marks (r : RhythmId) (g : Rng) :
  exists buf g',
    synthesize r g = (Some buf, g') /\
    syncable (SCENARIOS default_fuel r)
    = match rPeaks buf with [] => false | _ :: _ => true end.
Proof.
  unfold synthesize. destruct (has_beats r) eqn:Hr.
  - destruct (synthesize_fuel_ok default_fuel r g default_fuel_enough Hr)
      as (buf & g' & E & _ & _ & Hn).
    exists buf, g'. split; [exact E | ].
    assert (Hs : syncable (SCENARIOS default_fuel r) = true).
    { clear E. destruct r; try discriminate Hr; reflexivity. }
    rewrite Hs. destruct (rPeaks buf); [exfalso; now apply Hn | reflexivity].
  - destruct (synthesize_fuel_flat default_fuel r g Hr) as (buf & g' & E & _ & Hn).
    exists buf, g'. split; [exact E | ].
    rewrite Hn. clear E. destruct r; try discriminate Hr; reflexivity.
Qed.

Lemma Zrange_snoc (k : Z) : (0 <= k)%Z -> Zrange 0 k = Zrange 0 (k - 1) ++ [k].
Proof.
  intros Hk. unfold Zrange.
  replace (Z.to_nat (k - 0 + 1)) with (S (Z.to_nat k)) by lia.
  replace (Z.to_nat (k - 1 - 0 + 1)) with (Z.to_nat k) by lia.
  rewrite seq_S, map_app. cbn [map]. f_equal. f_equal. lia.
Qed.

Lemma vt_count_spec (samples cs k : Z) :
  (0 < cs)%Z -> ((k - 1) * cs < samples)%Z -> (samples <= k * cs)%Z ->
  vt_count samples cs = k.
Proof.
  intros Hcs H1 H2. unfold vt_count. symmetry.
  apply Z.div_unique with (r := (samples + cs - 1 - k * cs)%Z); lia.
Qed.

Lemma vt_marks_step (samples cs ce : Z) (st : VtState) (g : Rng) :
  vt_marks_inv samples cs st -> vt_cond samples cs st = true ->
  vt_marks_inv samples cs (fst (vt_beat cs ce st g)).
Proof.
  intros (Hk & Hp & Hl) Hc. unfold vt_cond in Hc. apply Z.ltb_lt in Hc.
  destruct (vt_beat_spec cs ce st g) as (Ek & Ep & _).
  unfold vt_marks_inv. rewrite Ek, Ep, Hp.
  split; [lia | split].
  - replace (vt_k st + 1 - 1)%Z with (vt_k st) by lia.
    rewrite (Zrange_snoc (vt_k st)) by exact Hk.
    now rewrite map_app.
  - intros _. replace (vt_k st + 1 - 1)%Z with (vt_k st) by lia. exact Hc.
Qed.

(** The marks of [generateVT] in closed form. *)
Lemma generateVT_marks (fuel : nat) (seconds hr : Q) (g : Rng) :
  let samples := Math_floor (seconds * SAMPLE_RATE) in
  let cs := vt_cycleSamples hr in
  (0 < samples)%Z -> (samples <= Z.of_nat fuel)%Z ->
  exists buf g',
    generateVT fuel seconds hr g = (Some buf, g') /\
    rPeaks buf = map (vt_mark cs) (Zrange 0 (vt_count samples cs - 1)).
Proof.
  intros samples cs Hpos Hf. unfold generateVT. cbv zeta. fold samples. fold cs.
  pose proof (vt_cycleSamples_min hr) as Hcs. fold cs in Hcs.
  unfold bind at 1. destruct (randRange 8 16 g) as [c g1].
  unfold bind at 1. unfold vt_loop.
  destruct (while_loop_total (vt_cond samples cs) (vt_beat cs (Z.max 6 (Math_floor c)))
              (vt_marks_inv samples cs) (vt_measure samples cs)
              (fun s g0 Hi Hc => vt_marks_step samples cs _ s g0 Hi Hc))
    with (fuel := fuel)
         (s := {| vt_k := 0; vt_arr := Float32Array samples; vt_rPeaks := [] |})
         (g := g1)
    as (st' & g' & E & (Hk & Hp & Hl) & Hc).
  - intros s g0 Hi Hc0.
    destruct (vt_beat_spec cs (Z.max 6 (Math_floor c)) s g0) as (Ek & _).
    unfold vt_measure. rewrite Ek. nia.
  - intros s Hi Hc0. unfold vt_cond in Hc0. apply Z.ltb_lt in Hc0.
    unfold vt_measure. lia.
  - unfold vt_marks_inv. cbn [vt_k vt_rPeaks]. split; [lia | split; [reflexivity | lia]].
  - unfold vt_measure. cbn [vt_k]. lia.
  - rewrite E. unfold bind, ret.
    destruct (forM (Zrange 0 (samples - 1)) vt_noise (vt_arr st') g') as [arr g''].
    exists {| buffer := arr; rPeaks := vt_rPeaks st' |}, g''.
    cbn [rPeaks]. split; [reflexivity | ].
    unfold vt_cond in Hc. apply Z.ltb_ge in Hc.
    assert (Hk0 : (0 < vt_k st')%Z) by nia.
    rewrite (vt_count_spec samples cs (vt_k st')); [exact Hp | lia | now apply Hl | exact Hc].
Qed.

(** X19. The marks of the two ventricular tachycardias do not depend on the
    beat-to-beat draws: whatever the capture beats and amplitudes, the buffer
    holds the mark [round(k * cycleSamples + 0.32 * cycleSamples)] of every
    cycle [k] that starts inside it, in order, and nothing else, where
    [cycleSamples] is 176 for PVT and comes from the drawn heart rate for
    VT_PULSE. *)
Theorem vt_marks_closed_form (g : Rng) :
  (exists buf g',
     synthesize PVT g = (Some buf, g') /\
     rPeaks buf = map (vt_mark 176) (Zrange 0 511)) /\
  (exists buf g',
     synthesize VT_PULSE g = (Some buf, g') /\
     let cs := vt_cycleSamples (fst (vt_pulse_hr g)) in
     rPeaks buf = map (vt_mark cs) (Zrange 0 (vt_count 90000 cs - 1))).
Proof.
  split.
  - unfold synthesize, synthesize_fuel. cbn [SCENARIOS generator].
    destruct (generateVT_marks default_fuel BUFFER_SECONDS 170 g)
      as (buf & g' & E & Hp); [reflexivity | apply default_fuel_enough | ].
    exists buf, g'. split; [exact E | exact Hp].
  - unfold synthesize, synthesize_fuel. cbn [SCENARIOS generator].
    unfold bind. destruct (vt_pulse_hr g) as [hr g1]. cbn [fst].
    destruct (generateVT_marks default_fuel BUFFER_SECONDS hr g1)
      as (buf & g' & E & Hp); [reflexivity | apply default_fuel_enough | ].
    exists buf, g'. split; [exact E | exact Hp].
Qed.

(** X20. Every mark of a PVT buffer lies inside it: whatever the draws, the
    buffer has exactly 512 marks and every one of them, the last included,
    lies within [0, samples.length). *)
Theorem pvt_marks_in_bounds (g : Rng) :
  exists buf g',
    synthesize PVT g = (Some buf, g') /\
    length (rPeaks buf) = 512%nat /\
    Forall (fun x => (0 <= x < arr_length (buffer buf))%Z) (rPeaks buf).
Proof.
  destruct (synthesize_fuel_ok default_fuel PVT g default_fuel_enough eq_refl)
    as (buf & g' & E & Hl & _).
  destruct (generateVT_marks default_fuel BUFFER_SECONDS 170 g)
    as (buf2 & g2 & E2 & Hp); [reflexivity | apply default_fuel_enough | ].
  unfold synthesize_fuel in E. cbn [SCENARIOS generator] in E.
  rewrite E2 in E. injection E as <- <-.
  exists buf2, g2. split; [exact E2 | ].
  unfold arr_length. rewrite Hl, Hp. split.
  - vm_compute. reflexivity.
  - apply Forall_forall. intros x Hx.
    assert (Hb : forallb (fun x => (0 <=? x)%Z && (x <? 90000)%Z)
                   (map (vt_mark 176) (Zrange 0 511)) = true)
      by (vm_compute; reflexivity).
    rewrite forallb_forall in Hb. specialize (Hb x Hx).
    apply andb_true_iff in Hb. destruct Hb as [H1 H2].
    apply Z.leb_le in H1. apply Z.ltb_lt in H2.
    rewrite buffer_samples_eq. lia.
Qed.

End SynthesisExtras.

(** ** Asystole, and pulses at the edge of the array *)

Lemma valid_rng_tail (g : Rng) : valid_rng g -> valid_rng (fun n => g (S n)).
Proof. intros H n. apply H. Qed.

Lemma forM_inv_rng {A S : Type} (P : S -> Rng -> Prop) (body : A -> S -> M S) :
  (forall x s g, P s g -> P (fst (body x s g)) (snd (body x s g))) ->
  forall l s g, P s g -> P (fst (forM l body s g)) (snd (forM l body s g)).
Proof.
  intros Hb l. induction l as [ | x l IH]; intros s g Hs; simpl; trivial.
  unfold bind. specialize (Hb x s g Hs).
  destruct (body x s g) as [s' g']. now apply IH.
Qed.

Lemma randRange_bounds (a b : Q) (g : Rng) :
  valid_rng g -> a < b ->
  a <= fst (randRange a b g) /\ fst (randRange a b g) < b.
Proof.
  intros Hg Hab. destruct (Hg O) as [H0 H1].
  cbv [randRange bind ret Math_random]. cbn [fst]. split; nra.
Qed.

Lemma list_upd_Forall (P : Q -> Prop) (f : Q -> Q) (n : nat) (l : list Q) :
  (forall x, P x -> P (f x)) -> Forall P l -> Forall P (list_upd f n l).
Proof.
  intros Hf H. revert n. induction H as [ | x l Hx Hl IH]; intros [ | n]; simpl;
    constructor; auto.
Qed.

Lemma arr_set_Forall (P : Q -> Prop) (arr : list Q) (i : Z) (v : Q) :
  P v -> Forall P arr -> Forall P (arr_set arr i v).
Proof.
  intros Hv H. unfold arr_set, arr_upd. destruct (i <? 0)%Z; [exact H | ].
  apply list_upd_Forall; auto.
Qed.

Section EdgeProps.
Context {ML : MathLib}.

(** X21. An asystole is flat: for every outcome of the draws, the buffer
    has 90000 samples, every one of them in [-0.015, 0.015), and no mark. *)
Theorem asystole_is_flat (g : Rng) :
  valid_rng g ->
  exists buf g',
    synthesize ASYSTOLE g = (Some buf, g') /\
    arr_length (buffer buf) = 90000%Z /\
    Forall (fun x => - 0.015 <= x /\ x < 0.015) (buffer buf) /\
    rPeaks buf = [].
Proof.
  intros Hg. unfold synthesize, synthesize_fuel. cbn [SCENARIOS generator].
  unfold bind at 1. unfold ret.
  pose proof (generateAsystole_spec BUFFER_SECONDS g) as [Hn Hl].
  assert (Hflat : Forall flat_sample (buffer (fst (generateAsystole BUFFER_SECONDS g)))).
  { cbv [generateAsystole bind ret].
    match goal with
    | |- context [forM ?l ?b ?s ?g0] =>
        pose proof (forM_inv_rng (fun a g1 => Forall flat_sample a /\ valid_rng g1)
                      asystole_sample) as Hinv;
        specialize (fun Hb => Hinv Hb l s g0);
        destruct (forM l b s g0) as [arr g'] eqn:Ef
    end.
    cbn [fst buffer]. cbn [fst snd] in Hinv. apply Hinv.
    - intros i a g1 [Ha Hg1].
      pose proof (randRange_bounds (- 0.015) 0.015 g1 Hg1) as Hr.
      cbv [asystole_sample bind ret randRange Math_random] in *. cbn [fst snd] in *.
      split; [ | now apply valid_rng_tail].
      apply arr_set_Forall; [ | exact Ha].
      unfold flat_sample. apply Hr. qconst.
    - split; [ | exact Hg].
      unfold Float32Array. apply Forall_forall. intros x Hx.
      apply repeat_spec in Hx. subst x. unfold flat_sample. split; qconst. }
  destruct (generateAsystole BUFFER_SECONDS g) as [b g'].
  exists b, g'. cbn [fst] in *.
  split; [reflexivity | split; [ | split; [exact Hflat | exact Hn]]].
  unfold arr_length. rewrite Hl. reflexivity.
Qed.



(** X24. With marks inside the buffer, every sync marker of a frame lies on
    the canvas, between 0 and its width; and no marker is drawn when sync
    mode is off or the rhythm is not syncable. *)
Theorem sync_markers_on_canvas (syncMode syncable : bool) (scroll : Q) (len : Z)
    (speed : Speed) (w : Z) (rPeaks : list Z) :
  (visSamples speed < len)%Z -> 0 <= scroll -> (0 <= w)%Z ->
  Forall (fun rp => (0 <= rp < len)%Z) rPeaks ->
  Forall (fun x => 0 <= x /\ x <= inject_Z w)
    (sync_markers syncMode syncable scroll len speed w rPeaks) /\
  (syncMode && syncable = false ->
   sync_markers syncMode syncable scroll len speed w rPeaks = []).
Proof.
  intros Hv Hs Hw Hr. unfold sync_markers. split.
  - destruct (syncMode && syncable); [ | constructor].
    assert (Hvis : (0 < visSamples speed)%Z) by (destruct speed; reflexivity).
    assert (Hlen : (0 < len)%Z) by lia.
    assert (Hst : (0 <= startIdx scroll len < len)%Z).
    { unfold startIdx. apply Z.rem_bound_pos; [now apply Qfloor_nonneg | exact Hlen]. }
    apply Forall_forall. intros x Hx. apply in_map_iff in Hx.
    destruct Hx as (rp & <- & Hin). apply filter_In in Hin. destruct Hin as [Hin Hd].
    rewrite Forall_forall in Hr. specialize (Hr rp Hin).
    destruct (marker_drawn_vis (startIdx scroll len) (visSamples speed) len rp)
      as [Hiff Hb]; try lia.
    apply Hiff in Hd. unfold marker_x.
    set (d := marker_delta (startIdx scroll len) len rp) in *.
    assert (Hd0 : 0 <= inject_Z d) by (change 0 with (inject_Z 0); rewrite <- Zle_Qle; lia).
    assert (Hd1 : inject_Z d <= inject_Z (visSamples speed)) by (rewrite <- Zle_Qle; lia).
    assert (Hv0 : 0 < inject_Z (visSamples speed))
      by (change 0 with (inject_Z 0); rewrite <- Zlt_Qlt; lia).
    assert (Hw0 : 0 <= inject_Z w) by (change 0 with (inject_Z 0); rewrite <- Zle_Qle; lia).
    assert (Hq0 : 0 <= inject_Z d / inject_Z (visSamples speed))
      by (apply Qle_shift_div_l; lra).
    assert (Hq1 : inject_Z d / inject_Z (visSamples speed) <= 1)
      by (apply Qle_shift_div_r; lra).
    generalize dependent (inject_Z d / inject_Z (visSamples speed)). intros q Hq0 Hq1.
    split; nra.
  - intros ->. reflexivity.
Qed.

End EdgeProps.

Lemma asystole_is_flat_witness :
  exists buf g',
    @synthesize approxMath ASYSTOLE draws_03 = (Some buf, g') /\
    arr_length (buffer buf) = 90000%Z.
Proof.
  destruct (@asystole_is_flat approxMath draws_03
              (fun n => conj (Qle_bool_imp_le 0 0.3 eq_refl)
                             (proj1 (Qlt_bool_iff 0.3 1) eq_refl)))
    as (buf & g' & E & Hl & _).
  exists buf, g'. split; assumption.
Defined.


Lemma sync_markers_on_canvas_witness :
  Forall (fun x => 0 <= x /\ x <= inject_Z 800)
    (sync_markers true true 88000 90000 Speed25 800 [500; 30000; 89000]%Z).
Proof.
  apply (sync_markers_on_canvas true true 88000 90000 Speed25 800 [500; 30000; 89000]%Z).
  - reflexivity.
  - qconst.
  - lia.
  - repeat constructor; lia.
Defined.

(** ** How many beats a buffer holds *)

Section LoopWithDraws.
Context {S : Type} (cond : S -> bool) (body : S -> M S).
Variable P : S -> Rng -> Prop.
Hypothesis body_keeps :
  forall s g, P s g -> cond s = true -> P (fst (body s g)) (snd (body s g)).

(** What a finished loop has kept, draws included. *)
Lemma while_loop_exit (fuel : nat) (s s' : S) (g g' : Rng) :
  while_loop fuel cond body s g = (Some s', g') ->
  P s g -> P s' g' /\ cond s' = false.
Proof.
  revert s g. induction fuel as [ | fuel IH]; intros s g E Hp.
  - simpl in E. destruct (cond s) eqn:Ec; [discriminate E | ].
    injection E as <- <-. auto.
  - rewrite while_loop_unfold in E. destruct (cond s) eqn:Ec.
    + apply IH in E; [exact E | now apply body_keeps].
    + injection E as <- <-. auto.
Qed.
End LoopWithDraws.

Lemma timeline_step (samples : Z) (cmin cmax : Q) (n : nat) (t c : Q) :
  0 <= cmin -> cmin <= c -> c <= cmax ->
  timeline_inv samples cmin cmax n t ->
  t * SAMPLE_RATE < inject_Z samples ->
  timeline_inv samples cmin cmax (Datatypes.S n) (t + c).
Proof.
  intros H0 H1 H2 (Ha & Hb & Hc) Ht. unfold timeline_inv.
  replace (Z.of_nat (Datatypes.S n)) with (Z.of_nat n + 1)%Z by lia.
  rewrite inject_Z_plus. change (inject_Z 1) with 1.
  unfold SAMPLE_RATE in *.
  set (m := inject_Z (Z.of_nat n)) in *.
  assert (E1 : (m + 1) * cmin == m * cmin + cmin) by ring.
  assert (E2 : (m + 1) * cmax == m * cmax + cmax) by ring.
  rewrite E1, E2. clear E1 E2.
  remember (m * cmin) as mn eqn:Emn. remember (m * cmax) as mx eqn:Emx.
  clear Emn Emx. clearbody m.
  split; [lra | split; [lra | intros _; lra]].
Qed.

(** At the end of the loop the clock has reached the end of the buffer, so
    the number of beats lies between [samples / (500 cmax)] and
    [(samples + 500 cmax) / (500 cmin)]. *)
Lemma timeline_exit (samples : Z) (cmin cmax : Q) (n : nat) (t : Q) (lo hi : Z) :
  timeline_inv samples cmin cmax n t ->
  inject_Z samples <= t * SAMPLE_RATE ->
  (0 < samples)%Z -> 0 < cmin -> 0 < cmax ->
  inject_Z (lo - 1) * cmax * SAMPLE_RATE < inject_Z samples ->
  inject_Z samples + cmax * SAMPLE_RATE <= inject_Z (hi + 1) * cmin * SAMPLE_RATE ->
  (lo <= Z.of_nat n <= hi)%Z.
Proof.
  intros (Ha & Hb & Hc) Ht Hs Hmin Hmax Hlo Hhi.
  assert (Hn : (0 < n)%nat).
  { destruct n; [ | lia]. exfalso.
    assert (0 < inject_Z samples) by (change 0 with (inject_Z 0); rewrite <- Zlt_Qlt; lia).
    change (inject_Z (Z.of_nat 0)) with 0 in Hb. unfold SAMPLE_RATE in *. lra. }
  specialize (Hc Hn). unfold SAMPLE_RATE in *. split.
  - apply Z.lt_pred_le. apply Z.lt_nge. intros Hle.
    rewrite Zle_Qle in Hle. unfold Z.pred in Hle.
    replace (lo + -1)%Z with (lo - 1)%Z in Hle by lia.
    nra.
  - apply Z.lt_succ_r. apply Z.lt_nge. intros Hle.
    rewrite Zle_Qle in Hle. unfold Z.succ in Hle. nra.
Qed.

Section BeatCounts.
Context {ML : MathLib}.

(** One pass of the regular loop: the clock advances by [60 / beatHr], one
    mark is recorded and four draws are used. *)
Lemma regular_beat_clock (baseHr qrsWidthMs : Q) (showP showT : bool)
    (baseAmp prMin prMax : Q) (st : RegState) (g : Rng) :
  let r := regular_beat baseHr qrsWidthMs showP showT baseAmp prMin prMax st g in
  reg_tSec (fst r)
  = reg_tSec st + 60 / clamp (baseHr * (1 + (- 0.03 + g O * (0.03 - - 0.03)))) 45 190 /\
  length (reg_rPeaks (fst r)) = Datatypes.S (length (reg_rPeaks st)) /\
  snd r = (fun n => g (4 + n)%nat).
Proof.
  cbv [regular_beat bind ret jitter randRange Math_random].
  cbn [fst snd reg_tSec reg_rPeaks].
  split; [reflexivity | split; [ | reflexivity]].
  rewrite length_app. cbn. lia.
Qed.

(** One pass of the AF loop: the clock advances by the clamped interval, one
    mark is recorded and three draws are used. *)
Lemma afib_beat_clock (meanRR : Q) (st : AfState) (g : Rng) :
  let r := afib_beat meanRR st g in
  af_t (fst r)
  = af_t st + clamp (meanRR - 0.22 + g O * (meanRR + 0.22 - (meanRR - 0.22))) 0.28 1.1 /\
  length (af_rPeaks (fst r)) = Datatypes.S (length (af_rPeaks st)) /\
  snd r = (fun n => g (3 + n)%nat).
Proof.
  cbv [afib_beat bind ret randRange Math_random].
  cbn [fst snd af_t af_rPeaks].
  split; [reflexivity | split; [ | reflexivity]].
  rewrite length_app. cbn. lia.
Qed.

Lemma closed_rng_skip (k : nat) (g : Rng) :
  closed_rng g -> closed_rng (fun n => g (k + n)%nat).
Proof. intros H n. apply H. Qed.

Lemma closed_rng_tail (g : Rng) : closed_rng g -> closed_rng (fun n => g (Datatypes.S n)).
Proof. intros H n. apply H. Qed.

(** The rate a scenario draws, when the draw may reach 1. *)
Lemma scenario_rate_closed (g : Rng) (lo width : Q) (a b : Z) :
  0 <= g O -> g O <= 1 -> 0 < width ->
  inject_Z a <= lo -> lo + width < inject_Z b + 1 ->
  (a <= Math_floor (fst (randRange lo (lo + width) g)) <= b)%Z.
Proof.
  intros H0 H1 Hw Ha Hb.
  cbv [randRange bind ret Math_random]. cbn [fst].
  assert (Hu : 0 <= g O * (lo + width - lo) /\ g O * (lo + width - lo) <= width) by nra.
  unfold Math_floor. split.
  - apply Qfloor_ge_Z. lra.
  - apply Z.lt_succ_r. apply Qfloor_lt_Z.
    unfold Z.succ. rewrite inject_Z_plus. change (inject_Z 1) with 1. lra.
Qed.

(** The time line of the regular loop, when every beat's clamped heart rate
    [b] satisfies [cmin * b <= 60 <= cmax * b]. *)
Lemma regular_loop_timeline (fuel : nat) (samples : Z) (baseHr qrsWidthMs : Q)
    (showP showT : bool) (baseAmp prMin prMax cmin cmax : Q)
    (st st' : RegState) (g g' : Rng) :
  0 <= cmin ->
  (forall u, 0 <= u -> u <= 1 ->
     let b := clamp (baseHr * (1 + (- 0.03 + u * (0.03 - - 0.03)))) 45 190 in
     cmin * b <= 60 /\ 60 <= cmax * b) ->
  regular_loop fuel samples baseHr qrsWidthMs showP showT baseAmp prMin prMax st g
  = (Some st', g') ->
  closed_rng g ->
  timeline_inv samples cmin cmax (length (reg_rPeaks st)) (reg_tSec st) ->
  timeline_inv samples cmin cmax (length (reg_rPeaks st')) (reg_tSec st') /\
  inject_Z samples <= reg_tSec st' * SAMPLE_RATE.
Proof.
  intros Hmin Hb E Hg Ht. unfold regular_loop in E.
  apply (while_loop_exit _ _
           (fun s g0 => closed_rng g0 /\
              timeline_inv samples cmin cmax (length (reg_rPeaks s)) (reg_tSec s)))
    in E.
  - destruct E as [[_ Hi] Hc]. split; [exact Hi | ].
    unfold regular_cond in Hc. qprop. exact Hc.
  - intros s g0 [Hg0 Hi] Hc.
    destruct (regular_beat_clock baseHr qrsWidthMs showP showT baseAmp prMin prMax s g0)
      as (Et & El & Eg).
    rewrite Et, El, Eg. split; [now apply closed_rng_skip | ].
    destruct (Hg0 O) as [H0 H1]. specialize (Hb (g0 O) H0 H1). cbv zeta in Hb.
    pose proof (clamp_bounds (baseHr * (1 + (- 0.03 + g0 O * (0.03 - - 0.03)))) 45 190)
      as Hcl.
    set (b := clamp (baseHr * (1 + (- 0.03 + g0 O * (0.03 - - 0.03)))) 45 190) in *.
    assert (Hb45 : 45 <= b) by (apply Hcl; lra).
    apply timeline_step; trivial.
    + apply Qle_shift_div_l; [lra | apply Hb].
    + apply Qle_shift_div_r; [lra | apply Hb].
    + unfold regular_cond in Hc. qprop. exact Hc.
  - split; assumption.
Qed.

Lemma afib_loop_timeline (fuel : nat) (samples : Z) (meanRR cmax : Q)
    (st st' : AfState) (g g' : Rng) :
  0.28 <= cmax -> meanRR + 0.22 <= cmax ->
  afib_loop fuel samples meanRR st g = (Some st', g') ->
  closed_rng g ->
  timeline_inv samples 0.28 cmax (length (af_rPeaks st)) (af_t st) ->
  timeline_inv samples 0.28 cmax (length (af_rPeaks st')) (af_t st') /\
  inject_Z samples <= af_t st' * SAMPLE_RATE.
Proof.
  intros Hc28 Hmax E Hg Ht. unfold afib_loop in E.
  apply (while_loop_exit _ _
           (fun s g0 => closed_rng g0 /\
              timeline_inv samples 0.28 cmax (length (af_rPeaks s)) (af_t s)))
    in E.
  - destruct E as [[_ Hi] Hc]. split; [exact Hi | ].
    unfold afib_cond in Hc. qprop. exact Hc.
  - intros s g0 [Hg0 Hi] Hc.
    destruct (afib_beat_clock meanRR s g0) as (Et & El & Eg).
    rewrite Et, El, Eg. clear Et El Eg. split; [now apply closed_rng_skip | ].
    destruct (Hg0 O) as [H0 H1].
    assert (Hu : meanRR - 0.22 + g0 O * (meanRR + 0.22 - (meanRR - 0.22)) <= cmax) by nra.
    generalize dependent (meanRR - 0.22 + g0 O * (meanRR + 0.22 - (meanRR - 0.22))).
    intros v Hv.
    apply timeline_step.
    + lra.
    + apply clamp_bounds. lra.
    + unfold clamp. minmax; lra.
    + exact Hi.
    + unfold afib_cond in Hc. qprop. exact Hc.
  - split; assumption.
Qed.

Lemma timeline_start (samples : Z) (cmin cmax : Q) :
  timeline_inv samples cmin cmax 0 0.
Proof.
  unfold timeline_inv. change (inject_Z (Z.of_nat 0)) with 0.
  split; [lra | split; [lra | intros H; inversion H]].
Qed.

(** The number of marks of [generateRegularECG] on a buffer of 90000
    samples. *)
Lemma generateRegularECG_count (seconds hr qrsWidthMs : Q) (opts : Opts) (g : Rng)
    (cmin cmax : Q) (lo hi : Z) :
  Math_floor (seconds * SAMPLE_RATE) = 90000%Z ->
  0 < cmin -> 0 < cmax ->
  (forall u, 0 <= u -> u <= 1 ->
     let b := clamp (hr * (1 + (- 0.03 + u * (0.03 - - 0.03)))) 45 190 in
     cmin * b <= 60 /\ 60 <= cmax * b) ->
  inject_Z (lo - 1) * cmax * SAMPLE_RATE < 90000 ->
  90000 + cmax * SAMPLE_RATE <= inject_Z (hi + 1) * cmin * SAMPLE_RATE ->
  closed_rng g ->
  exists buf g',
    generateRegularECG default_fuel seconds hr qrsWidthMs opts g = (Some buf, g') /\
    (lo <= Z.of_nat (length (rPeaks buf)) <= hi)%Z.
Proof.
  intros Hs Hmin Hmax Hb Hlo Hhi Hg.
  unfold generateRegularECG. cbv zeta. rewrite Hs.
  unfold bind at 1.
  match goal with
  | |- context [regular_loop default_fuel 90000 ?a ?b ?c ?d ?e ?f ?h ?st g] =>
      destruct (regular_loop_total 90000 (Z.to_nat 90000) a b c d e f h default_fuel st g)
        as (st' & g1 & E & _ & _);
      [ | | rewrite E;
            destruct (regular_loop_timeline default_fuel 90000 a b c d e f h cmin cmax
                        st st' g g1) as [Ht Hend]; trivial ]
  end.
  - unfold reg_inv. cbn [reg_tSec reg_arr reg_rPeaks]. rewrite floor_zero_rate.
    split; [lra | split; [apply marks_inv_nil | ]].
    split; [apply Float32Array_length | reflexivity].
  - unfold reg_measure. cbn [reg_tSec]. rewrite floor_zero_rate.
    pose proof default_fuel_enough as Hd. rewrite buffer_samples_eq in Hd. lia.
  - lra.
  - cbn [reg_rPeaks reg_tSec length]. apply timeline_start.
  - unfold bind, ret.
    destruct (forM (Zrange 0 (90000 - 1)) regular_noise (0, reg_arr st') g1) as [da g''].
    exists {| buffer := snd da; rPeaks := reg_rPeaks st' |}, g''.
    split; [reflexivity | ]. cbn [rPeaks].
    apply (timeline_exit 90000 cmin cmax _ (reg_tSec st')); trivial; lia.
Qed.

Lemma afib_baseline_rng (fHz : Q) (i : Z) (arr : list Q) (g : Rng) :
  closed_rng g -> closed_rng (snd (afib_baseline fHz i arr g)).
Proof. intros H n. apply (H (Datatypes.S n)). Qed.

(** The number of marks of [generateAfibRvr] on a buffer of 90000 samples. *)
Lemma generateAfibRvr_count (seconds meanHr : Q) (g : Rng) (cmax : Q) (lo hi : Z) :
  Math_floor (seconds * SAMPLE_RATE) = 90000%Z ->
  0.28 <= cmax -> 60 / meanHr + 0.22 <= cmax ->
  inject_Z (lo - 1) * cmax * SAMPLE_RATE < 90000 ->
  90000 + cmax * SAMPLE_RATE <= inject_Z (hi + 1) * 0.28 * SAMPLE_RATE ->
  closed_rng g ->
  exists buf g',
    generateAfibRvr default_fuel seconds meanHr g = (Some buf, g') /\
    (lo <= Z.of_nat (length (rPeaks buf)) <= hi)%Z.
Proof.
  intros Hs Hc Hm Hlo Hhi Hg.
  unfold generateAfibRvr. cbv zeta. rewrite Hs.
  unfold bind at 1.
  pose proof (closed_rng_tail g Hg) as Hg1.
  change (fun n => g (Datatypes.S n)) with (snd (randRange 5 8 g)) in Hg1.
  destruct (randRange 5 8 g) as [fHz g1]. cbn [snd] in Hg1.
  unfold bind at 1.
  pose proof (forM_inv_rng (fun _ g0 => closed_rng g0) (afib_baseline fHz)
                (fun x a g0 H => afib_baseline_rng fHz x a g0 H)
                (Zrange 0 (90000 - 1)) (Float32Array 90000) g1 Hg1) as Hg2.
  pose proof (forM_inv (fun a => length a = Z.to_nat 90000) (afib_baseline fHz)
                (fun x a g0 H => eq_trans (afib_baseline_length fHz x a g0) H)
                (Zrange 0 (90000 - 1)) (Float32Array 90000) g1
                (Float32Array_length 90000)) as Hlen.
  cbv beta in Hg2.
  destruct (forM (Zrange 0 (90000 - 1)) (afib_baseline fHz) (Float32Array 90000) g1)
    as [arr g2]. cbn [fst snd] in Hg2, Hlen.
  unfold bind at 1.
  destruct (afib_loop_total 90000 (Z.to_nat 90000) (60 / meanHr) default_fuel
              {| af_t := 0; af_arr := arr; af_rPeaks := [] |} g2)
    as (st' & g' & E & _ & _).
  - unfold af_inv. cbn [af_t af_arr af_rPeaks]. rewrite floor_zero_rate.
    split; [lra | split; [apply marks_inv_nil | split; [exact Hlen | reflexivity]]].
  - unfold af_measure. cbn [af_t]. rewrite floor_zero_rate.
    pose proof default_fuel_enough as Hd. rewrite buffer_samples_eq in Hd. lia.
  - rewrite E. unfold ret.
    exists {| buffer := af_arr st'; rPeaks := af_rPeaks st' |}, g'.
    split; [reflexivity | ]. cbn [rPeaks].
    destruct (afib_loop_timeline _ _ _ cmax _ _ _ _ Hc Hm E Hg2
                (timeline_start 90000 0.28 cmax)) as [Ht Hend].
    clear E.
    apply (timeline_exit 90000 0.28 cmax _ (af_t st') lo hi Ht Hend).
    + reflexivity.
    + reflexivity.
    + lra.
    + exact Hlo.
    + exact Hhi.
Qed.

(** The clamped rate of one beat, for a base rate within [[hlo, hhi]]. *)
Lemma beat_rate_bounds (hr u hlo hhi : Q) :
  0 <= u -> u <= 1 -> 0 < hlo -> hlo <= hr -> hr <= hhi ->
  hlo * 0.97 <= 190 -> 45 <= hhi * 1.03 ->
  let b := clamp (hr * (1 + (- 0.03 + u * (0.03 - - 0.03)))) 45 190 in
  Math_max 45 (hlo * 0.97) <= b /\ b <= Math_min 190 (hhi * 1.03).
Proof.
  intros H0 H1 Hl Hlo Hhi Hl190 Hh45 b.
  assert (Hd : 0 <= u * (0.03 - - 0.03) /\ u * (0.03 - - 0.03) <= 0.06) by nra.
  subst b. generalize dependent (u * (0.03 - - 0.03)). intros d Hd.
  assert (Hv : hlo * 0.97 <= hr * (1 + (- 0.03 + d)) /\
               hr * (1 + (- 0.03 + d)) <= hhi * 1.03) by nra.
  generalize dependent (hr * (1 + (- 0.03 + d))). intros v Hv.
  unfold clamp. minmax; split; lra.
Qed.

Lemma vt_count_bounds (cs : Z) :
  (162 <= cs <= 200)%Z -> (450 <= vt_count 90000 cs <= 556)%Z.
Proof.
  intros H. unfold vt_count. split.
  - apply Z.div_le_lower_bound; lia.
  - apply Z.lt_succ_r. apply Z.div_lt_upper_bound; lia.
Qed.

Lemma vt_cycleSamples_bounds (h : Z) :
  (150 <= h <= 185)%Z -> (162 <= vt_cycleSamples (inject_Z h) <= 200)%Z.
Proof.
  intros [Hl Hh]. unfold vt_cycleSamples. cbv zeta.
  assert (Hq : 150 <= inject_Z h /\ inject_Z h <= 185).
  { split; [change 150 with (inject_Z 150) | change 185 with (inject_Z 185)];
      rewrite <- Zle_Qle; assumption. }
  assert (Hb : 162 <= 60 / inject_Z h * SAMPLE_RATE /\
               60 / inject_Z h * SAMPLE_RATE < 201).
  { unfold SAMPLE_RATE.
    assert (H1 : 162 / 500 <= 60 / inject_Z h).
    { apply Qle_shift_div_l; [lra | ].
      unfold Qdiv. setoid_replace (/ 500) with 0.002 by reflexivity. lra. }
    assert (H2 : 60 / inject_Z h < 201 / 500).
    { apply Qlt_shift_div_r; [lra | ].
      unfold Qdiv. setoid_replace (/ 500) with 0.002 by reflexivity. lra. }
    unfold Qdiv in H1 at 1. unfold Qdiv in H2 at 2.
    setoid_replace (/ 500) with 0.002 in H1 by reflexivity.
    setoid_replace (/ 500) with 0.002 in H2 by reflexivity.
    generalize dependent (60 / inject_Z h). intros q H1 H2. split; lra. }
  destruct Hb as [Hb1 Hb2].
  assert (162 <= Math_floor (60 / inject_Z h * SAMPLE_RATE))%Z
    by (apply Qfloor_ge_Z; exact Hb1).
  assert (Math_floor (60 / inject_Z h * SAMPLE_RATE) < 201)%Z
    by (apply Qfloor_lt_Z; exact Hb2).
  lia.
Qed.

(** X25. The number of beats on a strip matches the rate of its rhythm:
    for draws in [0, 1], the upper end included so that a rate rounded up to
    the end of its range is covered, the 180-second buffer of a rhythm has a
    number of marks within [beat_range]: 181 to 242 for sinus rhythm, 466 to
    571 for SVT, 250 to 645 for AF, 450 to 556 for VT with a pulse, exactly
    512 for pulseless VT, 146 to 155 for PEA, and none for VF and
    asystole. *)
Theorem marks_per_buffer (r : RhythmId) (g : Rng) :
  closed_rng g ->
  exists buf g',
    synthesize r g = (Some buf, g') /\
    (fst (beat_range r) <= Z.of_nat (length (rPeaks buf)) <= snd (beat_range r))%Z.
Proof.
  intros Hg. unfold synthesize.
  destruct r; cbn [beat_range fst snd];
    [ unfold synthesize_fuel; cbn [SCENARIOS generator] ..
    | idtac | idtac
    | unfold synthesize_fuel; cbn [SCENARIOS generator] ].
  - (* SINUS *)
    unfold bind at 1.
    pose proof (scenario_rate_closed g (- 8) 16 (- 8) 8) as Hr.
    destruct (Hg O) as [H0 H1]. specialize (Hr H0 H1).
    pose proof (closed_rng_tail g Hg) as Hg1.
    change (fun n => g (Datatypes.S n)) with (snd (sinus_hr g)) in Hg1.
    assert (Eh : fst (sinus_hr g)
                 = 70 + inject_Z (Math_floor (fst (randRange (- 8) 8 g)))) by reflexivity.
    destruct (sinus_hr g) as [hr g1]. cbn [fst snd] in *.
    assert (Hh : 62 <= hr /\ hr <= 78).
    { rewrite Eh.
      assert (Hz : (- 8 <= Math_floor (fst (randRange (- 8) 8 g)) <= 8)%Z).
      { apply Hr; [lra | qconst | qconst]. }
      destruct Hz as [Hz1 Hz2]. rewrite Zle_Qle in Hz1, Hz2.
      change (inject_Z (- 8)) with (- 8) in Hz1. change (inject_Z 8) with 8 in Hz2.
      split; lra. }
    clear Eh Hr.
    apply (generateRegularECG_count _ _ _ _ _ 0.7468 0.9977);
      [reflexivity | lra | lra | | vm_compute; reflexivity
      | vm_compute; discriminate | exact Hg1].
    intros u Hu0 Hu1.
    destruct (beat_rate_bounds hr u 62 78 Hu0 Hu1) as [Hb1 Hb2]; try lra.
    cbv zeta in *.
    generalize dependent (clamp (hr * (1 + (- 0.03 + u * (0.03 - - 0.03)))) 45 190).
    intros b Hb1 Hb2. revert Hb1 Hb2. minmax; intros; split; lra.
  - (* SVT *)
    unfold bind at 1.
    pose proof (scenario_rate_closed g 160 50 160 210) as Hr.
    destruct (Hg O) as [H0 H1]. specialize (Hr H0 H1).
    pose proof (closed_rng_tail g Hg) as Hg1.
    change (fun n => g (Datatypes.S n)) with (snd (svt_hr g)) in Hg1.
    assert (Eh : fst (svt_hr g)
                 = inject_Z (Math_floor (fst (randRange 160 210 g)))) by reflexivity.
    destruct (svt_hr g) as [hr g1]. cbn [fst snd] in *.
    assert (Hh : 160 <= hr /\ hr <= 210).
    { rewrite Eh.
      assert (Hz : (160 <= Math_floor (fst (randRange 160 210 g)) <= 210)%Z).
      { apply Hr; [lra | qconst | qconst]. }
      destruct Hz as [Hz1 Hz2]. rewrite Zle_Qle in Hz1, Hz2.
      change (inject_Z 160) with 160 in Hz1. change (inject_Z 210) with 210 in Hz2.
      split; lra. }
    clear Eh Hr.
    unfold generateSVT. unfold bind at 1.
    match goal with
    | |- context [generateRegularECG default_fuel BUFFER_SECONDS hr ?w ?o g1] =>
        destruct (generateRegularECG_count BUFFER_SECONDS hr w o g1
                    0.3157 0.3866 466 571) as (base & g2 & E & Hn);
        [reflexivity | lra | lra | | vm_compute; reflexivity
        | vm_compute; discriminate | exact Hg1 | ]
    end.
    + intros u Hu0 Hu1.
      destruct (beat_rate_bounds hr u 160 210 Hu0 Hu1) as [Hb1 Hb2]; try lra.
      cbv zeta in *.
      generalize dependent (clamp (hr * (1 + (- 0.03 + u * (0.03 - - 0.03)))) 45 190).
      intros b Hb1 Hb2. revert Hb1 Hb2. minmax; intros; split; lra.
    + rewrite E. unfold bind, ret.
      destruct (forM (rPeaks base) svt_retrograde (buffer base) g2) as [arr g3].
      exists {| buffer := arr; rPeaks := rPeaks base |}, g3.
      split; [reflexivity | exact Hn].
  - (* AFIB_RVR *)
    unfold bind at 1.
    pose proof (scenario_rate_closed g (- 20) 40 (- 20) 20) as Hr.
    destruct (Hg O) as [H0 H1]. specialize (Hr H0 H1).
    pose proof (closed_rng_tail g Hg) as Hg1.
    change (fun n => g (Datatypes.S n)) with (snd (afib_meanHr g)) in Hg1.
    assert (Eh : fst (afib_meanHr g)
                 = 140 + inject_Z (Math_floor (fst (randRange (- 20) 20 g))))
      by reflexivity.
    destruct (afib_meanHr g) as [hr g1]. cbn [fst snd] in *.
    assert (Hh : 120 <= hr).
    { rewrite Eh.
      assert (Hz : (- 20 <= Math_floor (fst (randRange (- 20) 20 g)) <= 20)%Z).
      { apply Hr; [lra | qconst | qconst]. }
      destruct Hz as [Hz1 Hz2]. rewrite Zle_Qle in Hz1.
      change (inject_Z (- 20)) with (- 20) in Hz1. lra. }
    clear Eh Hr.
    apply (generateAfibRvr_count _ _ _ 0.72);
      [reflexivity | lra | | vm_compute; reflexivity
      | vm_compute; discriminate | exact Hg1].
    assert (Hq : 60 / hr <= 0.5) by (apply Qle_shift_div_r; lra).
    generalize dependent (60 / hr). intros q Hq. lra.
  - (* VT_PULSE *)
    unfold bind at 1.
    pose proof (scenario_rate_closed g 150 35 150 185) as Hr.
    destruct (Hg O) as [H0 H1]. specialize (Hr H0 H1).
    assert (Eh : fst (vt_pulse_hr g)
                 = inject_Z (Math_floor (fst (randRange 150 185 g)))) by reflexivity.
    destruct (vt_pulse_hr g) as [hr g1]. cbn [fst] in Eh.
    assert (Hz : (150 <= Math_floor (fst (randRange 150 185 g)) <= 185)%Z).
    { apply Hr; [lra | qconst | qconst]. }
    destruct (generateVT_marks default_fuel BUFFER_SECONDS hr g1)
      as (buf & g' & E & Hp); [reflexivity | apply default_fuel_enough | ].
    exists buf, g'. split; [exact E | ].
    cbv zeta in Hp. rewrite Hp, length_map, Eh.
    change (Math_floor (BUFFER_SECONDS * SAMPLE_RATE)) with 90000%Z.
    pose proof (vt_count_bounds _ (vt_cycleSamples_bounds _ Hz)) as Hc.
    unfold Zrange. rewrite length_map, length_seq. lia.
  - (* PVT *)
    destruct (generateVT_marks default_fuel BUFFER_SECONDS 170 g)
      as (buf & g' & E & Hp); [reflexivity | apply default_fuel_enough | ].
    exists buf, g'. split; [exact E | ].
    rewrite Hp. vm_compute. split; discriminate.
  - (* VF *)
    destruct (synthesize_fuel_flat default_fuel VF g eq_refl) as (buf & g' & E & _ & Hn).
    exists buf, g'. split; [exact E | ]. rewrite Hn. clear E. cbn. lia.
  - (* ASYSTOLE *)
    destruct (synthesize_fuel_flat default_fuel ASYSTOLE g eq_refl)
      as (buf & g' & E & _ & Hn).
    exists buf, g'. split; [exact E | ]. rewrite Hn. clear E. cbn. lia.
  - (* PEA_NARROW *)
    unfold generatePEA_narrow.
    apply (generateRegularECG_count _ _ _ _ _ 1.165 1.2372);
      [reflexivity | lra | lra | | vm_compute; reflexivity
      | vm_compute; discriminate | exact Hg].
    intros u Hu0 Hu1.
    destruct (beat_rate_bounds 50 u 50 50 Hu0 Hu1) as [Hb1 Hb2]; try lra.
    cbv zeta in *.
    generalize dependent (clamp (50 * (1 + (- 0.03 + u * (0.03 - - 0.03)))) 45 190).
    intros b Hb1 Hb2. revert Hb1 Hb2. minmax; intros; split; lra.
Qed.

End BeatCounts.

Lemma marks_per_buffer_witness :
  closed_rng draws_03 /\
  exists buf g',
    @synthesize approxMath SINUS draws_03 = (Some buf, g') /\
    (181 <= Z.of_nat (length (rPeaks buf)) <= 242)%Z.
Proof.
  assert (H : closed_rng draws_03) by (intros n; split; vm_compute; discriminate).
  split; [exact H | ].
  exact (@marks_per_buffer approxMath SINUS draws_03 H).
Defined.

(** ** The marks of atrial fibrillation *)

Section AfibMarks.
Context {ML : MathLib}.

(** The loop of [generateAfibRvr] records the position it has just tested
    against the end of the buffer. *)
Lemma afib_loop_marks_below (fuel : nat) (samples : Z) (meanRR : Q)
    (st st' : AfState) (g g' : Rng) :
  afib_loop fuel samples meanRR st g = (Some st', g') ->
  0 <= af_t st ->
  Forall (fun x => (0 <= x < samples)%Z) (af_rPeaks st) ->
  Forall (fun x => (0 <= x < samples)%Z) (af_rPeaks st').
Proof.
  intros E Ht Hm. unfold afib_loop in E.
  apply (while_loop_exit _ _
           (fun s _ => 0 <= af_t s /\
              Forall (fun x => (0 <= x < samples)%Z) (af_rPeaks s))) in E.
  - apply E.
  - intros s g0 [Hs Hf] Hc.
    destruct (afib_beat_spec meanRR s g0) as (rr & Hr & _ & Et & Ep & _).
    rewrite Et, Ep. split; [lra | ].
    apply Forall_app. split; [exact Hf | ].
    constructor; [ | constructor]. split.
    + apply Qfloor_nonneg. unfold SAMPLE_RATE. lra.
    + now apply afib_cond_true.
  - split; assumption.
Qed.

Lemma generateAfibRvr_marks_below (fuel : nat) (seconds meanHr : Q) (g : Rng) :
  let samples := Math_floor (seconds * SAMPLE_RATE) in
  (samples <= Z.of_nat fuel)%Z ->
  exists buf g',
    generateAfibRvr fuel seconds meanHr g = (Some buf, g') /\
    length (buffer buf) = Z.to_nat samples /\
    Forall (fun x => (0 <= x < samples)%Z) (rPeaks buf).
Proof.
  intros samples Hf. unfold generateAfibRvr. cbv zeta. fold samples.
  unfold bind at 1. destruct (randRange 5 8 g) as [fHz g1].
  unfold bind at 1.
  pose proof (forM_inv (fun a => length a = Z.to_nat samples) (afib_baseline fHz)
                (fun x a g0 H => eq_trans (afib_baseline_length fHz x a g0) H)
                (Zrange 0 (samples - 1)) (Float32Array samples) g1
                (Float32Array_length samples)) as Hlen.
  destruct (forM (Zrange 0 (samples - 1)) (afib_baseline fHz) (Float32Array samples) g1)
    as [arr g2]. cbn [fst] in Hlen.
  unfold bind at 1.
  destruct (afib_loop_total samples (Z.to_nat samples) (60 / meanHr) fuel
              {| af_t := 0; af_arr := arr; af_rPeaks := [] |} g2)
    as (st' & g' & E & (_ & _ & Hl & _) & _).
  - unfold af_inv. cbn [af_t af_arr af_rPeaks]. rewrite floor_zero_rate.
    split; [lra | split; [apply marks_inv_nil | split; [exact Hlen | reflexivity]]].
  - unfold af_measure. cbn [af_t]. rewrite floor_zero_rate. lia.
  - rewrite E. unfold ret.
    exists {| buffer := af_arr st'; rPeaks := af_rPeaks st' |}, g'.
    cbn [buffer rPeaks]. split; [reflexivity | split; [exact Hl | ]].
    apply (afib_loop_marks_below _ _ _ _ _ _ _ E); [cbn; lra | constructor].
Qed.

(** X27. Atrial fibrillation keeps every mark inside the buffer: for every
    stream of draws the AFIB_RVR buffer has 90000 samples and every mark, the
    last included, lies within [0, samples.length). *)
Theorem afib_marks_in_bounds (g : Rng) :
  exists buf g',
    synthesize AFIB_RVR g = (Some buf, g') /\
    arr_length (buffer buf) = 90000%Z /\
    Forall (fun x => (0 <= x < arr_length (buffer buf))%Z) (rPeaks buf).
Proof.
  unfold synthesize, synthesize_fuel. cbn [SCENARIOS generator].
  unfold bind at 1. destruct (afib_meanHr g) as [hr g1].
  destruct (generateAfibRvr_marks_below default_fuel BUFFER_SECONDS hr g1)
    as (buf & g' & E & Hl & Hm); [apply default_fuel_enough | ].
  change (Math_floor (BUFFER_SECONDS * SAMPLE_RATE)) with 90000%Z in Hl, Hm.
  exists buf, g'. split; [exact E | ].
  unfold arr_length. rewrite Hl.
  replace (Z.of_nat (Z.to_nat 90000)) with 90000%Z by (vm_compute; reflexivity).
  split; [reflexivity | exact Hm].
Qed.

End AfibMarks.
